(** * Telegram → n8n video bot: the update processor and its template parser

    A shallow embedding of [application/telegramUpdateProcessor.ts]
    (with the domain model, the repository interface and the two HTTP
    clients it drives), of the metadata validator, the KV repository and
    the worker's request handler, and the properties of its specification.

    Conventions of the embedding.
    - A JavaScript string is the list of its UTF-16 code units, each a [Z].
      String literals of the source are written as UTF-8 text and decoded
      by [utf16].
    - An optional field ([x?: T]) is an [option]; JavaScript truthiness of
      strings and numbers is written out ([truthy_str], [truthy_num]).
    - Collaborators (messaging API, workflow endpoint, state repository)
      are calls recorded in a trace; what the outside world answers is read
      from an environment record. *)

From Stdlib Require Import ZArith List Ascii String Bool Lia.
From stdpp Require Import base option list gmap.

Local Open Scope Z_scope.

(** ** JavaScript strings *)

Module JS.

Definition jsstring : Type := list Z.

Fixpoint bytes_of (s : string) : list Z :=
  match s with
  | EmptyString => []
  | String a r => Z.of_nat (nat_of_ascii a) :: bytes_of r
  end.

(** UTF-8 bytes to code points (the literals of this file are well formed). *)
Fixpoint decode_utf8 (bs : list Z) : list Z :=
  match bs with
  | [] => []
  | b0 :: r0 =>
    if b0 <? 128 then b0 :: decode_utf8 r0
    else match r0 with
    | [] => []
    | b1 :: r1 =>
      if b0 <? 224 then
        Z.lor (Z.shiftl (Z.land b0 31) 6) (Z.land b1 63) :: decode_utf8 r1
      else match r1 with
      | [] => []
      | b2 :: r2 =>
        if b0 <? 240 then
          Z.lor (Z.shiftl (Z.land b0 15) 12)
            (Z.lor (Z.shiftl (Z.land b1 63) 6) (Z.land b2 63)) :: decode_utf8 r2
        else match r2 with
        | [] => []
        | b3 :: r3 =>
          Z.lor (Z.shiftl (Z.land b0 7) 18)
            (Z.lor (Z.shiftl (Z.land b1 63) 12)
               (Z.lor (Z.shiftl (Z.land b2 63) 6) (Z.land b3 63))) :: decode_utf8 r3
        end
      end
    end
  end.

(** Code points to UTF-16 code units (surrogate pairs above the BMP). *)
Definition units_of_cp (cp : Z) : list Z :=
  if cp <? 65536 then [cp]
  else [55296 + Z.shiftr (cp - 65536) 10; 56320 + Z.land (cp - 65536) 1023].

Definition utf16 (s : string) : jsstring :=
  concat (map units_of_cp (decode_utf8 (bytes_of s))).

Definition str_eqb (a b : jsstring) : bool := bool_decide (a = b).

(** [!!s] for a string: the empty string is falsy. *)
Definition truthy_str (s : jsstring) : bool :=
  match s with [] => false | _ => true end.

(** [o || ""] and truthiness of an optional string. *)
Definition or_empty (o : option jsstring) : jsstring := default [] o.
Definition truthy_ostr (o : option jsstring) : bool := truthy_str (or_empty o).

(** Truthiness of a number (ids are integers: only [0] is falsy). *)
Definition truthy_num (n : Z) : bool := negb (n =? 0).

(** ECMAScript WhiteSpace and LineTerminator code units: what [\s] matches
    and what [String.prototype.trim] removes. *)
Definition isWhiteSpace (c : Z) : bool :=
  ((9 <=? c) && (c <=? 13)) || (c =? 32) || (c =? 160) || (c =? 5760)
  || ((8192 <=? c) && (c <=? 8202)) || (c =? 8232) || (c =? 8233)
  || (c =? 8239) || (c =? 8287) || (c =? 12288) || (c =? 65279).

Fixpoint trimStart (s : jsstring) : jsstring :=
  match s with
  | c :: r => if isWhiteSpace c then trimStart r else s
  | [] => []
  end.

Definition trimEnd (s : jsstring) : jsstring := rev (trimStart (rev s)).

Definition trim (s : jsstring) : jsstring := trimEnd (trimStart s).

(** [String.prototype.toLowerCase], on the Basic Latin block: [A-Z] go to
    [a-z]. Case pairs of other scripts are left alone; the keywords and
    handles this program compares are ASCII or caseless (Persian). On a
    text with cased letters of other scripts this is not the program's
    function; where a property depends on it, that domain is a
    hypothesis ([plainText], [asciiHandle]). *)
Definition lowerUnit (c : Z) : Z :=
  if (65 <=? c) && (c <=? 90) then c + 32 else c.

Definition toLowerCase (s : jsstring) : jsstring := map lowerUnit s.

Fixpoint startsWith (p s : jsstring) : bool :=
  match p, s with
  | [], _ => true
  | a :: p', b :: s' => (a =? b) && startsWith p' s'
  | _ :: _, [] => false
  end.

(** [s.includes(p)] *)
Fixpoint includes (p s : jsstring) : bool :=
  startsWith p s ||
  match s with
  | [] => false
  | _ :: s' => includes p s'
  end.

(** [s.substring(a, b)]: both ends clamped to [0, length], swapped when
    out of order. *)
Definition substring (s : jsstring) (a b : Z) : jsstring :=
  let len := Z.of_nat (length s) in
  let a' := Z.min (Z.max a 0) len in
  let b' := Z.min (Z.max b 0) len in
  let from := Z.min a' b' in
  let to := Z.max a' b' in
  take (Z.to_nat (to - from)) (drop (Z.to_nat from) s).

(** [s.slice(0, n)] for [n >= 0], on strings and on arrays. *)
Definition slice0 {A} (n : nat) (s : list A) : list A := take n s.

(** Decimal rendering of an integer, as template literals do. A number
    of the program is an IEEE double; this is [Number::toString] on the
    integers a double holds exactly ([safeInteger]), and beyond any use
    the program makes of it on HTTP statuses. *)
Fixpoint digits (fuel : nat) (n : Z) (acc : jsstring) : jsstring :=
  match fuel with
  | O => acc
  | S f =>
    let acc' := (48 + n mod 10) :: acc in
    if n <? 10 then acc' else digits f (n / 10) acc'
  end.

Definition numberToString (n : Z) : jsstring :=
  if n <? 0 then 45 :: digits (Z.to_nat (Z.log2 (- n)) + 1) (- n) []
  else digits (Z.to_nat (Z.log2 n) + 1) n [].

(** *** Regular expressions

    The fragment the source uses: character classes, greedy [*] and [+] on
    a class, [?], sequence and ordered alternation, matched by
    backtracking with a continuation as in the ECMAScript semantics. The
    [i] flag is folded into the classes. *)

Inductive regex :=
| Eps
| Cls (p : Z → bool)
| StarCls (p : Z → bool)
| PlusCls (p : Z → bool)
| Seq (a b : regex)
| Alt (a b : regex).

Definition orelse {A} (x y : option A) : option A :=
  match x with Some _ => x | None => y end.

(** Greedy star on a class: the longest run first, shorter ones on failure
    of the continuation. *)
Fixpoint star (p : Z → bool) (s : jsstring)
    (k : jsstring → option jsstring) : option jsstring :=
  match s with
  | c :: s' => if p c then orelse (star p s' k) (k s) else k s
  | [] => k []
  end.

Fixpoint rmatch (r : regex) (s : jsstring)
    (k : jsstring → option jsstring) : option jsstring :=
  match r with
  | Eps => k s
  | Cls p => match s with c :: s' => if p c then k s' else None | [] => None end
  | StarCls p => star p s k
  | PlusCls p =>
    match s with c :: s' => if p c then star p s' k else None | [] => None end
  | Seq a b => rmatch a s (λ s', rmatch b s' k)
  | Alt a b => orelse (rmatch a s k) (rmatch b s k)
  end.

(** A sticky match at the head of [s]: the number of units it consumes. *)
Definition exec (r : regex) (s : jsstring) : option nat :=
  match rmatch r s Some with
  | Some rest => Some (length s - length rest)%nat
  | None => None
  end.

(** [/^r$/.test(s)] *)
Definition test_whole (r : regex) (s : jsstring) : bool :=
  match rmatch r s (λ rest, match rest with [] => Some [] | _ => None end) with
  | Some _ => true
  | None => false
  end.

(** A literal separator string as a matcher. *)
Definition exec_str (sep : jsstring) (s : jsstring) : option nat :=
  if startsWith sep s then Some (length sep) else None.

(** The loop of [split]. [acc] is the piece collected since the end [p] of
    the previous separator, reversed; [s] is the input from the scan
    position [q]; [skip] counts the units left of a separator just
    matched (the scan resumes at its end [e]). An empty match right at
    [p] is ignored; the scan moves on by one unit. *)
Fixpoint split_loop (m : jsstring → option nat) (skip : nat)
    (acc : jsstring) (s : jsstring) : list jsstring :=
  match s with
  | [] => [rev acc]
  | c :: s' =>
    match skip with
    | S n => split_loop m n acc s'
    | O =>
      match m s with
      | None => split_loop m O (c :: acc) s'
      | Some O =>
        match acc with
        | [] => split_loop m O [c] s'
        | _ => rev acc :: split_loop m O [c] s'
        end
      | Some (S n) => rev acc :: split_loop m n [] s'
      end
    end
  end.

(** [s.split(sep)] without a limit and without capture groups. *)
Definition split (m : jsstring → option nat) (s : jsstring) : list jsstring :=
  match s with
  | [] => match m [] with Some _ => [] | None => [[]] end
  | _ => split_loop m O [] s
  end.

(** [s.replace(/^#/, "")] *)
Definition stripHash (s : jsstring) : jsstring :=
  match s with
  | 35 :: r => r
  | _ => s
  end.

End JS.
Import JS.

(** ** Tag parsing: [parseTags], [splitTags], [limit] *)

Definition nonEmpty (s : jsstring) : bool := (0 <? length s)%nat.

(** [parseTags]: the wizard's tag input, separated by ASCII commas. *)
Definition parseTags (input : jsstring) : list jsstring :=
  slice0 30
    (map stripHash
       (List.filter nonEmpty
          (map trim (split (exec_str (utf16 ",")) input)))).

(** [limit(s, n)] *)
Definition limit (s : jsstring) (n : nat) : jsstring :=
  if (n <? length s)%nat then slice0 n s else s.

Definition isTagSepChar (c : Z) : bool :=
  (c =? 44) || (c =? 1548) || (c =? 10).
Definition isWaw (c : Z) : bool := c =? 1608.
Definition isA (c : Z) : bool := (c =? 97) || (c =? 65).
Definition isN (c : Z) : bool := (c =? 110) || (c =? 78).
Definition isD (c : Z) : bool := (c =? 100) || (c =? 68).

(** The separator of [splitTags]: [/[,،\n]+|\s*و\s*|\s*and\s*/i]. *)
Definition tagSeparator : regex :=
  Alt (PlusCls isTagSepChar)
    (Alt (Seq (StarCls isWhiteSpace) (Seq (Cls isWaw) (StarCls isWhiteSpace)))
         (Seq (StarCls isWhiteSpace)
            (Seq (Cls isA) (Seq (Cls isN) (Seq (Cls isD) (StarCls isWhiteSpace)))))).

(** [splitTags]: the template parser's tag splitting. *)
Definition splitTags (s : jsstring) : list jsstring :=
  if negb (truthy_str s) then []
  else map stripHash
         (List.filter nonEmpty (map trim (split (exec tagSeparator) s))).

(** ** The domain model and the messaging platform's types *)

Record TgUser := {
  user_id : Z;
  is_bot : option bool;
  first_name : option jsstring;
  last_name : option jsstring;
  username : option jsstring;
  language_code : option jsstring;
}.

Record TgChat := { chat_id : Z; chat_type : jsstring }.

Record TgVideo := {
  video_file_id : jsstring;
  video_file_unique_id : option jsstring;
  video_duration : option Z;
  video_mime_type : option jsstring;
  video_file_size : option Z;
}.

Record TgDocument := {
  doc_file_id : jsstring;
  doc_file_unique_id : option jsstring;
  doc_mime_type : option jsstring;
  doc_file_name : option jsstring;
  doc_file_size : option Z;
}.

Record TgMessageEntity := {
  ent_offset : Z;
  ent_length : Z;
  ent_type : jsstring;
  ent_user : option TgUser;
}.

#[warnings="-register-all"]
Inductive TgMessage := mkTgMessage {
  message_id : Z;
  msg_from : option TgUser;
  chat : TgChat;
  date : Z;
  text : option jsstring;
  video : option TgVideo;
  document : option TgDocument;
  entities : option (list TgMessageEntity);
  caption : option jsstring;
  caption_entities : option (list TgMessageEntity);
  reply_to_message : option TgMessage;
}.

Record TgUpdate := { update_id : Z; message : option TgMessage }.

(** [WizardStep]. A stored state comes back from [JSON.parse] with an
    unchecked cast, so a step outside the union can reach the [switch]:
    that is [other_step]. *)
Inductive WizardStep :=
| awaiting_video
| awaiting_title
| awaiting_description
| awaiting_tags
| awaiting_confirm
| other_step (raw : jsstring).

Record ChatState := {
  chatId : Z;
  step : WizardStep;
  st_video_file_id : option jsstring;
  st_title : option jsstring;
  st_description : option jsstring;
  st_tags : option (list jsstring);
  updatedAt : Z;
}.

Record PayloadFrom := {
  pf_id : Z;
  pf_username : option jsstring;
  pf_first_name : option jsstring;
  pf_last_name : option jsstring;
  pf_language_code : option jsstring;
}.

Record PayloadVideo := {
  pv_file_id : jsstring;
  pv_file_path : option jsstring;
  pv_file_size : option Z;
}.

(** The object handed to [N8nClient.sendVideo]. *)
Record N8nVideoPayload := {
  p_chat_id : Z;
  p_from : option PayloadFrom;
  p_message_id : Z;
  p_date : Z;
  p_video : PayloadVideo;
  p_title : jsstring;
  p_description : jsstring;
  p_tags : list jsstring;
  p_source_link : option jsstring;
  p_channel : option jsstring;
}.

(** ** The template parser *)

Inductive Section_ := sec_none | sec_upload | sec_channel | sec_title | sec_desc | sec_tags.

Record ParsedTemplate := {
  source_link : option jsstring;
  channel : option jsstring;
  title : option jsstring;
  description : option jsstring;
  tags : option (list jsstring);
}.

(** [a.join(sep)] *)
Fixpoint join (sep : jsstring) (l : list jsstring) : jsstring :=
  match l with
  | [] => []
  | [x] => x
  | x :: r => x ++ sep ++ join sep r
  end.

(** A literal as a regular expression. *)
Fixpoint lit (s : jsstring) : regex :=
  match s with
  | [] => Eps
  | c :: r => Seq (Cls (Z.eqb c)) (lit r)
  end.

(** Equality of two units under the [i] flag (Basic Latin letters). *)
Definition eq_ci (a b : Z) : bool := lowerUnit a =? lowerUnit b.

Fixpoint startsWith_ci (p s : jsstring) : bool :=
  match p, s with
  | [], _ => true
  | a :: p', b :: s' => eq_ci a b && startsWith_ci p' s'
  | _ :: _, [] => false
  end.

(** [s.replace(new RegExp(escapeRegExp(pat), "ig"), "")] for a non-empty
    [pat]: every occurrence found scanning left to right is removed
    ([skip] counts the units left of the occurrence being removed). *)
Fixpoint removeAll_ci (pat : jsstring) (skip : nat) (s : jsstring) : jsstring :=
  match s with
  | [] => []
  | c :: s' =>
    match skip with
    | S n => removeAll_ci pat n s'
    | O =>
      if startsWith_ci pat s then removeAll_ci pat (length pat - 1) s'
      else c :: removeAll_ci pat O s'
    end
  end.

(** [/\r?\n/] *)
Definition lineBreak : regex :=
  Seq (Alt (Cls (Z.eqb 13)) Eps) (Cls (Z.eqb 10)).

(** [/^تگ(\s*|‌)?ها$/i]: the group holds a run of white space or one
    zero-width non-joiner (U+200C). *)
Definition tagsHeader : regex :=
  Seq (lit (utf16 "تگ"))
    (Seq (Alt (Alt (StarCls isWhiteSpace) (Cls (Z.eqb 8204))) Eps)
         (lit (utf16 "ها"))).

Definition isHeader (s : jsstring) : option Section_ :=
  let t := trim (List.filter (λ c, negb ((c =? 58) || (c =? 65306))) s) in
  if str_eqb t (utf16 "آپلود") then Some sec_upload
  else if str_eqb t (utf16 "کانال") then Some sec_channel
  else if str_eqb t (utf16 "عنوان") then Some sec_title
  else if str_eqb t (utf16 "توضیح") then Some sec_desc
  else if test_whole tagsHeader t || str_eqb t (utf16 "تگ") then Some sec_tags
  else None.

(** The variables of the line loop of [parseGroupTemplate]. *)
Record ParserVars := {
  section : Section_;
  v_source_link : option jsstring;
  v_channel : list jsstring;
  v_title : option jsstring;
  v_desc : list jsstring;
  v_tagsRaw : list jsstring;
}.

Definition parserInit : ParserVars :=
  {| section := sec_none; v_source_link := None; v_channel := [];
     v_title := None; v_desc := []; v_tagsRaw := [] |}.

(** One iteration of the line loop. [isUrl] is the runtime's URL parser
    ([new URL(l)] does not throw). *)
Definition parserStep (isUrl : jsstring → bool) (v : ParserVars) (l : jsstring)
    : ParserVars :=
  match isHeader l with
  | Some h =>
    {| section := h; v_source_link := v_source_link v; v_channel := v_channel v;
       v_title := v_title v; v_desc := v_desc v; v_tagsRaw := v_tagsRaw v |}
  | None =>
    match section v with
    | sec_upload =>
      if negb (truthy_ostr (v_source_link v)) && isUrl l then
        {| section := section v; v_source_link := Some l; v_channel := v_channel v;
           v_title := v_title v; v_desc := v_desc v; v_tagsRaw := v_tagsRaw v |}
      else v
    | sec_channel =>
      {| section := section v; v_source_link := v_source_link v;
         v_channel := v_channel v ++ [l];
         v_title := v_title v; v_desc := v_desc v; v_tagsRaw := v_tagsRaw v |}
    | sec_title =>
      if negb (truthy_ostr (v_title v)) then
        {| section := section v; v_source_link := v_source_link v;
           v_channel := v_channel v; v_title := Some l;
           v_desc := v_desc v; v_tagsRaw := v_tagsRaw v |}
      else v
    | sec_desc =>
      {| section := section v; v_source_link := v_source_link v;
         v_channel := v_channel v; v_title := v_title v;
         v_desc := v_desc v ++ [l]; v_tagsRaw := v_tagsRaw v |}
    | sec_tags =>
      {| section := section v; v_source_link := v_source_link v;
         v_channel := v_channel v; v_title := v_title v;
         v_desc := v_desc v; v_tagsRaw := v_tagsRaw v ++ [l] |}
    | sec_none => v
    end
  end.

(** [x || undefined] for a string. *)
Definition orUndefined (s : jsstring) : option jsstring :=
  if truthy_str s then Some s else None.

Definition parseGroupTemplate (isUrl : jsstring → bool) (input : jsstring)
    (botUsername : option jsstring) : option ParsedTemplate :=
  let text :=
    match botUsername with
    | Some u =>
      if truthy_str u then removeAll_ci (utf16 "@" ++ u) O input else input
    | None => input
    end in
  let lines := List.filter nonEmpty (map trim (split (exec lineBreak) text)) in
  let v := fold_left (parserStep isUrl) lines parserInit in
  let tagList := splitTags (join (utf16 " ") (v_tagsRaw v)) in
  let result :=
    {| source_link := v_source_link v;
       channel := orUndefined (join (utf16 " ") (v_channel v));
       title := option_map (slice0 100) (v_title v);
       description := orUndefined (slice0 5000 (join [10] (v_desc v)));
       tags := if (0 <? length tagList)%nat then Some (slice0 30 tagList)
               else None |} in
  if negb (truthy_ostr (title result)) && negb (truthy_ostr (description result))
     && match tags result with None => true | Some t => (length t =? 0)%nat end
  then None
  else Some result.

Definition guidanceTemplate : jsstring :=
  join [10]
    [ utf16 "لطفاً پیام خود را با منشن کردن ربات و در قالب زیر ارسال کنید:";
      utf16 "";
      utf16 "@BOT_USERNAME";
      utf16 "آپلود";
      utf16 "https://t.me/YOUR_CHANNEL/MESSAGE_ID (اختیاری)";
      utf16 "";
      utf16 "کانال:";
      utf16 "نام کانال شما";
      utf16 "";
      utf16 "عنوان:";
      utf16 "عنوان ویدیو";
      utf16 "";
      utf16 "توضیح:";
      utf16 "توضیحات ویدیو";
      utf16 "";
      utf16 "تگ ها:";
      utf16 "تگ۱ و تگ۲ و تگ۳";
      utf16 "";
      utf16 "نکات:";
      utf16 "- لینک در بخش آپلود اختیاری است.";
      utf16 "- تگ‌ها را می‌توانید با ویرگول، 'و' یا سطر جدید جدا کنید.";
      utf16 "- برای اطمینان از انتخاب ویدیوی درست، روی پیامِ ویدیوی تلگرام REPLY بزنید و این قالب را به همراه منشن ارسال کنید." ].

(** ** Collaborators: what the outside world answers, and the trace of calls *)

(** The [result] object of Telegram's [getMe] answer. *)
Record Me := { me_id : option Z; me_username : option jsstring }.

Record FileResult := { file_path : option jsstring; file_size : option Z }.

(** The JSON body of Telegram's [getFile] answer. *)
Record FileAnswer := {
  ans_ok : bool;
  ans_result : option FileResult;
  ans_description : option jsstring;
}.

(** What [TelegramApi.getFile] returns. *)
Record FileCheck := {
  fc_ok : bool;
  fc_result : option FileResult;
  fc_description : option jsstring;
}.

(** A fetch [Response]: [ok] is derived from the status; [resp_text] is
    [None] when reading the body throws. *)
Record Response := { resp_status : Z; resp_text : option jsstring }.

Definition resp_ok (r : Response) : bool :=
  (200 <=? resp_status r) && (resp_status r <=? 299).

(** The environment of one [handleUpdate] call. The answers of the HTTP
    endpoints: [None] for a body that is not JSON. Calls that throw
    (network failures) are outside the model; console logging is not
    recorded. *)
Record Env := {
  env_getMe : option (option Me);
  env_getFile : jsstring → option FileAnswer;
  env_sendVideo : N8nVideoPayload → Response;
  env_now : Z;
  env_isUrl : jsstring → bool;
}.

Inductive Event :=
| GetMe
| SendMessage (chat : Z) (body : jsstring) (reply_to_message_id : option Z)
| SendChatAction (chat : Z) (action : jsstring)
| GetFile (file_id : jsstring)
| SendVideo (payload : N8nVideoPayload)
| RepoGet (chat : Z)
| RepoSave (st : ChatState)
| RepoDelete (chat : Z).

(** The state a call runs in: the repository's contents (a state saved by
    [KvChatStateRepository] is read back as saved, JSON being a round trip
    on [ChatState]; expiry of entries is not modelled), the processor's
    cached identity, and the calls made so far, oldest first. *)
Record World := {
  kv : gmap Z ChatState;
  botUsername : option jsstring;
  botId : option Z;
  trace : list Event;
}.

Definition M (A : Type) : Type := World → A * World.

#[global] Instance M_ret : MRet M := λ A a w, (a, w).
#[global] Instance M_bind : MBind M :=
  λ A B f m w, let '(a, w') := m w in f a w'.

Definition emit (e : Event) : M unit :=
  λ w, (tt, {| kv := kv w; botUsername := botUsername w; botId := botId w;
               trace := trace w ++ [e] |}).

Definition getIdentity : M (option jsstring * option Z) :=
  λ w, ((botUsername w, botId w), w).

Definition setIdentity (u : option jsstring) (i : option Z) : M unit :=
  λ w, (tt, {| kv := kv w; botUsername := u; botId := i; trace := trace w |}).

(** *** [ChatStateRepository] *)

Definition repo_get (c : Z) : M (option ChatState) :=
  λ w, (kv w !! c,
        {| kv := kv w; botUsername := botUsername w; botId := botId w;
           trace := trace w ++ [RepoGet c] |}).

Definition repo_save (st : ChatState) : M unit :=
  λ w, (tt,
        {| kv := <[chatId st := st]> (kv w); botUsername := botUsername w;
           botId := botId w; trace := trace w ++ [RepoSave st] |}).

Definition repo_delete (c : Z) : M unit :=
  λ w, (tt,
        {| kv := delete c (kv w); botUsername := botUsername w;
           botId := botId w; trace := trace w ++ [RepoDelete c] |}).

(** *** [TelegramApi] and [N8nClient] *)

Definition tg_sendMessage (c : Z) (body : jsstring) (reply : option Z) : M unit :=
  emit (SendMessage c body reply).

Definition tg_sendChatAction (c : Z) (action : jsstring) : M unit :=
  emit (SendChatAction c action).

(** [getMe]: [json?.result ?? {}], or [{ id: 0, is_bot: true }] when the
    body does not parse. *)
Definition getMeResult (env : Env) : Me :=
  match env_getMe env with
  | None => {| me_id := Some 0; me_username := None |}
  | Some None => {| me_id := None; me_username := None |}
  | Some (Some me) => me
  end.

Definition tg_getMe (env : Env) : M Me :=
  emit GetMe;; mret (getMeResult env).

(** [getFile]: [{ ok: true, result }] when the answer's [ok] is truthy,
    else [{ ok: false, description }]. *)
Definition getFileResult (env : Env) (file_id : jsstring) : FileCheck :=
  match env_getFile env file_id with
  | Some a =>
    if ans_ok a then
      {| fc_ok := true; fc_result := ans_result a; fc_description := None |}
    else
      {| fc_ok := false; fc_result := None;
         fc_description := ans_description a |}
  | None =>
    {| fc_ok := false; fc_result := None;
       fc_description := Some (utf16 "Failed to parse getFile response") |}
  end.

Definition tg_getFile (env : Env) (file_id : jsstring) : M FileCheck :=
  emit (GetFile file_id);; mret (getFileResult env file_id).

Definition n8n_sendVideo (env : Env) (p : N8nVideoPayload) : M Response :=
  emit (SendVideo p);; mret (env_sendVideo env p).

(** [safeReadText] *)
Definition safeReadText (r : Response) : option jsstring := resp_text r.

(** ** The update processor *)

Definition truthy_onum (o : option Z) : bool :=
  match o with Some n => truthy_num n | None => false end.

(** [s || undefined] on an optional string, [n || undefined] on a number. *)
Definition keepTruthy_str (o : option jsstring) : option jsstring :=
  if truthy_ostr o then o else None.
Definition keepTruthy_num (o : option Z) : option Z :=
  if truthy_onum o then o else None.

(** [a || b] on optional strings. *)
Definition js_or (a b : option jsstring) : option jsstring :=
  if truthy_ostr a then a else b.

Definition ensureBotIdentity (env : Env) : M unit :=
  '(u, i) ← getIdentity;
  if truthy_ostr u && truthy_onum i then mret tt
  else
    me ← tg_getMe env;
    setIdentity (keepTruthy_str (me_username me)) (keepTruthy_num (me_id me)).

(** The test on one entity in the loop of [isMentioned]. *)
Definition entityMentions (txt : jsstring) (botUsername : option jsstring)
    (botId : option Z) (e : TgMessageEntity) : bool :=
  (str_eqb (ent_type e) (utf16 "text_mention")
   && match ent_user e, botId with
      | Some u, Some b => truthy_num (user_id u) && truthy_num b && (user_id u =? b)
      | _, _ => false
      end)
  || (str_eqb (ent_type e) (utf16 "mention")
      && truthy_ostr botUsername && truthy_str txt
      && str_eqb
           (toLowerCase (substring txt (ent_offset e) (ent_offset e + ent_length e)))
           (toLowerCase (utf16 "@" ++ or_empty botUsername))).

Definition isMentioned (msg : TgMessage) (botUsername : option jsstring)
    (botId : option Z) : bool :=
  if negb (truthy_ostr botUsername) && negb (truthy_onum botId) then false
  else
    let ents := default [] (entities msg) ++ default [] (caption_entities msg) in
    let txt := or_empty (js_or (js_or (text msg) (caption msg)) (Some [])) in
    if existsb (entityMentions txt botUsername botId) ents then true
    else if truthy_ostr botUsername && truthy_str txt then
      includes (toLowerCase (utf16 "@" ++ or_empty botUsername)) (toLowerCase txt)
    else false.

Definition msgWelcome : jsstring :=
  join [10]
    [ utf16 "سلام! 👋";
      utf16 "این ربات اطلاعات ویدیو را جمع‌آوری می‌کند و برای n8n می‌فرستد تا در یوتیوب آپلود شود.";
      utf16 "لطفاً ویدیوی خود را ارسال کنید تا شروع کنیم.";
      utf16 "برای لغو در هر مرحله: /cancel" ].

Definition msgConfirm (state : ChatState) : jsstring :=
  let tagsStr :=
    join (utf16 " ") (map (λ t, utf16 "#" ++ t) (default [] (st_tags state))) in
  let orDash (s : jsstring) := if truthy_str s then s else utf16 "-" in
  join [10]
    [ utf16 "لطفاً اطلاعات زیر را بررسی کنید:";
      utf16 "عنوان: " ++ orDash (or_empty (st_title state));
      utf16 "توضیحات: " ++ orDash (or_empty (st_description state));
      utf16 "تگ‌ها: " ++ orDash tagsStr;
      utf16 "اگر مورد تایید است، confirm یا /confirm را ارسال کنید. برای لغو: cancel یا /cancel" ].

Definition msgNeedReply : jsstring :=
  utf16 "برای این پیام که لینک منبع دارد، حتما باید روی پیام ویدیوی تلگرام REPLY بزنید تا همان ویدیو انتخاب شود.".
Definition msgNeedVideo : jsstring :=
  utf16 "برای ارسال به n8n لازم است ویدیوی تلگرام را ضمیمه کنید یا پیام شما ریپلایِ مستقیم به پیامِ ویدیوی تلگرام باشد.".
Definition msgFileError (fc : FileCheck) : jsstring :=
  utf16 "خطا در دریافت فایل از تلگرام: "
  ++ (if truthy_ostr (fc_description fc) then or_empty (fc_description fc)
      else utf16 "file_id نامعتبر یا فایل موقتاً در دسترس نیست")
  ++ utf16 "." ++ [10]
  ++ utf16 "لطفاً ویدیو را مستقیماً در همین گروه ارسال کنید و سپس روی همان پیام REPLY کرده و قالب را بفرستید.".
Definition msgInternalError : jsstring :=
  utf16 "خطای داخلی: file_id ویدیو خالی است. لطفاً دوباره تلاش کنید.".
Definition msgGroupOk : jsstring :=
  utf16 "درخواست شما ثبت شد و به n8n ارسال گردید. ✅".
(** The error relayed after a failed dispatch: the status and the first
    400 units of the body. *)
Definition msgN8nError (r : Response) : jsstring :=
  utf16 "ارسال به n8n با خطا مواجه شد (HTTP " ++ numberToString (resp_status r)
  ++ utf16 ")." ++ [10]
  ++ or_empty (option_map (slice0 400) (safeReadText r)).
Definition msgUnreadable : jsstring :=
  utf16 "پیام شما قابل‌خواندن نبود. لطفاً قالب را به صورت متن در یک پیام ارسال کنید."
  ++ [10; 10] ++ guidanceTemplate.
Definition msgCancelled : jsstring :=
  utf16 "روند فعلی لغو شد. برای شروع دوباره، /start را بزنید.".
Definition msgAskTitle : jsstring := utf16 "عنوان ویدیو را ارسال کنید:".
Definition msgStartFirst : jsstring :=
  utf16 "برای شروع فرآیند آپلود، ابتدا /start را ارسال کنید و سپس ویدیو را بفرستید.".
Definition msgOnlyVideo : jsstring :=
  utf16 "لطفاً ابتدا ویدیو را ارسال کنید (نه فایل اسناد)." ++ [10]
  ++ utf16 "می‌توانید ویدیو را مستقیماً در چت بفرستید.".
Definition msgAskDescription : jsstring := utf16 "توضیحات ویدیو را ارسال کنید:".
Definition msgBadTitle : jsstring := utf16 "عنوان نامعتبر است. لطفاً یک متن ارسال کنید.".
Definition msgAskTags : jsstring :=
  utf16 "تگ‌ها را با ویرگول جدا کنید." ++ [10]
  ++ utf16 "مثال: آموزش, برنامه نویسی, جاوااسکریپت".
Definition msgBadDescription : jsstring :=
  utf16 "توضیحات نامعتبر است. لطفاً یک متن ارسال کنید.".
Definition msgNoTags : jsstring := utf16 "حداقل یک تگ وارد کنید (با ویرگول جدا کنید).".
Definition msgBadTags : jsstring :=
  utf16 "ورودی نامعتبر. لطفاً تگ‌ها را با ویرگول جدا کنید.".
Definition msgIncomplete : jsstring :=
  utf16 "اطلاعات ناقص است. لطفاً از ابتدا /start را ارسال کنید.".
Definition msgWizardOk : jsstring :=
  utf16 "درخواست با موفقیت برای n8n ارسال شد. منتظر آپلود یوتیوب بمانید." ++ [10]
  ++ utf16 "برای شروع دوباره، /start را بزنید.".
Definition msgConfirmCancelled : jsstring :=
  utf16 "لغو شد. برای شروع دوباره، /start را بزنید.".
Definition msgConfirmReminder : jsstring :=
  utf16 "برای تایید، کلمه confirm یا /confirm را ارسال کنید. برای لغو، cancel یا /cancel.".
Definition msgUnknownState : jsstring :=
  utf16 "حالت ناشناخته. لطفاً /start را ارسال کنید.".

(** [obj?.video?.file_id || (obj?.document?.mime_type?.startsWith("video/")
    ? obj?.document?.file_id : undefined)] *)
Definition videoIdOf (v : option TgVideo) (d : option TgDocument)
    : option jsstring :=
  js_or (option_map video_file_id v)
    (match d with
     | Some doc =>
       match doc_mime_type doc with
       | Some m => if startsWith (utf16 "video/") m then Some (doc_file_id doc)
                   else None
       | None => None
       end
     | None => None
     end).

Definition repliedVideoId (msg : TgMessage) : option jsstring :=
  match reply_to_message msg with
  | Some r => videoIdOf (video r) (document r)
  | None => None
  end.

Definition currentVideoId (msg : TgMessage) : option jsstring :=
  videoIdOf (video msg) (document msg).

(** [parsed.source_link ? repliedVideoId : (repliedVideoId || currentVideoId)] *)
Definition videoFileId (parsed : ParsedTemplate) (msg : TgMessage)
    : option jsstring :=
  if truthy_ostr (source_link parsed) then repliedVideoId msg
  else js_or (repliedVideoId msg) (currentVideoId msg).

Definition payloadFrom (msg : TgMessage) : option PayloadFrom :=
  option_map
    (λ u, {| pf_id := user_id u; pf_username := username u;
             pf_first_name := first_name u; pf_last_name := last_name u;
             pf_language_code := language_code u |})
    (msg_from msg).

(** [parsed && parsed.title && parsed.description && parsed.tags &&
    parsed.tags.length > 0] *)
Definition templateComplete (parsed : option ParsedTemplate) : bool :=
  match parsed with
  | Some p =>
    truthy_ostr (title p) && truthy_ostr (description p)
    && match tags p with Some t => (0 <? length t)%nat | None => false end
  | None => false
  end.

Definition groupPayload (msg : TgMessage) (parsed : ParsedTemplate)
    (vid : jsstring) (fc : FileCheck) : N8nVideoPayload :=
  {| p_chat_id := chat_id (chat msg);
     p_from := payloadFrom msg;
     p_message_id := message_id msg;
     p_date := date msg;
     p_video := {| pv_file_id := vid;
                   pv_file_path := fc_result fc ≫= file_path;
                   pv_file_size := fc_result fc ≫= file_size |};
     p_title := or_empty (title parsed);
     p_description := or_empty (description parsed);
     p_tags := default [] (tags parsed);
     p_source_link := source_link parsed;
     p_channel := channel parsed |}.

Definition wizardPayload (msg : TgMessage) (state : ChatState) : N8nVideoPayload :=
  {| p_chat_id := chat_id (chat msg);
     p_from := payloadFrom msg;
     p_message_id := message_id msg;
     p_date := date msg;
     p_video := {| pv_file_id := or_empty (st_video_file_id state);
                   pv_file_path := None; pv_file_size := None |};
     p_title := or_empty (st_title state);
     p_description := or_empty (st_description state);
     p_tags := default [] (st_tags state);
     p_source_link := None;
     p_channel := None |}.

(** The branch of [handleUpdate] for a mentioned message with a complete
    template (the body of the [if] on the parse result). *)
Definition dispatchTemplate (env : Env) (msg : TgMessage)
    (parsed : ParsedTemplate) : M unit :=
  let c := chat_id (chat msg) in
  let reply := Some (message_id msg) in
  tg_sendChatAction c (utf16 "typing");;
  let vid := videoFileId parsed msg in
  if negb (truthy_ostr vid) then
    tg_sendMessage c
      (if truthy_ostr (source_link parsed) then msgNeedReply else msgNeedVideo)
      reply
  else
    fileCheck ← tg_getFile env (or_empty vid);
    if negb (fc_ok fileCheck) then
      tg_sendMessage c (msgFileError fileCheck) reply
    else if negb (truthy_ostr vid) || (length (trim (or_empty vid)) =? 0)%nat then
      tg_sendMessage c msgInternalError reply
    else
      resp ← n8n_sendVideo env (groupPayload msg parsed (or_empty vid) fileCheck);
      if resp_ok resp then tg_sendMessage c msgGroupOk reply
      else tg_sendMessage c (msgN8nError resp) reply.

(** The group branch of [handleUpdate] once the identity is resolved:
    [u] and [i] are [this.botUsername] and [this.botId]. *)
Definition handleMention (env : Env) (msg : TgMessage) (content : jsstring)
    (u : option jsstring) (i : option Z) : M unit :=
  let c := chat_id (chat msg) in
  if negb (isMentioned msg u i) then mret tt
  else if truthy_str content then
    let parsed := parseGroupTemplate (env_isUrl env) content u in
    match parsed with
    | Some p =>
      if templateComplete parsed then dispatchTemplate env msg p
      else tg_sendMessage c guidanceTemplate (Some (message_id msg))
    | None => tg_sendMessage c guidanceTemplate (Some (message_id msg))
    end
  else tg_sendMessage c msgUnreadable (Some (message_id msg)).

(** The group branch of [handleUpdate]. *)
Definition handleGroup (env : Env) (msg : TgMessage) (content : jsstring)
    : M unit :=
  ensureBotIdentity env;;
  '(u, i) ← getIdentity;
  handleMention env msg content u i.

Definition isCancel (txt : jsstring) : bool :=
  str_eqb txt (utf16 "/cancel") || str_eqb (toLowerCase txt) (utf16 "cancel")
  || str_eqb txt (utf16 "لغو").

Definition isConfirm (txt : jsstring) : bool :=
  str_eqb txt (utf16 "/confirm") || str_eqb (toLowerCase txt) (utf16 "confirm")
  || str_eqb txt (utf16 "تایید").

Definition setStep (state : ChatState) (s : WizardStep) (now : Z) : ChatState :=
  {| chatId := chatId state; step := s;
     st_video_file_id := st_video_file_id state; st_title := st_title state;
     st_description := st_description state; st_tags := st_tags state;
     updatedAt := now |}.

Definition withVideo (state : ChatState) (v : jsstring) : ChatState :=
  {| chatId := chatId state; step := step state; st_video_file_id := Some v;
     st_title := st_title state; st_description := st_description state;
     st_tags := st_tags state; updatedAt := updatedAt state |}.

Definition withTitle (state : ChatState) (t : jsstring) : ChatState :=
  {| chatId := chatId state; step := step state;
     st_video_file_id := st_video_file_id state; st_title := Some t;
     st_description := st_description state; st_tags := st_tags state;
     updatedAt := updatedAt state |}.

Definition withDescription (state : ChatState) (d : jsstring) : ChatState :=
  {| chatId := chatId state; step := step state;
     st_video_file_id := st_video_file_id state; st_title := st_title state;
     st_description := Some d; st_tags := st_tags state;
     updatedAt := updatedAt state |}.

Definition withTags (state : ChatState) (t : list jsstring) : ChatState :=
  {| chatId := chatId state; step := step state;
     st_video_file_id := st_video_file_id state; st_title := st_title state;
     st_description := st_description state; st_tags := Some t;
     updatedAt := updatedAt state |}.

(** The [switch (state.step)] of [handleUpdate]. *)
Definition handleStep (env : Env) (msg : TgMessage) (txt : jsstring)
    (state : ChatState) : M unit :=
  let c := chat_id (chat msg) in
  match step state with
  | awaiting_video =>
    match video msg with
    | Some v =>
      if truthy_str (video_file_id v) then
        repo_save (setStep (withVideo state (video_file_id v)) awaiting_title
                     (env_now env));;
        tg_sendMessage c msgAskTitle None
      else tg_sendMessage c msgOnlyVideo None
    | None => tg_sendMessage c msgOnlyVideo None
    end
  | awaiting_title =>
    if truthy_str txt then
      repo_save (setStep (withTitle state (limit txt 100)) awaiting_description
                   (env_now env));;
      tg_sendMessage c msgAskDescription None
    else tg_sendMessage c msgBadTitle None
  | awaiting_description =>
    if truthy_str txt then
      repo_save (setStep (withDescription state (limit txt 5000)) awaiting_tags
                   (env_now env));;
      tg_sendMessage c msgAskTags None
    else tg_sendMessage c msgBadDescription None
  | awaiting_tags =>
    if truthy_str txt then
      let parsedTags := parseTags txt in
      if (length parsedTags =? 0)%nat then tg_sendMessage c msgNoTags None
      else
        let state' := setStep (withTags state parsedTags) awaiting_confirm
                        (env_now env) in
        repo_save state';;
        tg_sendMessage c (msgConfirm state') None
    else tg_sendMessage c msgBadTags None
  | awaiting_confirm =>
    if isConfirm txt then
      if negb (truthy_ostr (st_video_file_id state))
         || negb (truthy_ostr (st_title state))
         || negb (truthy_ostr (st_description state))
         || negb (bool_decide (is_Some (st_tags state)))
      then
        tg_sendMessage c msgIncomplete None;;
        repo_delete c
      else
        tg_sendChatAction c (utf16 "typing");;
        resp ← n8n_sendVideo env (wizardPayload msg state);
        if resp_ok resp then
          tg_sendMessage c msgWizardOk None;;
          repo_delete c
        else tg_sendMessage c (msgN8nError resp) None
    else if isCancel txt then
      repo_delete c;;
      tg_sendMessage c msgConfirmCancelled None
    else tg_sendMessage c msgConfirmReminder None
  | other_step _ =>
    repo_delete c;;
    tg_sendMessage c msgUnknownState None
  end.

Definition freshState (c : Z) (s : WizardStep) (v : option jsstring) (now : Z)
    : ChatState :=
  {| chatId := c; step := s; st_video_file_id := v; st_title := None;
     st_description := None; st_tags := None; updatedAt := now |}.

(** The private branch of [handleUpdate]: the commands, the implicit
    start, then the step. *)
Definition handlePrivate (env : Env) (msg : TgMessage) (txt : jsstring)
    : M unit :=
  let c := chat_id (chat msg) in
  if str_eqb txt (utf16 "/start") then
    repo_delete c;;
    repo_save (freshState c awaiting_video None (env_now env));;
    tg_sendMessage c msgWelcome None
  else if isCancel txt then
    repo_delete c;;
    tg_sendMessage c msgCancelled None
  else
    state ← repo_get c;
    match state, video msg with
    | None, Some v =>
      repo_save (freshState c awaiting_title (Some (video_file_id v))
                   (env_now env));;
      tg_sendMessage c msgAskTitle None
    | None, None => tg_sendMessage c msgStartFirst None
    | Some st, _ => handleStep env msg txt st
    end.

(** The bindings at the head of [handleUpdate]: [text], [caption],
    [content] and the test on [chatType]. *)
Definition msgText (msg : TgMessage) : jsstring := trim (or_empty (text msg)).
Definition msgCaption (msg : TgMessage) : jsstring := trim (or_empty (caption msg)).
Definition msgContent (msg : TgMessage) : jsstring :=
  if truthy_str (msgText msg) then msgText msg else msgCaption msg.
Definition isGroupChat (msg : TgMessage) : bool :=
  str_eqb (chat_type (chat msg)) (utf16 "group")
  || str_eqb (chat_type (chat msg)) (utf16 "supergroup").

Definition handleUpdate (env : Env) (update : TgUpdate) : M unit :=
  match message update with
  | None => mret tt
  | Some msg =>
    if isGroupChat msg then handleGroup env msg (msgContent msg)
    else handlePrivate env msg (msgText msg)
  end.

(** The calls one [handleUpdate] adds to the trace. *)
Definition newEvents (env : Env) (update : TgUpdate) (w : World) : list Event :=
  drop (length (trace w)) (trace (handleUpdate env update w).2).

(** ** Vocabulary of the properties *)

(** The number of leading units of [s] that satisfy [p]. *)
Fixpoint run (p : Z → bool) (s : jsstring) : nat :=
  match s with
  | c :: r => if p c then S (run p r) else O
  | [] => O
  end.

(** Trimming and dropping the empty pieces, as both tag parsers do. *)
Definition clean (l : list jsstring) : list jsstring :=
  List.filter nonEmpty (map trim l).

(** No localized comma, no line feed, no letter waw and no
    [and] in any letter case. *)
Definition commaOnly (s : jsstring) : Prop :=
  (1548 ∉ s) ∧ (10 ∉ s) ∧ (1608 ∉ s)
  ∧ includes (utf16 "and") (toLowerCase s) = false.

(** The number a string of decimal digits denotes. *)
Definition decimalValue (s : jsstring) : Z :=
  fold_left (λ a d, 10 * a + (d - 48)) s 0.

(** The world after [ensureBotIdentity], and the call it makes. *)
Definition resolved (env : Env) (w : World) : World := (ensureBotIdentity env w).2.

Definition identityEvents (w : World) : list Event :=
  if truthy_ostr (botUsername w) && truthy_onum (botId w) then [] else [GetMe].

(** A world extended by some calls, the repository untouched. *)
Definition extend (w : World) (evs : list Event) : World :=
  {| kv := kv w; botUsername := botUsername w; botId := botId w;
     trace := trace w ++ evs |}.

(** The position of a step in the wizard's sequence. *)
Definition stepIndex (s : WizardStep) : option nat :=
  match s with
  | awaiting_video => Some 0%nat
  | awaiting_title => Some 1%nat
  | awaiting_description => Some 2%nat
  | awaiting_tags => Some 3%nat
  | awaiting_confirm => Some 4%nat
  | other_step _ => None
  end.

(** All four fields are there for a confirm: the negation of the test
    [!state.video_file_id || !state.title || !state.description ||
    !state.tags]. *)
Definition confirmReady (st : ChatState) : bool :=
  truthy_ostr (st_video_file_id st) && truthy_ostr (st_title st)
  && truthy_ostr (st_description st) && bool_decide (is_Some (st_tags st)).

(** The video reference a message carries, in the specification's words:
    the id of its video, or else the id of its document when the
    document's media type starts with [video/]. An empty id is no
    reference. *)
Inductive carries (m : TgMessage) (x : jsstring) : Prop :=
| carries_video v :
    video m = Some v → video_file_id v = x → x ≠ [] → carries m x
| carries_document d mime :
    (∀ v, video m = Some v → video_file_id v = []) →
    document m = Some d →
    doc_mime_type d = Some mime →
    startsWith (utf16 "video/") mime = true →
    doc_file_id d = x → x ≠ [] → carries m x.

(** The message replied to, if any, carries no video reference. *)
Definition replyCarriesNothing (msg : TgMessage) : Prop :=
  ∀ r x, reply_to_message msg = Some r → ¬ carries r x.

(** The message is none of the commands handled before the state is
    loaded. *)
Definition notCommand (txt : jsstring) : Prop :=
  str_eqb txt (utf16 "/start") = false ∧ isCancel txt = false.

(** The runs of the private branch, one constructor per path: the
    repository afterwards and the calls made, for a message [msg] arriving
    in the world [w]. *)
Inductive wizard_run (env : Env) (msg : TgMessage) (w : World)
    : gmap Z ChatState → list Event → Prop :=
| run_start :
    msgText msg = utf16 "/start" →
    let c := chat_id (chat msg) in
    let st' := freshState c awaiting_video None (env_now env) in
    wizard_run env msg w (<[chatId st' := st']> (delete c (kv w)))
      [RepoDelete c; RepoSave st'; SendMessage c msgWelcome None]
| run_cancel :
    str_eqb (msgText msg) (utf16 "/start") = false →
    isCancel (msgText msg) = true →
    let c := chat_id (chat msg) in
    wizard_run env msg w (delete c (kv w))
      [RepoDelete c; SendMessage c msgCancelled None]
| run_implicit v :
    notCommand (msgText msg) →
    kv w !! chat_id (chat msg) = None →
    video msg = Some v →
    let c := chat_id (chat msg) in
    let st' := freshState c awaiting_title (Some (video_file_id v)) (env_now env) in
    wizard_run env msg w (<[chatId st' := st']> (kv w))
      [RepoGet c; RepoSave st'; SendMessage c msgAskTitle None]
| run_no_state :
    notCommand (msgText msg) →
    kv w !! chat_id (chat msg) = None →
    video msg = None →
    let c := chat_id (chat msg) in
    wizard_run env msg w (kv w) [RepoGet c; SendMessage c msgStartFirst None]
| run_video st v :
    notCommand (msgText msg) →
    kv w !! chat_id (chat msg) = Some st →
    step st = awaiting_video →
    video msg = Some v →
    truthy_str (video_file_id v) = true →
    let c := chat_id (chat msg) in
    let st' := setStep (withVideo st (video_file_id v)) awaiting_title
                 (env_now env) in
    wizard_run env msg w (<[chatId st' := st']> (kv w))
      [RepoGet c; RepoSave st'; SendMessage c msgAskTitle None]
| run_video_rejected st :
    notCommand (msgText msg) →
    kv w !! chat_id (chat msg) = Some st →
    step st = awaiting_video →
    truthy_ostr (option_map video_file_id (video msg)) = false →
    let c := chat_id (chat msg) in
    wizard_run env msg w (kv w) [RepoGet c; SendMessage c msgOnlyVideo None]
| run_title st :
    notCommand (msgText msg) →
    kv w !! chat_id (chat msg) = Some st →
    step st = awaiting_title →
    truthy_str (msgText msg) = true →
    let c := chat_id (chat msg) in
    let st' := setStep (withTitle st (limit (msgText msg) 100))
                 awaiting_description (env_now env) in
    wizard_run env msg w (<[chatId st' := st']> (kv w))
      [RepoGet c; RepoSave st'; SendMessage c msgAskDescription None]
| run_title_rejected st :
    notCommand (msgText msg) →
    kv w !! chat_id (chat msg) = Some st →
    step st = awaiting_title →
    msgText msg = [] →
    let c := chat_id (chat msg) in
    wizard_run env msg w (kv w) [RepoGet c; SendMessage c msgBadTitle None]
| run_description st :
    notCommand (msgText msg) →
    kv w !! chat_id (chat msg) = Some st →
    step st = awaiting_description →
    truthy_str (msgText msg) = true →
    let c := chat_id (chat msg) in
    let st' := setStep (withDescription st (limit (msgText msg) 5000))
                 awaiting_tags (env_now env) in
    wizard_run env msg w (<[chatId st' := st']> (kv w))
      [RepoGet c; RepoSave st'; SendMessage c msgAskTags None]
| run_description_rejected st :
    notCommand (msgText msg) →
    kv w !! chat_id (chat msg) = Some st →
    step st = awaiting_description →
    msgText msg = [] →
    let c := chat_id (chat msg) in
    wizard_run env msg w (kv w)
      [RepoGet c; SendMessage c msgBadDescription None]
| run_tags st :
    notCommand (msgText msg) →
    kv w !! chat_id (chat msg) = Some st →
    step st = awaiting_tags →
    truthy_str (msgText msg) = true →
    parseTags (msgText msg) ≠ [] →
    let c := chat_id (chat msg) in
    let st' := setStep (withTags st (parseTags (msgText msg))) awaiting_confirm
                 (env_now env) in
    wizard_run env msg w (<[chatId st' := st']> (kv w))
      [RepoGet c; RepoSave st'; SendMessage c (msgConfirm st') None]
| run_tags_none st :
    notCommand (msgText msg) →
    kv w !! chat_id (chat msg) = Some st →
    step st = awaiting_tags →
    truthy_str (msgText msg) = true →
    parseTags (msgText msg) = [] →
    let c := chat_id (chat msg) in
    wizard_run env msg w (kv w) [RepoGet c; SendMessage c msgNoTags None]
| run_tags_rejected st :
    notCommand (msgText msg) →
    kv w !! chat_id (chat msg) = Some st →
    step st = awaiting_tags →
    msgText msg = [] →
    let c := chat_id (chat msg) in
    wizard_run env msg w (kv w) [RepoGet c; SendMessage c msgBadTags None]
| run_confirm_incomplete st :
    notCommand (msgText msg) →
    kv w !! chat_id (chat msg) = Some st →
    step st = awaiting_confirm →
    isConfirm (msgText msg) = true →
    confirmReady st = false →
    let c := chat_id (chat msg) in
    wizard_run env msg w (delete c (kv w))
      [RepoGet c; SendMessage c msgIncomplete None; RepoDelete c]
| run_confirm_ok st :
    notCommand (msgText msg) →
    kv w !! chat_id (chat msg) = Some st →
    step st = awaiting_confirm →
    isConfirm (msgText msg) = true →
    confirmReady st = true →
    resp_ok (env_sendVideo env (wizardPayload msg st)) = true →
    let c := chat_id (chat msg) in
    wizard_run env msg w (delete c (kv w))
      [RepoGet c; SendChatAction c (utf16 "typing");
       SendVideo (wizardPayload msg st); SendMessage c msgWizardOk None;
       RepoDelete c]
| run_confirm_failed st :
    notCommand (msgText msg) →
    kv w !! chat_id (chat msg) = Some st →
    step st = awaiting_confirm →
    isConfirm (msgText msg) = true →
    confirmReady st = true →
    resp_ok (env_sendVideo env (wizardPayload msg st)) = false →
    let c := chat_id (chat msg) in
    wizard_run env msg w (kv w)
      [RepoGet c; SendChatAction c (utf16 "typing");
       SendVideo (wizardPayload msg st);
       SendMessage c (msgN8nError (env_sendVideo env (wizardPayload msg st))) None]
| run_confirm_reminder st :
    notCommand (msgText msg) →
    kv w !! chat_id (chat msg) = Some st →
    step st = awaiting_confirm →
    isConfirm (msgText msg) = false →
    let c := chat_id (chat msg) in
    wizard_run env msg w (kv w)
      [RepoGet c; SendMessage c msgConfirmReminder None]
| run_unknown_step st raw :
    notCommand (msgText msg) →
    kv w !! chat_id (chat msg) = Some st →
    step st = other_step raw →
    let c := chat_id (chat msg) in
    wizard_run env msg w (delete c (kv w))
      [RepoGet c; RepoDelete c; SendMessage c msgUnknownState None].

(** What rejection means at each step: no usable video, no text, no tag,
    or a word that is neither a confirm nor a cancel keyword. *)
Definition failsValidation (st : ChatState) (msg : TgMessage) : Prop :=
  match step st with
  | awaiting_video => truthy_ostr (option_map video_file_id (video msg)) = false
  | awaiting_title | awaiting_description => msgText msg = []
  | awaiting_tags => msgText msg = [] ∨ parseTags (msgText msg) = []
  | awaiting_confirm =>
    isConfirm (msgText msg) = false ∧ isCancel (msgText msg) = false
  | other_step _ => False
  end.

(** Calls on the state repository. *)
Definition isRepoCall (e : Event) : bool :=
  match e with
  | RepoGet _ | RepoSave _ | RepoDelete _ => true
  | _ => false
  end.

(** The same message with another caption. *)
Definition setCaption (cap : option jsstring) (msg : TgMessage) : TgMessage :=
  {| message_id := message_id msg; msg_from := msg_from msg; chat := chat msg;
     date := date msg; text := text msg; video := video msg;
     document := document msg; entities := entities msg; caption := cap;
     caption_entities := caption_entities msg;
     reply_to_message := reply_to_message msg |}.

(** *** Sample data for the examples *)

Module Sample.

Definition msg (c : Z) (kind : string) (mid : Z) (t : option jsstring)
    : TgMessage :=
  {| message_id := mid; msg_from := None;
     chat := {| chat_id := c; chat_type := utf16 kind |};
     date := 1700000000; text := t; video := None; document := None;
     entities := None; caption := None; caption_entities := None;
     reply_to_message := None |}.

Definition withEntities (es : list TgMessageEntity) (m : TgMessage) : TgMessage :=
  {| message_id := message_id m; msg_from := msg_from m; chat := chat m;
     date := date m; text := text m; video := video m; document := document m;
     entities := Some es; caption := caption m;
     caption_entities := caption_entities m;
     reply_to_message := reply_to_message m |}.

Definition videoOf (fid : jsstring) : TgVideo :=
  {| video_file_id := fid; video_file_unique_id := None; video_duration := None;
     video_mime_type := None; video_file_size := None |}.

Definition withVideoAttached (fid : jsstring) (m : TgMessage) : TgMessage :=
  {| message_id := message_id m; msg_from := msg_from m; chat := chat m;
     date := date m; text := text m; video := Some (videoOf fid);
     document := document m; entities := entities m; caption := caption m;
     caption_entities := caption_entities m;
     reply_to_message := reply_to_message m |}.

Definition replyingTo (r : TgMessage) (m : TgMessage) : TgMessage :=
  {| message_id := message_id m; msg_from := msg_from m; chat := chat m;
     date := date m; text := text m; video := video m; document := document m;
     entities := entities m; caption := caption m;
     caption_entities := caption_entities m; reply_to_message := Some r |}.

Definition update (m : TgMessage) : TgUpdate :=
  {| update_id := 1; message := Some m |}.

(** A platform that knows the bot as [MyBot] (id 42), accepts every file
    id, and a workflow endpoint that answers with [status]. *)
Definition env (status : Z) : Env :=
  {| env_getMe := Some (Some {| me_id := Some 42; me_username := Some (utf16 "MyBot") |});
     env_getFile := λ _, Some {| ans_ok := true;
                                 ans_result := Some {| file_path := Some (utf16 "videos/file_1.mp4");
                                                       file_size := Some 1024 |};
                                 ans_description := None |};
     env_sendVideo := λ _, {| resp_status := status;
                              resp_text := Some (utf16 "workflow says no") |};
     env_now := 1700000100;
     env_isUrl := startsWith (utf16 "https://") |}.

Definition world (states : list ChatState) : World :=
  {| kv := list_to_map (map (λ st, (chatId st, st)) states);
     botUsername := None; botId := None; trace := [] |}.

Definition state (c : Z) (s : WizardStep) : ChatState :=
  {| chatId := c; step := s; st_video_file_id := Some (utf16 "VID-1");
     st_title := Some (utf16 "title"); st_description := Some (utf16 "about");
     st_tags := Some [utf16 "a"; utf16 "b"]; updatedAt := 1699999999 |}.

(** A complete template, with and without a source link. *)
Definition template (withLink : bool) : jsstring :=
  join [10]
    ([utf16 "@MyBot"]
     ++ (if withLink then [utf16 "آپلود"; utf16 "https://t.me/c/1"] else [])
     ++ [utf16 "عنوان:"; utf16 "عنوان ویدیو"; utf16 "توضیح:"; utf16 "خط یک";
         utf16 "خط دو"; utf16 "تگ ها:"; utf16 "تگ۱ و تگ۲ و تگ۳"]).

(** A group message that mentions another account, [@MyBotFan], with
    the platform's mention entity covering that handle. *)
Definition fan : TgMessage :=
  withEntities
    [ {| ent_offset := 0; ent_length := 9; ent_type := utf16 "mention";
         ent_user := None |} ]
    (msg (-100) "supergroup" 7 (Some (utf16 "@MyBotFan سلام"))).

(** A template with a source link, sent with a video attached, in reply
    to a message that carries another video. *)
Definition linkedReply : TgMessage :=
  replyingTo (withVideoAttached (utf16 "REPLIED") (msg (-100) "group" 6 None))
    (withVideoAttached (utf16 "CURRENT")
       (msg (-100) "group" 7 (Some (template true)))).

(** The same without the reply. *)
Definition linkedNoReply : TgMessage :=
  withVideoAttached (utf16 "CURRENT")
    (msg (-100) "group" 7 (Some (template true))).

(** A template without a source link, the attached video's id one space. *)
Definition blankVideo : TgMessage :=
  withVideoAttached (utf16 " ") (msg (-100) "group" 7 (Some (template false))).

(** A template with a title and nothing else. *)
Definition titleOnly : TgMessage :=
  msg (-100) "group" 7
    (Some (join [10] [utf16 "@MyBot"; utf16 "عنوان:"; utf16 "عنوان ویدیو"])).

Definition parsedTemplate (withLink : bool) : ParsedTemplate :=
  {| source_link := if withLink then Some (utf16 "https://t.me/c/1") else None;
     channel := None;
     title := Some (utf16 "عنوان ویدیو");
     description := Some (join [10] [utf16 "خط یک"; utf16 "خط دو"]);
     tags := Some [utf16 "تگ۱"; utf16 "تگ۲"; utf16 "تگ۳"] |}.

Definition parsedTitleOnly : ParsedTemplate :=
  {| source_link := None; channel := None;
     title := Some (utf16 "عنوان ویدیو"); description := None; tags := None |}.

(** Private messages of conversation 5. *)
Definition say (words : string) : TgMessage :=
  msg 5 "private" 9 (Some (utf16 words)).

(** No text, the caption holding a command word. *)
Definition captioned (words : string) : TgMessage :=
  setCaption (Some (utf16 words)) (msg 5 "private" 9 None).

End Sample.

(** ** Further vocabulary *)

(** A unit that [splitTags] never leaves inside a tag: the two commas, the
    line feed and the letter waw. *)
Definition isTagBreak (c : Z) : bool := isTagSepChar c || isWaw c.

(** The stages of [parseGroupTemplate]: the text without the mention, its
    non-empty trimmed lines, and the result built from the loop's
    variables. *)
Definition mentionStripped (input : jsstring) (botUsername : option jsstring)
    : jsstring :=
  match botUsername with
  | Some u => if truthy_str u then removeAll_ci (utf16 "@" ++ u) O input else input
  | None => input
  end.

Definition templateLines (input : jsstring) (botUsername : option jsstring)
    : list jsstring :=
  List.filter nonEmpty
    (map trim (split (exec lineBreak) (mentionStripped input botUsername))).

Definition templateOfVars (v : ParserVars) : option ParsedTemplate :=
  let tagList := splitTags (join (utf16 " ") (v_tagsRaw v)) in
  let result :=
    {| source_link := v_source_link v;
       channel := orUndefined (join (utf16 " ") (v_channel v));
       title := option_map (slice0 100) (v_title v);
       description := orUndefined (slice0 5000 (join [10] (v_desc v)));
       tags := if (0 <? length tagList)%nat then Some (slice0 30 tagList)
               else None |} in
  if negb (truthy_ostr (title result)) && negb (truthy_ostr (description result))
     && match tags result with None => true | Some t => (length t =? 0)%nat end
  then None
  else Some result.

(** A string whose first unit is no white space. *)
Definition startsSolid (s : jsstring) : Prop :=
  match s with
  | c :: _ => isWhiteSpace c = false
  | [] => False
  end.

(** The loop keeps what it stores well formed: the source link passed
    [isUrl], and every stored line begins with a unit that is no white
    space. *)
Definition varsOk (isUrl : jsstring → bool) (v : ParserVars) : Prop :=
  (∀ l, v_source_link v = Some l → isUrl l = true)
  ∧ (∀ t, v_title v = Some t → startsSolid t)
  ∧ Forall startsSolid (v_desc v)
  ∧ Forall startsSolid (v_tagsRaw v).

(** White space or one of the two colons that [isHeader] removes. *)
Definition isPad (c : Z) : bool := isWhiteSpace c || (c =? 58) || (c =? 65306).

(** The text messages and the dispatches among some calls. *)
Definition sentMessages (evs : list Event) : list (Z * jsstring * option Z) :=
  omap (λ e, match e with
             | SendMessage c body reply => Some (c, body, reply)
             | _ => None
             end) evs.

Definition sentVideos (evs : list Event) : list N8nVideoPayload :=
  omap (λ e, match e with SendVideo p => Some p | _ => None end) evs.

(** Outside Basic Latin two code units lower-case into it: KELVIN SIGN
    (U+212A, to [k]) and LATIN CAPITAL LETTER I WITH DOT ABOVE (U+0130,
    to [i] and a combining dot). [toLowerCase] of the embedding leaves
    them alone, so only on a text without them is the search for an
    ASCII handle the program's. *)
Definition lowersIntoLatin (c : Z) : bool := (c =? 8490) || (c =? 304).

Definition plainText (s : jsstring) : Prop :=
  forallb (λ c, negb (lowersIntoLatin c)) s = true.

(** The handle, when there is one, is ASCII (as the platform's are). *)
Definition asciiHandle (u : option jsstring) : Prop :=
  forallb (λ c, (0 <=? c) && (c <? 128)) (or_empty u) = true.

(** The message's text and caption are within the domain on which
    [isMentioned] of the embedding is the program's, for the handle [u]. *)
Definition mentionDomain (msg : TgMessage) (u : option jsstring) : Prop :=
  asciiHandle u ∧ plainText (or_empty (text msg))
  ∧ plainText (or_empty (caption msg)).

(** [Number.isSafeInteger]: the integers a double holds exactly and
    [Number::toString] prints in plain decimal. Chat ids are such
    numbers. *)
Definition MAX_SAFE_INTEGER : Z := 9007199254740991.

Definition safeInteger (n : Z) : Prop :=
  - MAX_SAFE_INTEGER ≤ n ≤ MAX_SAFE_INTEGER.

(** Every entry of the repository is stored under its own conversation
    id, as [save] does. *)
Definition storeWf (k : gmap Z ChatState) : Prop :=
  ∀ c st, k !! c = Some st → chatId st = c.

(** The caps the wizard applies to what it stores: a title and a
    description that do not start with white space and are at most 100
    and 5000 units long, and 1 to 30 tags. *)
Definition stateOk (st : ChatState) : Prop :=
  (∀ t, st_title st = Some t → startsSolid t ∧ (length t ≤ 100)%nat)
  ∧ (∀ d, st_description st = Some d → startsSolid d ∧ (length d ≤ 5000)%nat)
  ∧ (∀ ts, st_tags st = Some ts → (0 < length ts ≤ 30)%nat).

Definition storeOk (k : gmap Z ChatState) : Prop :=
  ∀ c st, k !! c = Some st → stateOk st.

(** A private message of conversation [c] that is none of the commands. *)
Definition privateInput (c : Z) (upd : TgUpdate) (msg : TgMessage) : Prop :=
  message upd = Some msg ∧ isGroupChat msg = false ∧ chat_id (chat msg) = c
  ∧ notCommand (msgText msg).

(** The world after an update. *)
Definition after (env : Env) (upd : TgUpdate) (w : World) : World :=
  (handleUpdate env upd w).2.

(** ** The metadata validator (types/youtube.ts) *)

(** [Partial<YouTubeMetadata>]: every field may be missing. *)
Record PartialMetadata := {
  meta_title : option jsstring;
  meta_description : option jsstring;
  meta_tags : option (list jsstring);
}.

Record Validation := {
  val_ok : bool;
  val_errors : list jsstring;
}.

(** [if (cond) errors.push(e)]. *)
Definition pushIf (cond : bool) (e : jsstring) (errors : list jsstring)
    : list jsstring :=
  if cond then errors ++ [e] else errors.

Definition validateYouTubeMetadata (meta : PartialMetadata) : Validation :=
  let errors := [] in
  let errors :=
    pushIf (negb (truthy_ostr (meta_title meta))
            || (length (trim (or_empty (meta_title meta))) =? 0)%nat)
      (utf16 "عنوان الزامی است") errors in
  let errors :=
    pushIf (negb (truthy_ostr (meta_description meta))
            || (length (trim (or_empty (meta_description meta))) =? 0)%nat)
      (utf16 "توضیحات الزامی است") errors in
  let errors :=
    pushIf (match meta_tags meta with
            | None => true
            | Some t => (length t =? 0)%nat
            end)
      (utf16 "حداقل یک تگ لازم است") errors in
  let errors :=
    pushIf (100 <? length (or_empty (meta_title meta)))%nat
      (utf16 "عنوان حداکثر 100 کاراکتر") errors in
  let errors :=
    pushIf (5000 <? length (or_empty (meta_description meta)))%nat
      (utf16 "توضیحات حداکثر 5000 کاراکتر") errors in
  let errors :=
    pushIf (30 <? length (default [] (meta_tags meta)))%nat
      (utf16 "حداکثر 30 تگ مجاز است") errors in
  {| val_ok := (length errors =? 0)%nat; val_errors := errors |}.

(** The metadata a payload carries; its three fields are always set. *)
Definition payloadMeta (p : N8nVideoPayload) : PartialMetadata :=
  {| meta_title := Some (p_title p);
     meta_description := Some (p_description p);
     meta_tags := Some (p_tags p) |}.

(** ** The KV repository (infrastructure/kvChatStateRepository.ts)

    The namespace maps string keys to string values. [JSON.stringify] and
    [JSON.parse] on chat states are taken as given: [parse] is [None] when
    parsing throws. Expiry of entries is not modelled. A chat id is an
    integer; [key] is the program's on the safe integers, where the
    template literal prints plain decimal. *)

Module Kv.

Definition Namespace := gmap jsstring jsstring.

Definition prefix : jsstring := utf16 "chatstate:".

Definition key (chatId : Z) : jsstring := prefix ++ numberToString chatId.

Section Repository.

Variable stringify : ChatState → jsstring.
Variable parse : jsstring → option ChatState.

Definition get (ns : Namespace) (chatId : Z) : option ChatState :=
  match ns !! key chatId with
  | Some json => if truthy_str json then parse json else None
  | None => None
  end.

Definition save (ns : Namespace) (state : ChatState) : Namespace :=
  <[key (chatId state) := stringify state]> ns.

Definition delete (ns : Namespace) (chatId : Z) : Namespace :=
  base.delete (key chatId) ns.

(** The namespace holds the states of the map [k]: [get] answers as the
    map does, for every chat id a number can be. *)
Definition represents (ns : Namespace) (k : gmap Z ChatState) : Prop :=
  ∀ c, safeInteger c → get ns c = k !! c.

End Repository.

End Kv.

(** ** The worker (worker.ts)

    A request as the handler reads it: [body] is [None] when
    [request.json()] rejects. A body that is JSON but no update object is
    outside the model. *)

Module Worker.

Record Request := {
  method : jsstring;
  pathname : jsstring;
  secretHeader : option jsstring;
  body : option TgUpdate;
}.

Record Config := {
  TELEGRAM_SECRET_TOKEN : option jsstring;
  TELEGRAM_BOT_TOKEN : option jsstring;
  N8N_WEBHOOK_URL : option jsstring;
}.

Inductive Content :=
| Health
| Done
| Forbidden
| NotFound
| Failure (error : option jsstring).

Record Reply := { status : Z; content : Content }.

(** [header !== secret] for a header that may be [null]. *)
Definition differs (header : option jsstring) (secret : jsstring) : bool :=
  match header with
  | Some h => negb (str_eqb h secret)
  | None => true
  end.

(** A processor made by [new]: nothing cached. *)
Definition newProcessor (w : World) : World :=
  {| kv := kv w; botUsername := None; botId := None; trace := trace w |}.

Definition fetch (cfg : Config) (env : Env) (request : Request) : M Reply :=
  if str_eqb (method request) (utf16 "GET")
     && str_eqb (pathname request) (utf16 "/health")
  then mret {| status := 200; content := Health |}
  else if str_eqb (method request) (utf16 "POST")
          && str_eqb (pathname request) (utf16 "/webhook")
  then
    let secret := or_empty (TELEGRAM_SECRET_TOKEN cfg) in
    if truthy_str secret && differs (secretHeader request) secret
    then mret {| status := 403; content := Forbidden |}
    else
      match body request with
      | None => mret {| status := 500; content := Failure None |}
      | Some update =>
        if negb (truthy_ostr (TELEGRAM_BOT_TOKEN cfg)) then
          mret {| status := 500;
                  content := Failure (Some (utf16 "TELEGRAM_BOT_TOKEN is required")) |}
        else if negb (truthy_ostr (N8N_WEBHOOK_URL cfg)) then
          mret {| status := 500;
                  content := Failure (Some (utf16 "N8N_WEBHOOK_URL is required")) |}
        else
          λ w, let '(_, w') := handleUpdate env update (newProcessor w) in
               ({| status := 200; content := Done |}, w')
      end
  else mret {| status := 404; content := NotFound |}.

End Worker.

(** *** More sample data *)

Module Sample2.

(** A platform whose [getMe] answer does not parse. *)
Definition muteEnv : Env :=
  {| env_getMe := None;
     env_getFile := env_getFile (Sample.env 200);
     env_sendVideo := env_sendVideo (Sample.env 200);
     env_now := 1700000100;
     env_isUrl := startsWith (utf16 "https://") |}.

(** A complete template sent with a video attached, no reply. *)
Definition withVideo : TgMessage :=
  Sample.withVideoAttached (utf16 "CURRENT")
    (Sample.msg (-100) "group" 7 (Some (Sample.template false))).

(** A platform that rejects every file id. *)
Definition noFileEnv : Env :=
  {| env_getMe := env_getMe (Sample.env 200);
     env_getFile := λ _, Some {| ans_ok := false; ans_result := None;
                                 ans_description := Some (utf16 "Bad Request: invalid file_id") |};
     env_sendVideo := env_sendVideo (Sample.env 200);
     env_now := 1700000100;
     env_isUrl := startsWith (utf16 "https://") |}.

(** A private video message of conversation 5. *)
Definition video (fid : string) : TgMessage :=
  Sample.withVideoAttached (utf16 fid) (Sample.msg 5 "private" 9 None).

(** A webhook request for an update, and a configuration with a secret. *)
Definition webhook (header : option string) (upd : TgUpdate) : Worker.Request :=
  {| Worker.method := utf16 "POST"; Worker.pathname := utf16 "/webhook";
     Worker.secretHeader := option_map utf16 header;
     Worker.body := Some upd |}.

Definition config : Worker.Config :=
  {| Worker.TELEGRAM_SECRET_TOKEN := Some (utf16 "s3cret");
     Worker.TELEGRAM_BOT_TOKEN := Some (utf16 "123:abc");
     Worker.N8N_WEBHOOK_URL := Some (utf16 "https://n8n.example/webhook") |}.

(** *** A JSON rendering of a chat state and a reader for it

    The fields in a fixed order, the missing ones left out; strings with
    the quote, the backslash and the control units escaped. *)

Definition hexDigit (d : Z) : Z := if d <? 10 then 48 + d else 87 + d.

Definition escapeUnit (c : Z) : jsstring :=
  if c =? 34 then [92; 34]
  else if c =? 92 then [92; 92]
  else if c <? 32 then [92; 117; 48; 48; hexDigit (c / 16); hexDigit (c mod 16)]
  else [c].

Definition quoted (s : jsstring) : jsstring :=
  34 :: flat_map escapeUnit s ++ [34].

Definition stepName (s : WizardStep) : jsstring :=
  match s with
  | awaiting_video => utf16 "awaiting_video"
  | awaiting_title => utf16 "awaiting_title"
  | awaiting_description => utf16 "awaiting_description"
  | awaiting_tags => utf16 "awaiting_tags"
  | awaiting_confirm => utf16 "awaiting_confirm"
  | other_step raw => raw
  end.

Definition field (name : string) (value : jsstring) : jsstring :=
  quoted (utf16 name) ++ [58] ++ value.

Definition optionalField (name : string) (value : option jsstring)
    : list jsstring :=
  match value with
  | Some v => [field name v]
  | None => []
  end.

Definition encodeState (st : ChatState) : jsstring :=
  [123]
  ++ join [44]
       ([field "chatId" (numberToString (chatId st));
         field "step" (quoted (stepName (step st)))]
        ++ optionalField "video_file_id" (option_map quoted (st_video_file_id st))
        ++ optionalField "title" (option_map quoted (st_title st))
        ++ optionalField "description" (option_map quoted (st_description st))
        ++ optionalField "tags"
             (option_map (λ ts, [91] ++ join [44] (map quoted ts) ++ [93])
                (st_tags st))
        ++ [field "updatedAt" (numberToString (updatedAt st))])
  ++ [125].

(** The reader: each function returns what it read and the rest. *)

Definition expect (p s : jsstring) : option jsstring :=
  if startsWith p s then Some (drop (length p) s) else None.

Definition isDigit (c : Z) : bool := (48 <=? c) && (c <=? 57).

Definition readNatural (s : jsstring) : option (Z * jsstring) :=
  let n := run isDigit s in
  if (0 <? n)%nat then Some (decimalValue (take n s), drop n s) else None.

Definition readNumber (s : jsstring) : option (Z * jsstring) :=
  match s with
  | 45 :: r => '(n, rest) ← readNatural r; Some (- n, rest)
  | _ => readNatural s
  end.

Definition hexValue (c : Z) : option Z :=
  if isDigit c then Some (c - 48)
  else if (97 <=? c) && (c <=? 102) then Some (c - 87)
  else None.

Fixpoint readUnits (fuel : nat) (s acc : jsstring) : option (jsstring * jsstring) :=
  match fuel with
  | O => None
  | S f =>
    match s with
    | 34 :: r => Some (rev acc, r)
    | 92 :: 34 :: r => readUnits f r (34 :: acc)
    | 92 :: 92 :: r => readUnits f r (92 :: acc)
    | 92 :: 117 :: 48 :: 48 :: a :: b :: r =>
      h ← hexValue a; l ← hexValue b; readUnits f r ((16 * h + l) :: acc)
    | 92 :: _ => None
    | c :: r => readUnits f r (c :: acc)
    | [] => None
    end
  end.

Definition readString (s : jsstring) : option (jsstring * jsstring) :=
  match s with
  | 34 :: r => readUnits (S (length r)) r []
  | _ => None
  end.

Fixpoint readStrings (fuel : nat) (s : jsstring) (acc : list jsstring)
    : option (list jsstring * jsstring) :=
  match fuel with
  | O => None
  | S f =>
    '(x, r) ← readString s;
    match r with
    | 44 :: r' => readStrings f r' (x :: acc)
    | 93 :: r' => Some (rev (x :: acc), r')
    | _ => None
    end
  end.

Definition readArray (s : jsstring) : option (list jsstring * jsstring) :=
  match s with
  | 91 :: 93 :: r => Some ([], r)
  | 91 :: r => readStrings (S (length r)) r []
  | _ => None
  end.

Definition readOptional {A} (name : string)
    (read : jsstring → option (A * jsstring)) (s : jsstring)
    : option (option A * jsstring) :=
  match expect ([44] ++ quoted (utf16 name) ++ [58]) s with
  | Some r => '(x, rest) ← read r; Some (Some x, rest)
  | None => Some (None, s)
  end.

Definition stepOfName (s : jsstring) : WizardStep :=
  if str_eqb s (utf16 "awaiting_video") then awaiting_video
  else if str_eqb s (utf16 "awaiting_title") then awaiting_title
  else if str_eqb s (utf16 "awaiting_description") then awaiting_description
  else if str_eqb s (utf16 "awaiting_tags") then awaiting_tags
  else if str_eqb s (utf16 "awaiting_confirm") then awaiting_confirm
  else other_step s.

Definition decodeState (s : jsstring) : option ChatState :=
  s ← expect ([123] ++ quoted (utf16 "chatId") ++ [58]) s;
  '(c, s) ← readNumber s;
  s ← expect ([44] ++ quoted (utf16 "step") ++ [58]) s;
  '(name, s) ← readString s;
  '(v, s) ← readOptional "video_file_id" readString s;
  '(t, s) ← readOptional "title" readString s;
  '(d, s) ← readOptional "description" readString s;
  '(ts, s) ← readOptional "tags" readArray s;
  s ← expect ([44] ++ quoted (utf16 "updatedAt") ++ [58]) s;
  '(now, s) ← readNumber s;
  match s with
  | [125] =>
    Some {| chatId := c; step := stepOfName name; st_video_file_id := v;
            st_title := t; st_description := d; st_tags := ts;
            updatedAt := now |}
  | _ => None
  end.

(** A state whose texts need escaping, and a namespace that holds the
    state of another conversation. *)
Definition quotedState : ChatState :=
  {| chatId := -1001234567890; step := awaiting_tags;
     st_video_file_id := Some (utf16 "VID-2");
     st_title := Some ([34] ++ utf16 "عنوان" ++ [34; 92]);
     st_description := Some (utf16 "خط یک" ++ [10] ++ utf16 "خط دو");
     st_tags := None; updatedAt := 1700000100 |}.

Definition namespace : Kv.Namespace :=
  Kv.save encodeState ∅ (Sample.state 6 awaiting_confirm).

(** A stored state with a step the wizard does not know. *)
Definition strayState : ChatState := Sample.state 5 (other_step (utf16 "done")).

End Sample2.

(** * Properties *)

(** ** Tag splitting *)

(** The [split] loop on small inputs, as the language defines it. *)
Example split_by_string :
  split (exec_str (utf16 ",")) (utf16 "a,,b,") = [utf16 "a"; utf16 ""; utf16 "b"; utf16 ""]
  ∧ split (exec_str (utf16 ",")) (utf16 "") = [utf16 ""]
  ∧ split (exec_str (utf16 "")) (utf16 "abc") = [utf16 "a"; utf16 "b"; utf16 "c"].
Proof. repeat split; vm_compute; reflexivity. Qed.

Example split_by_regex :
  split (exec (StarCls (Z.eqb 120))) (utf16 "axxbc") = [utf16 "a"; utf16 "b"; utf16 "c"]
  ∧ split (exec lineBreak) (JS.utf16 "one" ++ [13; 10] ++ utf16 "two" ++ [10; 10])
    = [utf16 "one"; utf16 "two"; utf16 ""; utf16 ""]
  ∧ split (exec tagSeparator) (utf16 "a ,b  and c")
    = [utf16 "a "; utf16 "b"; utf16 "c"].
Proof. repeat split; vm_compute; reflexivity. Qed.

Lemma star_Some p s : star p s Some = Some (drop (run p s) s).
Proof.
  induction s as [|c r IH]; simpl; [done|].
  destruct (p c); [|done]. by rewrite IH.
Qed.

Lemma star_None p s k :
  (∀ s', s' `suffix_of` s → k s' = None) → star p s k = None.
Proof.
  induction s as [|c r IH]; intros Hk; simpl.
  - by apply Hk.
  - assert (k (c :: r) = None) as Hhd by (by apply Hk).
    destruct (p c); [|done].
    rewrite IH; [done|]. intros s' Hs'. apply Hk. by apply suffix_cons_r.
Qed.

Lemma commaOnly_tail c s : commaOnly (c :: s) → commaOnly s.
Proof.
  intros (H1 & H2 & H3 & H4). repeat split.
  - intros ?; apply H1; by right.
  - intros ?; apply H2; by right.
  - intros ?; apply H3; by right.
  - simpl in H4. by apply orb_false_iff in H4 as [_ ?].
Qed.

Lemma commaOnly_suffix s' s : s' `suffix_of` s → commaOnly s → commaOnly s'.
Proof.
  intros [pre ->]. induction pre as [|c pre IH]; [done|].
  intros H. apply IH. by apply commaOnly_tail in H.
Qed.

Lemma commaOnly_head c s : commaOnly (c :: s) → isTagSepChar c = (c =? 44).
Proof.
  intros (H1 & H2 & _). unfold isTagSepChar.
  assert (c ≠ 1548) by (intros ->; apply H1; by left).
  assert (c ≠ 10) by (intros ->; apply H2; by left).
  destruct (Z.eqb_spec c 44), (Z.eqb_spec c 1548), (Z.eqb_spec c 10); done || lia.
Qed.

Lemma commaOnly_run s : commaOnly s → run isTagSepChar s = run (Z.eqb 44) s.
Proof.
  induction s as [|c r IH]; [done|]. intros H. cbn [run].
  rewrite (commaOnly_head _ _ H), (Z.eqb_sym 44 c).
  destruct (c =? 44); [|done]. f_equal. apply IH. by apply commaOnly_tail in H.
Qed.

(** Under [commaOnly] the second and third alternatives of the separator
    cannot match anywhere. *)
Lemma commaOnly_no_waw s k :
  commaOnly s → rmatch (Cls isWaw) s k = None.
Proof.
  intros (_ & _ & H3 & _). destruct s as [|c r]; [done|]. simpl.
  unfold isWaw. destruct (Z.eqb_spec c 1608) as [->|]; [|done].
  exfalso. apply H3. by left.
Qed.

Lemma commaOnly_no_and s k :
  commaOnly s →
  rmatch (Seq (Cls isA) (Seq (Cls isN) (Cls isD))) s k = None.
Proof.
  intros (_ & _ & _ & H4).
  destruct s as [|a [|b [|d r]]]; simpl; try done;
    try (by destruct (isA a)); try (by destruct (isA a), (isN b)).
  destruct (isA a) eqn:Ha; [|done]. destruct (isN b) eqn:Hb; [|done].
  destruct (isD d) eqn:Hd; [|done]. exfalso.
  simpl in H4. apply orb_false_iff in H4 as [H4 _].
  revert H4. unfold isA, isN, isD, lowerUnit in *.
  change (utf16 "and") with [97; 110; 100]. simpl.
  repeat match goal with
  | H : (_ || _) = true |- _ => apply orb_true_iff in H as [H|H]
  | H : (_ =? _) = true |- _ => apply Z.eqb_eq in H; subst
  end; simpl; discriminate.
Qed.

Lemma exec_tagSeparator_commaOnly c s :
  commaOnly (c :: s) →
  exec tagSeparator (c :: s)
  = if c =? 44 then Some (S (run (Z.eqb 44) s)) else None.
Proof.
  intros H. unfold exec, tagSeparator.
  cbn [rmatch]. rewrite (commaOnly_head _ _ H).
  destruct (c =? 44) eqn:Hc.
  - rewrite star_Some. cbn [orelse].
    rewrite (commaOnly_run s) by (by apply commaOnly_tail in H).
    f_equal. rewrite length_drop. simpl length.
    assert (run (Z.eqb 44) s ≤ length s)%nat; [|lia].
    clear. induction s as [|x r IH]; cbn [run length]; [lia|].
    destruct (44 =? x); lia.
  - cbn [orelse].
    rewrite star_None. 2:{
      intros s' Hs'. apply (commaOnly_no_waw s' (λ s1, star isWhiteSpace s1 Some)).
      by eapply commaOnly_suffix. }
    cbn [orelse].
    rewrite star_None; [done|].
    intros s' Hs'.
    apply (commaOnly_no_and s' (λ s1, star isWhiteSpace s1 Some)).
    by eapply commaOnly_suffix.
Qed.

Lemma exec_str_comma c s :
  exec_str (utf16 ",") (c :: s) = if c =? 44 then Some 1%nat else None.
Proof.
  unfold exec_str. change (utf16 ",") with [44]. cbn [startsWith length].
  rewrite (Z.eqb_sym 44 c). by destruct (c =? 44).
Qed.

Lemma clean_cons x l :
  clean (x :: l) = (if nonEmpty (trim x) then [trim x] else []) ++ clean l.
Proof. unfold clean. simpl. by destruct (nonEmpty (trim x)). Qed.

(** On a [commaOnly] input the two loops agree up to empty pieces, also
    in the middle of a run of commas. *)
Lemma split_loop_commaOnly s :
  commaOnly s →
  (∀ acc, clean (split_loop (exec tagSeparator) O acc s)
          = clean (split_loop (exec_str (utf16 ",")) O acc s))
  ∧ (∀ n, (n ≤ run (Z.eqb 44) s)%nat →
          clean (split_loop (exec tagSeparator) n [] s)
          = clean (split_loop (exec_str (utf16 ",")) O [] s)).
Proof.
  induction s as [|c r IH]; intros H.
  - split; [done|]. intros n Hn. simpl in Hn. by replace n with O by lia.
  - destruct (IH (commaOnly_tail _ _ H)) as [IH1 IH2].
    assert (∀ acc, clean (split_loop (exec tagSeparator) O acc (c :: r))
                   = clean (split_loop (exec_str (utf16 ",")) O acc (c :: r)))
      as Hfst.
    { intros acc. cbn [split_loop].
      rewrite (exec_tagSeparator_commaOnly _ _ H), exec_str_comma.
      destruct (c =? 44); [|apply IH1].
      rewrite !clean_cons. f_equal. by apply IH2. }
    split; [done|].
    intros [|n] Hn; [apply Hfst|].
    cbn [split_loop]. rewrite exec_str_comma.
    cbn [run] in Hn. rewrite (Z.eqb_sym 44 c) in Hn.
    destruct (c =? 44); [|lia].
    rewrite clean_cons. simpl. apply IH2. lia.
Qed.

Ltac by_decision := apply (bool_decide_unpack _); vm_compute; exact I.

(** C1. On the specification's own example,
    ["آموزش, برنامه نویسی و جاوااسکریپت"], [splitTags] does not return the
    three tags: the separator [\s*و\s*] needs no white space around the
    letter, so it also cuts inside every word that contains it, and six
    pieces come out. *)
Theorem splitTags_example_cuts_inside_words :
  splitTags (utf16 "آموزش, برنامه نویسی و جاوااسکریپت")
  = [utf16 "آم"; utf16 "زش"; utf16 "برنامه ن"; utf16 "یسی"; utf16 "جا";
     utf16 "ااسکریپت"]
  ∧ splitTags (utf16 "آموزش, برنامه نویسی و جاوااسکریپت")
    ≠ [utf16 "آموزش"; utf16 "برنامه نویسی"; utf16 "جاوااسکریپت"].
Proof. split; [by vm_compute|]. vm_compute. discriminate. Qed.

(** The same cut with the English separator: [and] inside a word. *)
Example splitTags_android :
  splitTags (utf16 "android, web") = [utf16 "roid"; utf16 "web"].
Proof. by vm_compute. Qed.

(** Between words the separators behave as the guidance text promises. *)
Example splitTags_guidance :
  splitTags (utf16 "تگ۱ و تگ۲ و تگ۳") = [utf16 "تگ۱"; utf16 "تگ۲"; utf16 "تگ۳"].
Proof. by vm_compute. Qed.

(** C2, as stated, fails: the wizard splits on ASCII commas only, so the
    guidance example is one tag for [parseTags] and three for
    [splitTags]. *)
Lemma parseTags_splitTags_differ :
  parseTags (utf16 "تگ۱ و تگ۲ و تگ۳") = [utf16 "تگ۱ و تگ۲ و تگ۳"]
  ∧ slice0 30 (splitTags (utf16 "تگ۱ و تگ۲ و تگ۳"))
    = [utf16 "تگ۱"; utf16 "تگ۲"; utf16 "تگ۳"]
  ∧ parseTags (utf16 "تگ۱ و تگ۲ و تگ۳")
    ≠ slice0 30 (splitTags (utf16 "تگ۱ و تگ۲ و تگ۳")).
Proof. repeat split; [by vm_compute ..|]. vm_compute. discriminate. Qed.

(** C2 (amended). [parseTags] splits on ASCII commas, trims, drops the
    empty pieces, strips one leading [#] and keeps 30 tags; it agrees
    with [splitTags] capped at 30 on every input that has no localized
    comma, no line feed, no letter waw and no [and] in any letter
    case. *)
Theorem parseTags_splitTags_commaOnly (s : jsstring) :
  commaOnly s → parseTags s = slice0 30 (splitTags s).
Proof.
  intros H. unfold parseTags, splitTags. fold (clean (split (exec_str (utf16 ",")) s)).
  fold (clean (split (exec tagSeparator) s)).
  destruct s as [|c r]; [by vm_compute|].
  cbn [truthy_str negb split]. f_equal. f_equal.
  destruct (split_loop_commaOnly _ H) as [Hloop _]. by rewrite Hloop.
Qed.

Lemma parseTags_splitTags_commaOnly_witness :
  commaOnly (utf16 "news, #Tech ,,c++ ")
  ∧ parseTags (utf16 "news, #Tech ,,c++ ")
    = slice0 30 (splitTags (utf16 "news, #Tech ,,c++ "))
  ∧ parseTags (utf16 "news, #Tech ,,c++ ")
    = [utf16 "news"; utf16 "Tech"; utf16 "c++"].
Proof.
  assert (commaOnly (utf16 "news, #Tech ,,c++ ")) as H.
  { split; [by_decision|]. split; [by_decision|]. split; [by_decision|].
    vm_compute. reflexivity. }
  split; [exact H|]. split.
  - exact (parseTags_splitTags_commaOnly _ H).
  - by vm_compute.
Defined.

(** ** Mention detection *)

Lemma startsWith_map (f : Z → Z) p s :
  startsWith p s = true → startsWith (map f p) (map f s) = true.
Proof.
  revert s. induction p as [|a p IH]; intros [|b s]; simpl; try done.
  intros [Hab Hps]%andb_true_iff. apply Z.eqb_eq in Hab as ->.
  rewrite Z.eqb_refl. by apply IH.
Qed.

Lemma includes_map (f : Z → Z) p s :
  includes p s = true → includes (map f p) (map f s) = true.
Proof.
  induction s as [|b s IH]; simpl.
  - rewrite !orb_false_r. apply (startsWith_map f p []).
  - intros [H|H]%orb_true_iff; apply orb_true_iff.
    + left. by apply (startsWith_map f p (b :: s)).
    + right. by apply IH.
Qed.

Lemma includes_nonempty p s : includes p s = true → p ≠ [] → s ≠ [].
Proof. intros H Hp ->. destruct p; [done|]. discriminate. Qed.

(** The fallback of [isMentioned]: when the handle is known and the
    message carries no entity metadata, a raw occurrence of [@handle] in
    the text is a mention. *)
Lemma isMentioned_fallback msg handle botId :
  handle ≠ [] →
  entities msg = None →
  caption_entities msg = None →
  includes (utf16 "@" ++ handle) (or_empty (text msg)) = true →
  isMentioned msg (Some handle) botId = true.
Proof.
  intros Hh He Hc Hin. unfold isMentioned. rewrite He, Hc.
  assert (or_empty (text msg) ≠ []) as Hne.
  { apply (includes_nonempty _ _ Hin). by destruct handle. }
  destruct handle as [|h0 handle]; [done|].
  destruct (text msg) as [[|t0 txt]|]; try done.
  cbn -[utf16 includes toLowerCase].
  by apply (includes_map lowerUnit).
Qed.

Lemma existsb_Exists {A} (f : A → bool) l :
  existsb f l = true ↔ Exists (λ e, f e = true) l.
Proof.
  induction l as [|x l IH]; simpl.
  - split; [done|]. by intros ?%Exists_nil.
  - rewrite Exists_cons, orb_true_iff. tauto.
Qed.

(** The loop and the fallback together: [isMentioned] holds exactly when
    some entity passes the entity test or the text contains the handle;
    the fallback is not gated on the entities being absent. *)
Lemma isMentioned_iff msg u i :
  let txt := or_empty (js_or (js_or (text msg) (caption msg)) (Some [])) in
  let ents := default [] (entities msg) ++ default [] (caption_entities msg) in
  isMentioned msg u i = true
  ↔ (truthy_ostr u = true ∨ truthy_onum i = true)
    ∧ (Exists (λ e, entityMentions txt u i e = true) ents
       ∨ (truthy_ostr u = true ∧ txt ≠ []
          ∧ includes (toLowerCase (utf16 "@" ++ or_empty u)) (toLowerCase txt)
            = true)).
Proof.
  intros txt ents. unfold isMentioned. fold txt ents.
  rewrite <- existsb_Exists.
  destruct (truthy_ostr u), (truthy_onum i),
    (existsb (entityMentions txt u i) ents), txt as [|t0 tr];
    cbn [negb andb truthy_str];
    try (split; [intros _; split; [tauto|tauto] | done]).
  all: try (split; [done | intros [[?|?] [?|(?&?&?)]]; done]).
  all: try (split; [done | intros [_ [?|(?&?&?)]]; done]).
  all: split; [intros H; split; [tauto|right; done] | intros [_ [?|(_&_&?)]]; done].
Qed.

(** C3. With entity metadata present and no entity naming the bot, the
    message still counts as a mention when its text contains the handle:
    the text scan runs after the entity loop whether or not the entities
    are there. Here the only entity covers [@MyBotFan], another account,
    and the bot [MyBot] answers with the guidance template. *)
Theorem mention_of_longer_handle_counts :
  entities Sample.fan
  = Some [ {| ent_offset := 0; ent_length := 9; ent_type := utf16 "mention";
              ent_user := None |} ]
  ∧ substring (or_empty (text Sample.fan)) 0 9 = utf16 "@MyBotFan"
  ∧ existsb
      (entityMentions (or_empty (text Sample.fan)) (Some (utf16 "MyBot")) (Some 42))
      (default [] (entities Sample.fan)) = false
  ∧ isMentioned Sample.fan (Some (utf16 "MyBot")) (Some 42) = true
  ∧ newEvents (Sample.env 200) (Sample.update Sample.fan) (Sample.world [])
    = [GetMe; SendMessage (-100) guidanceTemplate (Some 7)].
Proof. repeat split; vm_compute; reflexivity. Qed.

(** ** The group flow *)

Lemma resolved_frame env w :
  kv (resolved env w) = kv w
  ∧ trace (resolved env w) = trace w ++ identityEvents w.
Proof.
  unfold resolved, ensureBotIdentity, identityEvents.
  cbv [mbind M_bind mret M_ret getIdentity tg_getMe emit setIdentity].
  destruct (truthy_ostr (botUsername w) && truthy_onum (botId w)); simpl.
  - by rewrite app_nil_r.
  - done.
Qed.

Lemma handleUpdate_group env upd msg w :
  message upd = Some msg →
  isGroupChat msg = true →
  handleUpdate env upd w
  = handleMention env msg (msgContent msg) (botUsername (resolved env w))
      (botId (resolved env w)) (resolved env w).
Proof.
  intros Hm Hg. unfold handleUpdate, handleGroup, resolved.
  rewrite Hm, Hg.
  cbv [mbind M_bind getIdentity].
  by destruct (ensureBotIdentity env w) as [[] w1].
Qed.

(** The calls of a group update: the identity lookup, then those of the
    mention branch; the repository is as before. *)
Lemma group_newEvents env upd msg w evs :
  message upd = Some msg →
  isGroupChat msg = true →
  handleMention env msg (msgContent msg) (botUsername (resolved env w))
    (botId (resolved env w)) (resolved env w)
  = (tt, extend (resolved env w) evs) →
  newEvents env upd w = identityEvents w ++ evs
  ∧ kv (handleUpdate env upd w).2 = kv w.
Proof.
  intros Hm Hg Hrun. unfold newEvents.
  rewrite (handleUpdate_group _ _ _ _ Hm Hg), Hrun.
  destruct (resolved_frame env w) as [Hkv Htr].
  cbn [snd extend kv trace]. rewrite Htr, <- app_assoc, drop_app_length.
  by rewrite Hkv.
Qed.

(** What the branch for a complete template does, call by call. *)
Lemma dispatchTemplate_run env msg p w :
  let c := chat_id (chat msg) in
  let reply := Some (message_id msg) in
  let vid := videoFileId p msg in
  let fc := getFileResult env (or_empty vid) in
  let pl := groupPayload msg p (or_empty vid) fc in
  dispatchTemplate env msg p w
  = (tt, extend w
       (SendChatAction c (utf16 "typing") ::
        if negb (truthy_ostr vid) then
          [SendMessage c (if truthy_ostr (source_link p) then msgNeedReply
                          else msgNeedVideo) reply]
        else GetFile (or_empty vid) ::
          if negb (fc_ok fc) then [SendMessage c (msgFileError fc) reply]
          else if (length (trim (or_empty vid)) =? 0)%nat then
            [SendMessage c msgInternalError reply]
          else SendVideo pl ::
            [SendMessage c (if resp_ok (env_sendVideo env pl) then msgGroupOk
                            else msgN8nError (env_sendVideo env pl)) reply])).
Proof.
  intros c reply vid fc pl. unfold dispatchTemplate.
  fold c reply vid.
  cbv [mbind M_bind mret M_ret tg_sendChatAction tg_sendMessage tg_getFile
       n8n_sendVideo emit extend].
  cbn [kv botUsername botId trace fst snd].
  fold fc. fold pl.
  destruct (truthy_ostr vid) eqn:Hv; cbn [negb orb];
    [destruct (fc_ok fc); cbn [negb];
     [destruct (length (trim (or_empty vid)) =? 0)%nat;
      [|destruct (resp_ok (env_sendVideo env pl))]|]|];
    cbn [kv botUsername botId trace]; by rewrite <- ?app_assoc.
Qed.

Lemma parseGroupTemplate_empty isUrl u : parseGroupTemplate isUrl [] u = None.
Proof.
  unfold parseGroupTemplate.
  assert (∀ pat, removeAll_ci pat O [] = []) as Hrm by done.
  destruct u as [u|]; [destruct (truthy_str u); rewrite ?Hrm|]; by vm_compute.
Qed.

(** C6. A mentioned group message whose template parses to some fields
    but lacks the title, the description or the tags is answered with
    the guidance template and nothing else: apart from the identity
    lookup there is no other call (no dispatch, no repository read or
    write), and the repository is unchanged. *)
Theorem incomplete_template_gets_guidance env upd msg w p :
  message upd = Some msg →
  isGroupChat msg = true →
  isMentioned msg (botUsername (resolved env w)) (botId (resolved env w)) = true →
  parseGroupTemplate (env_isUrl env) (msgContent msg)
    (botUsername (resolved env w)) = Some p →
  truthy_ostr (title p) = false ∨ truthy_ostr (description p) = false
    ∨ default [] (tags p) = [] →
  newEvents env upd w
  = identityEvents w
    ++ [SendMessage (chat_id (chat msg)) guidanceTemplate (Some (message_id msg))]
  ∧ kv (handleUpdate env upd w).2 = kv w.
Proof.
  intros Hm Hg Hment Hparse Hlack.
  apply (group_newEvents _ _ _ _ _ Hm Hg).
  unfold handleMention. rewrite Hment, Hparse. cbn [negb].
  destruct (truthy_str (msgContent msg)) eqn:Hc.
  2:{ destruct (msgContent msg); [|discriminate Hc].
      rewrite parseGroupTemplate_empty in Hparse. discriminate Hparse. }
  assert (templateComplete (Some p) = false) as ->; [|reflexivity].
  unfold templateComplete.
  destruct Hlack as [->|[->|Ht]]; [reflexivity|by rewrite andb_false_r|].
  destruct (tags p) as [[|t ts]|]; try discriminate Ht; by rewrite andb_false_r.
Qed.

Lemma incomplete_template_gets_guidance_witness :
  newEvents (Sample.env 200) (Sample.update Sample.titleOnly) (Sample.world [])
  = identityEvents (Sample.world [])
    ++ [SendMessage (chat_id (chat Sample.titleOnly)) guidanceTemplate
          (Some (message_id Sample.titleOnly))]
  ∧ kv (handleUpdate (Sample.env 200) (Sample.update Sample.titleOnly)
          (Sample.world [])).2
    = kv (Sample.world []).
Proof.
  apply (incomplete_template_gets_guidance (Sample.env 200)
           (Sample.update Sample.titleOnly) Sample.titleOnly (Sample.world [])
           Sample.parsedTitleOnly).
  - reflexivity.
  - vm_compute. reflexivity.
  - vm_compute. reflexivity.
  - vm_compute. reflexivity.
  - right. left. vm_compute. reflexivity.
Defined.

Lemma extend_nil w : extend w [] = w.
Proof. destruct w. unfold extend. cbn. by rewrite app_nil_r. Qed.

(** The mention branch makes no call, or sends one of the two guidance
    texts, or runs the dispatch of a complete template. *)
Lemma handleMention_cases env msg content u i w1 :
  let c := chat_id (chat msg) in
  let reply := Some (message_id msg) in
  ∃ evs,
    handleMention env msg content u i w1 = (tt, extend w1 evs)
    ∧ (evs = []
       ∨ evs = [SendMessage c msgUnreadable reply]
       ∨ evs = [SendMessage c guidanceTemplate reply]
       ∨ ∃ p, parseGroupTemplate (env_isUrl env) content u = Some p
              ∧ templateComplete (Some p) = true
              ∧ dispatchTemplate env msg p w1 = (tt, extend w1 evs)).
Proof.
  intros c reply. unfold handleMention. fold c reply.
  destruct (isMentioned msg u i); cbn [negb].
  2:{ exists []. split; [by rewrite extend_nil|by left]. }
  destruct (truthy_str content).
  2:{ eexists. split; [reflexivity|]. right. by left. }
  destruct (parseGroupTemplate (env_isUrl env) content u) as [p|] eqn:Hp.
  2:{ eexists. split; [reflexivity|]. right. right. by left. }
  destruct (templateComplete (Some p)) eqn:Hcomplete.
  2:{ eexists. split; [reflexivity|]. right. right. by left. }
  eexists. split; [apply dispatchTemplate_run|].
  right. right. right. exists p.
  split; [reflexivity|]. split; [assumption|]. apply dispatchTemplate_run.
Qed.

Lemma ne_by_prefix (a b : jsstring) : take 4 a ≠ take 4 b → a ≠ b.
Proof. intros H ->. by apply H. Qed.

Ltac distinct_texts := apply ne_by_prefix; vm_compute; discriminate.

Lemma msgInternalError_distinct fc r :
  msgUnreadable ≠ msgInternalError ∧ guidanceTemplate ≠ msgInternalError
  ∧ msgNeedReply ≠ msgInternalError ∧ msgNeedVideo ≠ msgInternalError
  ∧ msgFileError fc ≠ msgInternalError ∧ msgGroupOk ≠ msgInternalError
  ∧ msgN8nError r ≠ msgInternalError.
Proof. repeat split; distinct_texts. Qed.

Lemma truthy_ostr_Some o :
  truthy_ostr o = true → o = Some (or_empty o) ∧ or_empty o ≠ [].
Proof. by destruct o as [[|]|]. Qed.

(** The calls of a mentioned group message with a complete template. *)
Lemma complete_template_events env upd msg w p :
  message upd = Some msg →
  isGroupChat msg = true →
  isMentioned msg (botUsername (resolved env w)) (botId (resolved env w)) = true →
  parseGroupTemplate (env_isUrl env) (msgContent msg)
    (botUsername (resolved env w)) = Some p →
  templateComplete (Some p) = true →
  ∃ evs, dispatchTemplate env msg p (resolved env w)
         = (tt, extend (resolved env w) evs)
         ∧ newEvents env upd w = identityEvents w ++ evs.
Proof.
  intros Hm Hg Hment Hparse Hcomplete.
  eexists. split; [apply dispatchTemplate_run|].
  apply (group_newEvents _ _ _ _ _ Hm Hg).
  unfold handleMention. rewrite Hment, Hparse, Hcomplete. cbn [negb].
  destruct (truthy_str (msgContent msg)) eqn:Hc.
  - apply dispatchTemplate_run.
  - destruct (msgContent msg); [|discriminate Hc].
    rewrite parseGroupTemplate_empty in Hparse. discriminate Hparse.
Qed.

Lemma elem_of_identityEvents e w : e ∈ identityEvents w → e = GetMe.
Proof.
  unfold identityEvents. destruct (_ && _); [by intros ?%elem_of_nil|].
  by intros ->%list_elem_of_singleton.
Qed.

(** The reference a message offers: its video's id, else the id of its
    document when the document's media type starts with [video/]. *)
Lemma videoIdOf_video v d :
  truthy_str (video_file_id v) = true →
  videoIdOf (Some v) d = Some (video_file_id v).
Proof.
  intros H. unfold videoIdOf, js_or.
  change (truthy_ostr (option_map video_file_id (Some v)))
    with (truthy_str (video_file_id v)).
  by rewrite H.
Qed.

Lemma videoIdOf_document d m :
  doc_mime_type d = Some m →
  videoIdOf None (Some d)
  = if startsWith (utf16 "video/") m then Some (doc_file_id d) else None.
Proof.
  intros H. unfold videoIdOf, js_or. rewrite H.
  change (truthy_ostr (option_map video_file_id None)) with false.
  reflexivity.
Qed.

Lemma videoIdOf_nothing : videoIdOf None None = None.
Proof. reflexivity. Qed.

Lemma videoIdOf_carries m x :
  carries m x → videoIdOf (video m) (document m) = Some x.
Proof.
  intros [v Hv Hx Hne|d mime Hnov Hd Hmime Hstarts Hx Hne].
  - rewrite Hv. rewrite videoIdOf_video; [by rewrite Hx|].
    rewrite Hx. by destruct x.
  - unfold videoIdOf, js_or. rewrite Hd, Hmime, Hstarts, Hx.
    destruct (video m) as [v|]; [|reflexivity].
    change (truthy_ostr (option_map video_file_id (Some v)))
      with (truthy_str (video_file_id v)).
    by rewrite (Hnov v eq_refl).
Qed.

Lemma videoIdOf_carries_nothing m :
  (∀ x, ¬ carries m x) →
  truthy_ostr (videoIdOf (video m) (document m)) = false.
Proof.
  intros Hno. unfold videoIdOf, js_or.
  destruct (truthy_ostr (option_map video_file_id (video m))) eqn:Hv.
  { destruct (video m) as [v|] eqn:Hvideo; [|discriminate Hv].
    destruct (Hno (video_file_id v)).
    apply (carries_video _ _ v); [done..|].
    intros Hnil. unfold truthy_ostr in Hv.
    change (or_empty (option_map video_file_id (Some v)))
      with (video_file_id v) in Hv.
    rewrite Hnil in Hv. discriminate Hv. }
  destruct (document m) as [d|] eqn:Hd; [|reflexivity].
  destruct (doc_mime_type d) as [mime|] eqn:Hmime; [|reflexivity].
  destruct (startsWith (utf16 "video/") mime) eqn:Hstarts; [|reflexivity].
  destruct (doc_file_id d) as [|c r] eqn:Hid; [reflexivity|].
  destruct (Hno (c :: r)).
  apply (carries_document _ _ d mime); try done.
  intros v Hvideo. rewrite Hvideo in Hv. unfold truthy_ostr in Hv.
  change (or_empty (option_map video_file_id (Some v)))
    with (video_file_id v) in Hv.
  by destruct (video_file_id v).
Qed.

Lemma repliedVideoId_carries msg r x :
  reply_to_message msg = Some r → carries r x → repliedVideoId msg = Some x.
Proof.
  intros Hr Hx. unfold repliedVideoId. rewrite Hr. by apply videoIdOf_carries.
Qed.

Lemma repliedVideoId_carries_nothing msg :
  replyCarriesNothing msg → truthy_ostr (repliedVideoId msg) = false.
Proof.
  intros Hno. unfold repliedVideoId.
  destruct (reply_to_message msg) as [r|] eqn:Hr; [|reflexivity].
  apply videoIdOf_carries_nothing. intros x. by apply (Hno r x).
Qed.

(** C4. In the group flow with a complete template the video reference
    is chosen with this precedence. A reference carried by the
    replied-to message (the id of its video, else of its document whose
    media type starts with [video/]) is the one chosen, with or without
    a source link and whatever the current message carries. When the
    replied-to message carries none, or there is no reply: with a source
    link there is no reference, even when the current message carries a
    video; without a source link the reference is the one the current
    message carries, and there is none when it carries none. That
    reference is the one sent to [getFile] and the one put in the
    dispatched payload; when it is missing no lookup and no dispatch
    happen and the instruction for the case is sent. *)
Theorem video_reference_precedence env upd msg w p :
  message upd = Some msg →
  isGroupChat msg = true →
  isMentioned msg (botUsername (resolved env w)) (botId (resolved env w)) = true →
  parseGroupTemplate (env_isUrl env) (msgContent msg)
    (botUsername (resolved env w)) = Some p →
  templateComplete (Some p) = true →
  let src := truthy_ostr (source_link p) in
  let ref := videoFileId p msg in
  (∀ r x, reply_to_message msg = Some r → carries r x → ref = Some x)
  ∧ (src = true → replyCarriesNothing msg → truthy_ostr ref = false)
  ∧ (src = false → replyCarriesNothing msg →
     ∀ x, carries msg x → ref = Some x)
  ∧ (src = false → replyCarriesNothing msg → (∀ x, ¬ carries msg x) →
     truthy_ostr ref = false)
  ∧ (∀ x, GetFile x ∈ newEvents env upd w → ref = Some x)
  ∧ (∀ pl, SendVideo pl ∈ newEvents env upd w →
       ref = Some (pv_file_id (p_video pl)))
  ∧ (truthy_ostr ref = true → GetFile (or_empty ref) ∈ newEvents env upd w)
  ∧ (truthy_ostr ref = false →
     newEvents env upd w
     = identityEvents w
       ++ [SendChatAction (chat_id (chat msg)) (utf16 "typing");
           SendMessage (chat_id (chat msg))
             (if src then msgNeedReply else msgNeedVideo)
             (Some (message_id msg))]).
Proof.
  intros Hm Hg Hment Hparse Hcomplete src ref.
  destruct (complete_template_events _ _ _ _ _ Hm Hg Hment Hparse Hcomplete)
    as (evs & Hrun & ->).
  rewrite dispatchTemplate_run in Hrun. fold ref src in Hrun.
  injection Hrun as Hevs. apply app_inv_head in Hevs. subst evs.
  split.
  { intros r x Hr Hx. pose proof (repliedVideoId_carries _ _ _ Hr Hx) as Hrep.
    assert (truthy_ostr (Some x) = true) as Htr
      by (destruct Hx as [? ? ? Hne|? ? ? ? ? ? ? Hne]; by destruct x).
    unfold ref, videoFileId, js_or. rewrite Hrep, Htr.
    by destruct (truthy_ostr (source_link p)). }
  split.
  { intros Hsrc Hno%repliedVideoId_carries_nothing.
    unfold ref, videoFileId. fold src. by rewrite Hsrc. }
  split.
  { intros Hsrc Hno%repliedVideoId_carries_nothing x Hx.
    unfold ref, videoFileId, js_or. fold src. rewrite Hsrc, Hno.
    by apply videoIdOf_carries. }
  split.
  { intros Hsrc Hno%repliedVideoId_carries_nothing Hcur.
    unfold ref, videoFileId, js_or. fold src. rewrite Hsrc, Hno.
    by apply videoIdOf_carries_nothing. }
  destruct (truthy_ostr ref) eqn:Href; cbn [negb].
  - destruct (truthy_ostr_Some _ Href) as [Hsome _].
    split; [|split; [|split; [|intros [=]]]].
    + intros x [Hx%elem_of_identityEvents|Hx]%elem_of_app; [discriminate|].
      apply elem_of_cons in Hx as [Hx|Hx]; [discriminate|].
      apply elem_of_cons in Hx as [Hx|Hx]; [by injection Hx as ->|].
      destruct (negb _); [|destruct (_ =? _)%nat];
        repeat (apply elem_of_cons in Hx as [Hx|Hx]; [discriminate|]);
        by apply elem_of_nil in Hx.
    + intros pl [Hx%elem_of_identityEvents|Hx]%elem_of_app; [discriminate|].
      apply elem_of_cons in Hx as [Hx|Hx]; [discriminate|].
      apply elem_of_cons in Hx as [Hx|Hx]; [discriminate|].
      destruct (negb _); [|destruct (_ =? _)%nat];
        try (repeat (apply elem_of_cons in Hx as [Hx|Hx]; [discriminate|]);
             by apply elem_of_nil in Hx).
      apply elem_of_cons in Hx as [Hx|Hx].
      * injection Hx as ->. exact Hsome.
      * repeat (apply elem_of_cons in Hx as [Hx|Hx]; [discriminate|]).
        by apply elem_of_nil in Hx.
    + intros _. apply elem_of_app. right. right. left.
  - split; [|split; [|split; [intros [=]|reflexivity]]].
    + intros x [Hx%elem_of_identityEvents|Hx]%elem_of_app; [discriminate|].
      repeat (apply elem_of_cons in Hx as [Hx|Hx]; [discriminate|]).
      by apply elem_of_nil in Hx.
    + intros x [Hx%elem_of_identityEvents|Hx]%elem_of_app; [discriminate|].
      repeat (apply elem_of_cons in Hx as [Hx|Hx]; [discriminate|]).
      by apply elem_of_nil in Hx.
Qed.

Lemma video_reference_precedence_witness :
  videoFileId (Sample.parsedTemplate true) Sample.linkedReply
  = Some (utf16 "REPLIED")
  ∧ carries Sample.linkedReply (utf16 "CURRENT")
  ∧ GetFile (utf16 "REPLIED")
    ∈ newEvents (Sample.env 200) (Sample.update Sample.linkedReply)
        (Sample.world [])
  ∧ ∀ x, GetFile x
         ∈ newEvents (Sample.env 200) (Sample.update Sample.linkedReply)
             (Sample.world []) →
         x = utf16 "REPLIED".
Proof.
  destruct (video_reference_precedence (Sample.env 200)
              (Sample.update Sample.linkedReply) Sample.linkedReply
              (Sample.world []) (Sample.parsedTemplate true))
    as (Hreply & _ & _ & _ & Hget & _ & Hlook & _).
  - reflexivity.
  - vm_compute. reflexivity.
  - vm_compute. reflexivity.
  - vm_compute. reflexivity.
  - vm_compute. reflexivity.
  - assert (videoFileId (Sample.parsedTemplate true) Sample.linkedReply
            = Some (utf16 "REPLIED")) as Href.
    { apply (Hreply (Sample.withVideoAttached (utf16 "REPLIED")
                       (Sample.msg (-100) "group" 6 None))); [reflexivity|].
      apply (carries_video _ _ (Sample.videoOf (utf16 "REPLIED")));
        [reflexivity|reflexivity|vm_compute; discriminate]. }
    split; [exact Href|]. split.
    { apply (carries_video _ _ (Sample.videoOf (utf16 "CURRENT")));
        [reflexivity|reflexivity|vm_compute; discriminate]. }
    split.
    + rewrite Href in Hlook. apply Hlook. reflexivity.
    + intros x Hx. apply Hget in Hx. rewrite Href in Hx. congruence.
Defined.

(** Without a source link and without a reply the attached video is the
    reference; a reply that carries a video-typed document wins over
    it. *)
Example video_reference_fallbacks :
  let document := {| doc_file_id := utf16 "DOC"; doc_file_unique_id := None;
                     doc_mime_type := Some (utf16 "video/mp4");
                     doc_file_name := None; doc_file_size := None |} in
  let replied := mkTgMessage 6 None {| chat_id := -100; chat_type := utf16 "group" |}
                   1700000000 None None (Some document) None None None None in
  let current := Sample.withVideoAttached (utf16 "CURRENT")
                   (Sample.msg (-100) "group" 7 (Some (Sample.template false))) in
  videoFileId (Sample.parsedTemplate false) current = Some (utf16 "CURRENT")
  ∧ videoFileId (Sample.parsedTemplate false) (Sample.replyingTo replied current)
    = Some (utf16 "DOC")
  ∧ videoFileId (Sample.parsedTemplate true) current = None.
Proof. vm_compute. repeat split; reflexivity. Qed.

(** With a source link and no reply the attached video is not used:
    no file lookup, the instruction to reply is sent. *)
Example linked_template_without_reply :
  newEvents (Sample.env 200) (Sample.update Sample.linkedNoReply)
    (Sample.world [])
  = [GetMe; SendChatAction (-100) (utf16 "typing");
     SendMessage (-100) msgNeedReply (Some 7)].
Proof. vm_compute. reflexivity. Qed.

Ltac not_in_list H :=
  repeat (apply elem_of_cons in H as [H|H];
          [first [discriminate H | injection H as ?; congruence]|]);
  apply elem_of_nil in H; destruct H.

(** C9, as stated, fails: the re-check also fires on a blank reference.
    A video id of one space that the platform accepts passes both
    earlier checks and gets the internal-error message. *)
Lemma internal_error_reached :
  newEvents (Sample.env 200) (Sample.update Sample.blankVideo) (Sample.world [])
  = [GetMe; SendChatAction (-100) (utf16 "typing"); GetFile (utf16 " ");
     SendMessage (-100) msgInternalError (Some 7)].
Proof. vm_compute. reflexivity. Qed.

(** C9 (amended). In the group flow a reference that reaches [getFile],
    and so the re-check, is never the empty string; the internal-error
    message is sent only for a reference that [getFile] accepted and that
    is non-empty but blank (white space only), the second half of the
    re-check. *)
Theorem internal_error_needs_blank_reference env upd msg w :
  message upd = Some msg →
  isGroupChat msg = true →
  (∀ x, GetFile x ∈ newEvents env upd w → x ≠ [])
  ∧ (∀ c r, SendMessage c msgInternalError r ∈ newEvents env upd w →
       ∃ x, GetFile x ∈ newEvents env upd w ∧ x ≠ [] ∧ trim x = []
            ∧ fc_ok (getFileResult env x) = true).
Proof.
  intros Hm Hg.
  destruct (handleMention_cases env msg (msgContent msg)
              (botUsername (resolved env w)) (botId (resolved env w))
              (resolved env w)) as (evs & Hrun & Hcases).
  destruct (group_newEvents _ _ _ _ _ Hm Hg Hrun) as [-> _].
  destruct (msgInternalError_distinct
              (getFileResult env [])
              {| resp_status := 0; resp_text := None |})
    as (D1 & D2 & D3 & D4 & _ & D6 & _).
  destruct Hcases as [->|[->|[->|(p & _ & _ & Hd)]]].
  1-3: split;
    [ intros x [Hx%elem_of_identityEvents|Hx]%elem_of_app;
      [discriminate|not_in_list Hx]
    | intros c r [Hx%elem_of_identityEvents|Hx]%elem_of_app;
      [discriminate|not_in_list Hx] ].
  rewrite dispatchTemplate_run in Hd. injection Hd as Hevs.
  apply app_inv_head in Hevs. subst evs.
  set (ref := videoFileId p msg).
  destruct (truthy_ostr ref) eqn:Href; cbn [negb].
  2:{ split.
      - intros x [Hx%elem_of_identityEvents|Hx]%elem_of_app;
          [discriminate|not_in_list Hx].
      - intros c r [Hx%elem_of_identityEvents|Hx]%elem_of_app;
          [discriminate|].
        destruct (truthy_ostr (source_link p)); not_in_list Hx. }
  destruct (truthy_ostr_Some _ Href) as [_ Hne].
  set (fc := getFileResult env (or_empty ref)).
  destruct (msgInternalError_distinct fc
              (env_sendVideo env (groupPayload msg p (or_empty ref) fc)))
    as (_ & _ & _ & _ & D5 & _ & D7).
  split.
  - intros x [Hx%elem_of_identityEvents|Hx]%elem_of_app; [discriminate|].
    apply elem_of_cons in Hx as [Hx|Hx]; [discriminate|].
    apply elem_of_cons in Hx as [Hx|Hx]; [by injection Hx as ->|].
    destruct (fc_ok fc); cbn [negb] in Hx;
      [destruct (_ =? _)%nat|]; not_in_list Hx.
  - intros c r [Hx%elem_of_identityEvents|Hx]%elem_of_app; [discriminate|].
    apply elem_of_cons in Hx as [Hx|Hx]; [discriminate|].
    apply elem_of_cons in Hx as [Hx|Hx]; [discriminate|].
    destruct (fc_ok fc) eqn:Hok; cbn [negb] in Hx; [|not_in_list Hx].
    destruct (length (trim (or_empty ref)) =? 0)%nat eqn:Hblank.
    + exists (or_empty ref). split; [|split; [exact Hne|split; [|exact Hok]]].
      * apply elem_of_app. right. right. left.
      * apply Nat.eqb_eq in Hblank. by destruct (trim (or_empty ref)).
    + destruct (resp_ok _); not_in_list Hx.
Qed.

Lemma internal_error_needs_blank_reference_witness :
  (∀ x, GetFile x
        ∈ newEvents (Sample.env 200) (Sample.update Sample.blankVideo)
            (Sample.world []) → x ≠ [])
  ∧ (∀ c r, SendMessage c msgInternalError r
            ∈ newEvents (Sample.env 200) (Sample.update Sample.blankVideo)
                (Sample.world []) →
       ∃ x, GetFile x
            ∈ newEvents (Sample.env 200) (Sample.update Sample.blankVideo)
                (Sample.world [])
            ∧ x ≠ [] ∧ trim x = []
            ∧ fc_ok (getFileResult (Sample.env 200) x) = true).
Proof.
  apply (internal_error_needs_blank_reference (Sample.env 200)
           (Sample.update Sample.blankVideo) Sample.blankVideo (Sample.world [])).
  - reflexivity.
  - vm_compute. reflexivity.
Defined.

(** ** The private wizard *)

Lemma handleUpdate_private env upd msg w :
  message upd = Some msg →
  isGroupChat msg = false →
  handleUpdate env upd w = handlePrivate env msg (msgText msg) w.
Proof. intros Hm Hg. unfold handleUpdate. by rewrite Hm, Hg. Qed.

Lemma newEvents_after env upd w k evs :
  handleUpdate env upd w
  = (tt, {| kv := k; botUsername := botUsername w; botId := botId w;
            trace := trace w ++ evs |}) →
  newEvents env upd w = evs ∧ kv (handleUpdate env upd w).2 = k.
Proof.
  intros H. unfold newEvents. rewrite H. cbn [snd kv trace].
  by rewrite drop_app_length.
Qed.

Lemma str_eqb_eq a b : str_eqb a b = true → a = b.
Proof. unfold str_eqb. by intros ?%bool_decide_eq_true. Qed.

Lemma truthy_str_false s : truthy_str s = false → s = [].
Proof. by destruct s. Qed.

(** Unfolding the monadic code of the private branch. *)
Ltac run_private :=
  cbv [handlePrivate handleStep mbind M_bind mret M_ret repo_get repo_save
       repo_delete tg_sendMessage tg_sendChatAction n8n_sendVideo emit];
  cbn [kv botUsername botId trace fst snd].

(** A path's end: the world it leaves, then the constructor that
    describes it. *)
Ltac leaf :=
  cbn [kv botUsername botId trace]; rewrite <- ?app_assoc; cbn [app];
  eexists _, _; split; [reflexivity|].

(** Every run of the private branch is one of [wizard_run]. *)
Lemma handlePrivate_run env msg w :
  ∃ k evs,
    handlePrivate env msg (msgText msg) w
    = (tt, {| kv := k; botUsername := botUsername w; botId := botId w;
              trace := trace w ++ evs |})
    ∧ wizard_run env msg w k evs.
Proof.
  run_private.
  destruct (str_eqb (msgText msg) (utf16 "/start")) eqn:Hstart.
  { apply str_eqb_eq in Hstart. leaf. by apply run_start. }
  destruct (isCancel (msgText msg)) eqn:Hcancel.
  { leaf. by apply run_cancel. }
  assert (notCommand (msgText msg)) as Hnc by done.
  destruct (kv w !! chat_id (chat msg)) as [st|] eqn:Hst.
  2:{ destruct (video msg) as [v|] eqn:Hv; leaf.
      - by apply run_implicit.
      - by apply run_no_state. }
  destruct (step st) eqn:Hstep.
  - destruct (video msg) as [v|] eqn:Hv;
      [destruct (truthy_str (video_file_id v)) eqn:Hid|]; leaf.
    + by apply (run_video _ _ _ st v).
    + apply (run_video_rejected _ _ _ st); try done. by rewrite Hv.
    + apply (run_video_rejected _ _ _ st); try done. by rewrite Hv.
  - destruct (truthy_str (msgText msg)) eqn:Ht; leaf.
    + by apply (run_title _ _ _ st).
    + apply (run_title_rejected _ _ _ st); try done. by apply truthy_str_false.
  - destruct (truthy_str (msgText msg)) eqn:Ht; leaf.
    + by apply (run_description _ _ _ st).
    + apply (run_description_rejected _ _ _ st); try done.
      by apply truthy_str_false.
  - destruct (truthy_str (msgText msg)) eqn:Ht.
    + destruct (length (parseTags (msgText msg)) =? 0)%nat eqn:Hn; leaf.
      * apply (run_tags_none _ _ _ st); try done.
        apply Nat.eqb_eq in Hn. by destruct (parseTags (msgText msg)).
      * apply (run_tags _ _ _ st); try done.
        intros Hnil. rewrite Hnil in Hn. discriminate Hn.
    + leaf. apply (run_tags_rejected _ _ _ st); try done.
      by apply truthy_str_false.
  - destruct (isConfirm (msgText msg)) eqn:Hconf.
    + assert (negb (truthy_ostr (st_video_file_id st))
              || negb (truthy_ostr (st_title st))
              || negb (truthy_ostr (st_description st))
              || negb (bool_decide (is_Some (st_tags st)))
              = negb (confirmReady st)) as ->.
      { unfold confirmReady. by rewrite !negb_andb. }
      destruct (confirmReady st) eqn:Hready; cbn [negb].
      * destruct (resp_ok (env_sendVideo env (wizardPayload msg st))) eqn:Hok;
          leaf.
        -- by apply (run_confirm_ok _ _ _ st).
        -- by apply (run_confirm_failed _ _ _ st).
      * leaf. by apply (run_confirm_incomplete _ _ _ st).
    + leaf. by apply (run_confirm_reminder _ _ _ st).
  - leaf. by apply (run_unknown_step _ _ _ st raw).
Qed.

(** The same for [handleUpdate] on a private message. *)
Lemma handleUpdate_private_run env upd msg w :
  message upd = Some msg →
  isGroupChat msg = false →
  wizard_run env msg w (kv (handleUpdate env upd w).2) (newEvents env upd w).
Proof.
  intros Hm Hg.
  destruct (handlePrivate_run env msg w) as (k & evs & Hrun & Hcase).
  rewrite <- (handleUpdate_private _ _ _ _ Hm Hg) in Hrun.
  by destruct (newEvents_after _ _ _ _ _ Hrun) as [-> ->].
Qed.

Lemma isConfirm_notCommand txt : isConfirm txt = true → notCommand txt.
Proof.
  unfold isConfirm, notCommand, isCancel. intros H.
  apply orb_true_iff in H as [H|H]; [apply orb_true_iff in H as [H|H]|];
    apply str_eqb_eq in H.
  - subst txt. split; vm_compute; reflexivity.
  - split.
    + destruct (str_eqb txt (utf16 "/start")) eqn:E; [|reflexivity].
      apply str_eqb_eq in E. subst txt. vm_compute in H. discriminate H.
    + rewrite H.
      destruct (str_eqb txt (utf16 "/cancel")) eqn:E1.
      { apply str_eqb_eq in E1. subst txt. vm_compute in H. discriminate H. }
      destruct (str_eqb txt (utf16 "لغو")) eqn:E2.
      { apply str_eqb_eq in E2. subst txt. vm_compute in H. discriminate H. }
      vm_compute. reflexivity.
  - subst txt. split; vm_compute; reflexivity.
Qed.

Ltac invert_run H :=
  inversion H; subst; clear H;
  repeat match goal with
  | c := _ |- _ => subst c
  end.

(** The run of a confirm keyword on a complete state. *)
Lemma confirm_run env upd msg w st :
  message upd = Some msg →
  isGroupChat msg = false →
  kv w !! chat_id (chat msg) = Some st →
  step st = awaiting_confirm →
  confirmReady st = true →
  isConfirm (msgText msg) = true →
  let c := chat_id (chat msg) in
  let pl := wizardPayload msg st in
  let resp := env_sendVideo env pl in
  (resp_ok resp = true →
   newEvents env upd w
   = [RepoGet c; SendChatAction c (utf16 "typing"); SendVideo pl;
      SendMessage c msgWizardOk None; RepoDelete c]
   ∧ kv (handleUpdate env upd w).2 = delete c (kv w))
  ∧ (resp_ok resp = false →
     newEvents env upd w
     = [RepoGet c; SendChatAction c (utf16 "typing"); SendVideo pl;
        SendMessage c (msgN8nError resp) None]
     ∧ kv (handleUpdate env upd w).2 = kv w).
Proof.
  intros Hm Hg Hst Hstep Hready Hconf c pl resp.
  pose proof (handleUpdate_private_run env upd msg w Hm Hg) as Hrun.
  destruct (isConfirm_notCommand _ Hconf) as [Hs Hc].
  split; intros Hok; inversion Hrun; subst;
    repeat match goal with x := _ |- _ => subst x end;
    try congruence;
    try match goal with
    | H : _ = utf16 "/start" |- _ =>
      rewrite H in Hs; vm_compute in Hs; discriminate Hs
    end.
  all: repeat match goal with
       | H1 : ?m !! ?i = Some ?a, H2 : ?m !! ?i = Some ?b |- _ =>
         rewrite H1 in H2; injection H2 as ->
       end; try congruence.
  all: split; congruence.
Qed.

Lemma digits_value f n acc :
  0 ≤ n < 2 ^ Z.of_nat f →
  fold_left (λ a d, 10 * a + (d - 48)) (digits f n acc) 0
  = fold_left (λ a d, 10 * a + (d - 48)) acc n.
Proof.
  revert n acc. induction f as [|f IH]; intros n acc Hn.
  - simpl. replace n with 0 by (simpl in Hn; lia). reflexivity.
  - cbn [digits]. destruct (Z.ltb_spec n 10).
    + cbn [fold_left]. f_equal. rewrite Z.mod_small by lia. lia.
    + rewrite IH.
      * cbn [fold_left]. f_equal.
        pose proof (Z.div_mod n 10 ltac:(lia)). lia.
      * rewrite Nat2Z.inj_succ, Z.pow_succ_r in Hn by lia.
        split; [apply Z.div_pos; lia|].
        apply Z.div_lt_upper_bound; lia.
Qed.

(** The decimal rendering denotes the number: the digit loop never runs
    out of fuel. *)
Lemma numberToString_value n : 0 ≤ n → decimalValue (numberToString n) = n.
Proof.
  intros Hn. unfold decimalValue, numberToString.
  destruct (Z.ltb_spec n 0); [lia|].
  rewrite digits_value; [reflexivity|].
  split; [lia|].
  rewrite Nat2Z.inj_add, Z2Nat.id by apply Z.log2_nonneg.
  destruct (Z.eq_dec n 0) as [->|]; [reflexivity|].
  change (Z.of_nat 1) with 1.
  pose proof (Z.log2_spec n ltac:(lia)) as [_ Hlt].
  by rewrite <- Z.add_1_r in Hlt.
Qed.

Lemma msgN8nError_shape r :
  msgN8nError r
  = utf16 "ارسال به n8n با خطا مواجه شد (HTTP " ++ numberToString (resp_status r)
    ++ utf16 ")." ++ [10] ++ take 400 (or_empty (resp_text r)).
Proof. unfold msgN8nError, safeReadText, slice0. by destruct (resp_text r). Qed.

Example numberToString_500 : numberToString 500 = utf16 "500".
Proof. vm_compute. reflexivity. Qed.

(** C5. At [awaiting_confirm] with the four fields present, a confirm
    keyword dispatches the stored submission. On a success status the
    user gets the confirmation and the state is deleted. On any other
    status the user gets the status code and the first 400 units of the
    response body, the state stays as it was, and a later confirm keyword
    in the same conversation dispatches the same stored submission
    again. *)
Theorem confirm_success_deletes_failure_keeps env upd msg w st :
  message upd = Some msg →
  isGroupChat msg = false →
  kv w !! chat_id (chat msg) = Some st →
  step st = awaiting_confirm →
  truthy_ostr (st_video_file_id st) = true →
  truthy_ostr (st_title st) = true →
  truthy_ostr (st_description st) = true →
  is_Some (st_tags st) →
  isConfirm (msgText msg) = true →
  let c := chat_id (chat msg) in
  let pl := wizardPayload msg st in
  let resp := env_sendVideo env pl in
  let w' := (handleUpdate env upd w).2 in
  (resp_ok resp = true →
   newEvents env upd w
   = [RepoGet c; SendChatAction c (utf16 "typing"); SendVideo pl;
      SendMessage c msgWizardOk None; RepoDelete c]
   ∧ kv w' !! c = None)
  ∧ (resp_ok resp = false →
     newEvents env upd w
     = [RepoGet c; SendChatAction c (utf16 "typing"); SendVideo pl;
        SendMessage c
          (utf16 "ارسال به n8n با خطا مواجه شد (HTTP "
           ++ numberToString (resp_status resp) ++ utf16 ")." ++ [10]
           ++ take 400 (or_empty (resp_text resp))) None]
     ∧ (length (take 400 (or_empty (resp_text resp))) ≤ 400)%nat
     ∧ kv w' = kv w
     ∧ ∀ env' upd' msg',
         message upd' = Some msg' →
         isGroupChat msg' = false →
         chat_id (chat msg') = c →
         isConfirm (msgText msg') = true →
         SendVideo (wizardPayload msg' st) ∈ newEvents env' upd' w').
Proof.
  intros Hm Hg Hst Hstep Hv Ht Hd Htags Hconf c pl resp w'.
  assert (confirmReady st = true) as Hready.
  { unfold confirmReady. rewrite Hv, Ht, Hd. by rewrite bool_decide_eq_true_2. }
  destruct (confirm_run env upd msg w st Hm Hg Hst Hstep Hready Hconf)
    as [Hsuccess Hfailure].
  split; intros Hok.
  - destruct (Hsuccess Hok) as [Hevs Hkv]. split; [exact Hevs|].
    unfold w'. rewrite Hkv. apply lookup_delete_eq.
  - destruct (Hfailure Hok) as [Hevs Hkv].
    split; [by rewrite <- msgN8nError_shape|].
    split; [rewrite length_take; lia|].
    split; [exact Hkv|].
    intros env' upd' msg' Hm' Hg' Hc' Hconf'.
    assert (kv w' !! chat_id (chat msg') = Some st) as Hst'.
    { unfold w'. by rewrite Hkv, Hc'. }
    destruct (confirm_run env' upd' msg' w' st Hm' Hg' Hst' Hstep Hready Hconf')
      as [Hs' Hf'].
    destruct (resp_ok (env_sendVideo env' (wizardPayload msg' st))).
    + destruct Hs' as [-> _]; [reflexivity|]. right. right. left.
    + destruct Hf' as [-> _]; [reflexivity|]. right. right. left.
Qed.

Lemma confirm_success_deletes_failure_keeps_witness :
  newEvents (Sample.env 500) (Sample.update (Sample.say "Confirm"))
    (Sample.world [Sample.state 5 awaiting_confirm])
  = [RepoGet 5; SendChatAction 5 (utf16 "typing");
     SendVideo (wizardPayload (Sample.say "Confirm")
                  (Sample.state 5 awaiting_confirm));
     SendMessage 5
       (utf16 "ارسال به n8n با خطا مواجه شد (HTTP 500)." ++ [10]
        ++ utf16 "workflow says no") None]
  ∧ kv (handleUpdate (Sample.env 500) (Sample.update (Sample.say "Confirm"))
          (Sample.world [Sample.state 5 awaiting_confirm])).2
    = kv (Sample.world [Sample.state 5 awaiting_confirm])
  ∧ SendVideo (wizardPayload (Sample.say "/confirm")
                 (Sample.state 5 awaiting_confirm))
    ∈ newEvents (Sample.env 200) (Sample.update (Sample.say "/confirm"))
        (handleUpdate (Sample.env 500) (Sample.update (Sample.say "Confirm"))
           (Sample.world [Sample.state 5 awaiting_confirm])).2.
Proof.
  destruct (confirm_success_deletes_failure_keeps (Sample.env 500)
              (Sample.update (Sample.say "Confirm")) (Sample.say "Confirm")
              (Sample.world [Sample.state 5 awaiting_confirm])
              (Sample.state 5 awaiting_confirm))
    as [_ Hfailure].
  - reflexivity.
  - vm_compute. reflexivity.
  - vm_compute. reflexivity.
  - reflexivity.
  - vm_compute. reflexivity.
  - vm_compute. reflexivity.
  - vm_compute. reflexivity.
  - eexists. reflexivity.
  - vm_compute. reflexivity.
  - destruct Hfailure as (Hevs & _ & Hkv & Hretry); [vm_compute; reflexivity|].
    split; [exact Hevs|]. split; [exact Hkv|].
    apply (Hretry (Sample.env 200) (Sample.update (Sample.say "/confirm"))
             (Sample.say "/confirm")).
    + reflexivity.
    + vm_compute. reflexivity.
    + reflexivity.
    + vm_compute. reflexivity.
Defined.

(** What happens to a message that reaches the step of the loaded state
    and fails its validation. *)
Lemma rejection_run env upd msg w st :
  message upd = Some msg →
  isGroupChat msg = false →
  notCommand (msgText msg) →
  kv w !! chat_id (chat msg) = Some st →
  failsValidation st msg →
  kv (handleUpdate env upd w).2 = kv w
  ∧ ∃ reply, newEvents env upd w
             = [RepoGet (chat_id (chat msg));
                SendMessage (chat_id (chat msg)) reply None].
Proof.
  intros Hm Hg [Hs Hc] Hst Hfail.
  pose proof (handleUpdate_private_run env upd msg w Hm Hg) as Hrun.
  unfold failsValidation in Hfail.
  inversion Hrun; subst;
    repeat match goal with x := _ |- _ => subst x end;
    try congruence;
    try match goal with
    | H : _ = utf16 "/start" |- _ =>
      rewrite H in Hs; vm_compute in Hs; discriminate Hs
    end;
    repeat match goal with
    | H1 : ?m !! ?i = Some ?a, H2 : ?m !! ?i = Some ?b |- _ =>
      rewrite H1 in H2; injection H2 as ->
    end;
    try (split; [congruence|eexists; reflexivity]);
    exfalso;
    match goal with H : step _ = _ |- _ => rewrite H in Hfail end.
  - match goal with H : video _ = Some _ |- _ => rewrite H in Hfail end.
    change (truthy_str (video_file_id v) = false) in Hfail. congruence.
  - match goal with H : truthy_str _ = true |- _ => rewrite Hfail in H; discriminate H end.
  - match goal with H : truthy_str _ = true |- _ => rewrite Hfail in H; discriminate H end.
  - destruct Hfail as [Hf|Hf]; [|congruence].
    match goal with H : truthy_str _ = true |- _ => rewrite Hf in H; discriminate H end.
  - destruct Hfail; congruence.
  - destruct Hfail; congruence.
  - destruct Hfail; congruence.
  - exact Hfail.
Qed.

(** C7, as stated, fails: a message without a video fails the validation
    of [awaiting_video], but when its text is a cancel keyword the command,
    available at any time, runs before the step is looked at and deletes
    the state. *)
Lemma cancel_without_video_deletes_state :
  failsValidation (Sample.state 5 awaiting_video) (Sample.say "/cancel")
  ∧ kv (Sample.world [Sample.state 5 awaiting_video]) !! 5
    = Some (Sample.state 5 awaiting_video)
  ∧ newEvents (Sample.env 200) (Sample.update (Sample.say "/cancel"))
      (Sample.world [Sample.state 5 awaiting_video])
    = [RepoDelete 5; SendMessage 5 msgCancelled None]
  ∧ kv (handleUpdate (Sample.env 200) (Sample.update (Sample.say "/cancel"))
          (Sample.world [Sample.state 5 awaiting_video])).2 !! 5
    = None.
Proof. repeat split; vm_compute; reflexivity. Qed.

(** C7 (amended). For every step and every message that is neither
    [/start] nor a cancel keyword and that fails the step's validation (no
    usable video at [awaiting_video], no text at the three text steps, no
    tag at [awaiting_tags], a word that is no keyword at
    [awaiting_confirm]), the calls are one read of the state and one reply:
    no save, no delete, and the repository afterwards is the repository
    before. *)
Theorem rejected_input_leaves_state env upd msg w st :
  message upd = Some msg →
  isGroupChat msg = false →
  notCommand (msgText msg) →
  kv w !! chat_id (chat msg) = Some st →
  failsValidation st msg →
  kv (handleUpdate env upd w).2 = kv w
  ∧ ∃ reply, newEvents env upd w
             = [RepoGet (chat_id (chat msg));
                SendMessage (chat_id (chat msg)) reply None].
Proof. apply rejection_run. Qed.


Lemma rejected_input_leaves_state_witness :
  kv (handleUpdate (Sample.env 200) (Sample.update (Sample.say ", ,"))
        (Sample.world [Sample.state 5 awaiting_tags])).2
  = kv (Sample.world [Sample.state 5 awaiting_tags])
  ∧ ∃ reply,
      newEvents (Sample.env 200) (Sample.update (Sample.say ", ,"))
        (Sample.world [Sample.state 5 awaiting_tags])
      = [RepoGet (chat_id (chat (Sample.say ", ,")));
         SendMessage (chat_id (chat (Sample.say ", ,"))) reply None].
Proof.
  apply (rejected_input_leaves_state (Sample.env 200)
           (Sample.update (Sample.say ", ,")) (Sample.say ", ,")
           (Sample.world [Sample.state 5 awaiting_tags])
           (Sample.state 5 awaiting_tags)).
  - reflexivity.
  - vm_compute. reflexivity.
  - split; vm_compute; reflexivity.
  - vm_compute. reflexivity.
  - right. vm_compute. reflexivity.
Defined.

(** The group flow never touches the repository. *)
Lemma group_no_repo_call env upd msg w :
  message upd = Some msg →
  isGroupChat msg = true →
  kv (handleUpdate env upd w).2 = kv w
  ∧ ∀ e, e ∈ newEvents env upd w → isRepoCall e = false.
Proof.
  intros Hm Hg.
  destruct (handleMention_cases env msg (msgContent msg)
              (botUsername (resolved env w)) (botId (resolved env w))
              (resolved env w)) as (evs & Hrun & Hcases).
  destruct (group_newEvents _ _ _ _ _ Hm Hg Hrun) as [-> Hkv].
  split; [exact Hkv|].
  intros e [He%elem_of_identityEvents|He]%elem_of_app; [by subst e|].
  destruct Hcases as [->|[->|[->|(p & _ & _ & Hd)]]].
  1-3: repeat (apply elem_of_cons in He as [->|He]; [reflexivity|]);
       by apply elem_of_nil in He.
  rewrite dispatchTemplate_run in Hd. injection Hd as Hevs.
  apply app_inv_head in Hevs. subst evs.
  repeat match type of He with
  | context [if ?b then _ else _] => destruct b
  end;
  repeat (apply elem_of_cons in He as [->|He]; [reflexivity|]);
  by apply elem_of_nil in He.
Qed.



Lemma msgText_setCaption cap msg : msgText (setCaption cap msg) = msgText msg.
Proof. reflexivity. Qed.

(** In a private conversation the caption is never read. *)
Lemma private_ignores_caption env msg txt cap w :
  handlePrivate env (setCaption cap msg) txt w = handlePrivate env msg txt w.
Proof. reflexivity. Qed.

Ltac distinct_in H :=
  repeat (apply elem_of_cons in H as [H|H];
          [try discriminate H;
           try (injection H as H; apply (f_equal (take 4)) in H;
                vm_compute in H; discriminate H)|]);
  try (apply elem_of_nil in H; destruct H).

(** C10. In a private conversation the commands and the step inputs are
    read from the text only. A message whose text is empty fires no
    command whatever its caption says: no welcome, no cancellation, no
    dispatch; at the three text steps it is rejected with the state
    untouched; and replacing the caption never changes what
    [handleUpdate] does. *)
Theorem caption_is_never_input env upd msg w :
  message upd = Some msg →
  isGroupChat msg = false →
  msgText msg = [] →
  let c := chat_id (chat msg) in
  let evs := newEvents env upd w in
  ((∀ r, SendMessage c msgWelcome r ∉ evs)
   ∧ (∀ r, SendMessage c msgCancelled r ∉ evs)
   ∧ (∀ r, SendMessage c msgConfirmCancelled r ∉ evs)
   ∧ (∀ pl, SendVideo pl ∉ evs))
  ∧ (∀ st, kv w !! c = Some st →
       step st = awaiting_title ∨ step st = awaiting_description
       ∨ step st = awaiting_tags →
       kv (handleUpdate env upd w).2 = kv w
       ∧ ∃ reply, evs = [RepoGet c; SendMessage c reply None])
  ∧ (∀ cap,
       handleUpdate env
         {| update_id := update_id upd; message := Some (setCaption cap msg) |} w
       = handleUpdate env upd w).
Proof.
  intros Hm Hg Htxt c evs.
  pose proof (handleUpdate_private_run env upd msg w Hm Hg) as Hrun.
  fold evs in Hrun.
  assert (isConfirm (msgText msg) = false) as Hnoconf
    by (rewrite Htxt; vm_compute; reflexivity).
  assert (isCancel (msgText msg) = false) as Hnocancel
    by (rewrite Htxt; vm_compute; reflexivity).
  assert (truthy_str (msgText msg) = false) as Hfalsy by (by rewrite Htxt).
  split; [|split].
  - clearbody evs.
    inversion Hrun; subst;
      repeat match goal with x := _ |- _ => subst x end;
      try congruence;
      try match goal with
      | H : _ = utf16 "/start" |- _ =>
        rewrite H in Htxt; vm_compute in Htxt; discriminate Htxt
      end.
    all: repeat split; intros ? Hin; distinct_in Hin.
  - intros st Hst Hstep.
    assert (notCommand (msgText msg)) as Hnc.
    { split; [rewrite Htxt; vm_compute; reflexivity|exact Hnocancel]. }
    apply (rejection_run env upd msg w st Hm Hg Hnc Hst).
    unfold failsValidation.
    destruct Hstep as [Hs|[Hs|Hs]]; rewrite Hs;
      [exact Htxt|exact Htxt|left; exact Htxt].
  - intros cap. rewrite (handleUpdate_private env upd msg w Hm Hg).
    unfold handleUpdate. cbn [message].
    change (isGroupChat (setCaption cap msg)) with (isGroupChat msg).
    rewrite Hg. apply private_ignores_caption.
Qed.

Lemma caption_is_never_input_witness :
  kv (handleUpdate (Sample.env 200) (Sample.update (Sample.captioned "/cancel"))
        (Sample.world [Sample.state 5 awaiting_title])).2
  = kv (Sample.world [Sample.state 5 awaiting_title])
  ∧ ∃ reply,
      newEvents (Sample.env 200) (Sample.update (Sample.captioned "/cancel"))
        (Sample.world [Sample.state 5 awaiting_title])
      = [RepoGet (chat_id (chat (Sample.captioned "/cancel")));
         SendMessage (chat_id (chat (Sample.captioned "/cancel"))) reply None].
Proof.
  destruct (caption_is_never_input (Sample.env 200)
              (Sample.update (Sample.captioned "/cancel"))
              (Sample.captioned "/cancel")
              (Sample.world [Sample.state 5 awaiting_title]))
    as (_ & Hsteps & _).
  - reflexivity.
  - vm_compute. reflexivity.
  - vm_compute. reflexivity.
  - apply (Hsteps (Sample.state 5 awaiting_title)).
    + vm_compute. reflexivity.
    + left. reflexivity.
Defined.

(** A caption that spells a confirm keyword does not dispatch. *)
Example caption_confirm_is_ignored :
  newEvents (Sample.env 200) (Sample.update (Sample.captioned "/confirm"))
    (Sample.world [Sample.state 5 awaiting_confirm])
  = [RepoGet 5; SendMessage 5 msgConfirmReminder None].
Proof. vm_compute. reflexivity. Qed.
(** ** What the tag parsers return *)

Lemma elem_of_trimStart (x : Z) s : x ∈ trimStart s → x ∈ s.
Proof.
  induction s as [|c r IH]; simpl; [done|].
  destruct (isWhiteSpace c); [|done]. intros ?%IH. by right.
Qed.

Lemma elem_of_trim (x : Z) s : x ∈ trim s → x ∈ s.
Proof.
  unfold trim, trimEnd. intros H.
  apply list_elem_of_In, in_rev, list_elem_of_In, elem_of_trimStart in H.
  apply list_elem_of_In, in_rev, list_elem_of_In in H.
  by apply elem_of_trimStart.
Qed.

Lemma elem_of_stripHash (x : Z) s : x ∈ stripHash s → x ∈ s.
Proof.
  destruct s as [|c r]; [done|]. unfold stripHash.
  repeat case_match; intros Hin; first [exact Hin | by right].
Qed.

(** The pieces of a split, cleaned as the tag parsers do, keep only units
    of the pieces. *)
Lemma tags_of_pieces (P : Z → Prop) pieces :
  Forall (Forall P) pieces →
  Forall (Forall P) (map stripHash (List.filter nonEmpty (map trim pieces))).
Proof.
  intros H. apply Forall_forall. intros tag Htag.
  apply list_elem_of_In, in_map_iff in Htag as (t & <- & Ht).
  apply filter_In in Ht as [Ht _].
  apply in_map_iff in Ht as (piece & <- & Hp).
  apply Forall_forall. intros x Hx%elem_of_stripHash%elem_of_trim.
  rewrite Forall_forall in H. apply list_elem_of_In in Hp.
  specialize (H _ Hp). rewrite Forall_forall in H. by apply H.
Qed.

Lemma split_comma_pieces s skip acc :
  Forall (λ c, c ≠ 44) acc →
  Forall (Forall (λ c, c ≠ 44)) (split_loop (exec_str (utf16 ",")) skip acc s).
Proof.
  revert skip acc. induction s as [|c r IH]; intros skip acc Hacc.
  - constructor; [|constructor]. by apply Forall_rev.
  - cbn [split_loop]. destruct skip as [|n]; [|by apply IH].
    rewrite exec_str_comma. destruct (Z.eqb_spec c 44).
    + constructor; [by apply Forall_rev|]. by apply IH.
    + apply IH. by constructor.
Qed.

(** X1. [parseTags] returns at most 30 tags and no tag contains a
    comma. *)
Theorem parseTags_bounded_comma_free (input : jsstring) :
  (length (parseTags input) ≤ 30)%nat
  ∧ ∀ tag, tag ∈ parseTags input → 44 ∉ tag.
Proof.
  unfold parseTags, slice0. split; [rewrite length_take; lia|].
  intros tag (i & Htag%list_elem_of_lookup_2 & _)%elem_of_take Hin.
  assert (Forall (Forall (λ c, c ≠ 44))
            (map stripHash (List.filter nonEmpty
               (map trim (split (exec_str (utf16 ",")) input))))) as H.
  { apply tags_of_pieces. destruct input as [|c r].
    - vm_compute. repeat constructor.
    - by apply split_comma_pieces. }
  rewrite Forall_forall in H. specialize (H _ Htag).
  rewrite Forall_forall in H. by apply (H 44).
Qed.

Lemma exec_tagSeparator_break c s :
  isTagBreak c = true → ∃ n, exec tagSeparator (c :: s) = Some (S n).
Proof.
  unfold isTagBreak, exec, tagSeparator. intros H. cbn [rmatch].
  assert (∀ p, ∃ n, (length (c :: s) - length (drop (run p s) s) = S n)%nat)
    as Hlen.
  { intros p. exists (length s - length (drop (run p s) s))%nat.
    rewrite length_drop. cbn [length]. lia. }
  destruct (isTagSepChar c) eqn:Hsep.
  - rewrite star_Some. cbn [orelse]. destruct (Hlen isTagSepChar) as [n ->]. eauto.
  - cbn [orelse]. cbn in H. unfold isWaw in H. apply Z.eqb_eq in H. subst c.
    cbn [star]. change (isWhiteSpace 1608) with false. cbv beta iota.
    change (isWaw 1608) with true. cbv beta iota.
    rewrite star_Some. cbn [orelse]. destruct (Hlen isWhiteSpace) as [n ->]. eauto.
Qed.

Lemma split_tag_pieces s skip acc :
  Forall (λ c, isTagBreak c = false) acc →
  Forall (Forall (λ c, isTagBreak c = false))
    (split_loop (exec tagSeparator) skip acc s).
Proof.
  revert skip acc. induction s as [|c r IH]; intros skip acc Hacc.
  - constructor; [|constructor]. by apply Forall_rev.
  - cbn [split_loop]. destruct skip as [|n]; [|by apply IH].
    destruct (isTagBreak c) eqn:Hc.
    + destruct (exec_tagSeparator_break c r Hc) as [n ->].
      constructor; [by apply Forall_rev|]. by apply IH.
    + destruct (exec tagSeparator (c :: r)) as [[|n]|].
      * destruct acc.
        -- apply IH. by repeat constructor.
        -- constructor; [by apply Forall_rev|]. apply IH. by repeat constructor.
      * constructor; [by apply Forall_rev|]. by apply IH.
      * apply IH. by constructor.
Qed.

(** X2. No tag returned by [splitTags] contains a comma, a localized
    comma, a line feed or the letter waw: each of them is a separator
    wherever it stands. *)
Theorem splitTags_tags_have_no_separator (s : jsstring) :
  ∀ tag c, tag ∈ splitTags s → c ∈ tag →
    c ≠ 44 ∧ c ≠ 1548 ∧ c ≠ 10 ∧ c ≠ 1608.
Proof.
  intros tag c Htag Hc.
  assert (isTagBreak c = false) as Hok.
  { unfold splitTags in Htag. destruct s as [|c0 r]; [by apply elem_of_nil in Htag|].
    cbn [truthy_str negb split] in Htag.
    pose proof (tags_of_pieces (λ c, isTagBreak c = false) _
                  (split_tag_pieces (c0 :: r) O [] (Forall_nil_2 _))) as H.
    rewrite Forall_forall in H. specialize (H _ Htag).
    rewrite Forall_forall in H. by apply H. }
  unfold isTagBreak, isTagSepChar, isWaw in Hok.
  repeat split; intros ->; vm_compute in Hok; discriminate Hok.
Qed.

Lemma parseTags_bounded_comma_free_witness :
  (length (parseTags (utf16 "news, #Tech")) ≤ 30)%nat ∧ 44 ∉ utf16 "Tech".
Proof.
  destruct (parseTags_bounded_comma_free (utf16 "news, #Tech")) as [Hlen Hno].
  split; [exact Hlen|]. apply Hno. by_decision.
Defined.

Lemma splitTags_tags_have_no_separator_witness :
  1740 ≠ 44 ∧ 1740 ≠ 1548 ∧ 1740 ≠ 10 ∧ 1740 ≠ 1608.
Proof.
  apply (splitTags_tags_have_no_separator
           (utf16 "آموزش, برنامه نویسی و جاوااسکریپت") (utf16 "یسی") 1740);
    by_decision.
Defined.
(** ** Trimming *)

Lemma trimStart_app_solid a c :
  isWhiteSpace c = false → ∃ z, trimStart (a ++ [c]) = z ++ [c].
Proof.
  intros Hc. induction a as [|x a IH]; simpl.
  - rewrite Hc. by exists [].
  - destruct (isWhiteSpace x); [exact IH|]. by exists (x :: a).
Qed.

(** A string that begins with a unit that is no white space keeps it
    under [trim]. *)
Lemma trim_solid c r :
  isWhiteSpace c = false → ∃ z, trim (c :: r) = c :: z.
Proof.
  intros Hc. unfold trim, trimEnd. cbn [trimStart]. rewrite Hc.
  destruct (trimStart_app_solid (rev r) c Hc) as [z Hz].
  cbn [rev]. rewrite Hz, rev_app_distr. cbn. eauto.
Qed.

Lemma trimStart_head s c r : trimStart s = c :: r → isWhiteSpace c = false.
Proof.
  induction s as [|x s IH]; simpl; [done|].
  destruct (isWhiteSpace x) eqn:Hx; [exact IH|]. by intros [= <- _].
Qed.

(** A non-empty result of [trim] begins with a unit that is no white
    space. *)
Lemma trim_head s c r : trim s = c :: r → isWhiteSpace c = false.
Proof.
  unfold trim, trimEnd. intros H.
  destruct (trimStart s) as [|y t] eqn:Hy; [discriminate H|].
  pose proof (trimStart_head _ _ _ Hy) as Hsolid.
  destruct (trimStart_app_solid (rev t) y Hsolid) as [z Hz].
  cbn [rev] in H. rewrite Hz, rev_app_distr in H. cbn in H.
  by injection H as <- _.
Qed.

Lemma trimStart_blank s : forallb isWhiteSpace s = true → trimStart s = [].
Proof.
  induction s as [|c r IH]; [done|]. simpl.
  intros [-> ?]%andb_true_iff. by apply IH.
Qed.

Lemma trim_blank s : forallb isWhiteSpace s = true → trim s = [].
Proof. intros H. unfold trim. by rewrite (trimStart_blank _ H). Qed.
Lemma trimStart_blank_app b x :
  forallb isWhiteSpace b = true → trimStart (b ++ x) = trimStart x.
Proof.
  induction b as [|c b IH]; [done|]. simpl.
  intros [-> ?]%andb_true_iff. by apply IH.
Qed.

Lemma trimStart_app_solid_head a b c r :
  trimStart a = c :: r → trimStart (a ++ b) = trimStart a ++ b.
Proof.
  induction a as [|x a IH]; simpl; [done|].
  destruct (isWhiteSpace x); [exact IH|done].
Qed.

Lemma trimStart_nil_blank a : trimStart a = [] → forallb isWhiteSpace a = true.
Proof.
  induction a as [|x a IH]; simpl; [done|].
  destruct (isWhiteSpace x); [exact IH|done].
Qed.

Lemma forallb_rev {A} (f : A → bool) l : forallb f (rev l) = forallb f l.
Proof.
  induction l as [|x l IH]; [done|]. simpl.
  rewrite forallb_app, IH. simpl. rewrite andb_true_r. apply andb_comm.
Qed.

(** White space appended to a string is trimmed away. *)
Lemma trim_app_blank a b : forallb isWhiteSpace b = true → trim (a ++ b) = trim a.
Proof.
  intros Hb. unfold trim.
  destruct (trimStart a) as [|c r] eqn:Ha.
  - rewrite trimStart_blank; [done|].
    rewrite forallb_app, Hb, (trimStart_nil_blank _ Ha). done.
  - rewrite (trimStart_app_solid_head a b c r Ha), Ha.
    unfold trimEnd. rewrite rev_app_distr.
    rewrite trimStart_blank_app; [done|]. by rewrite forallb_rev.
Qed.

(** ** Lines *)

(** What [/\r?\n/] matches at the head of a string. *)
Lemma exec_lineBreak c s :
  exec lineBreak (c :: s)
  = if c =? 10 then Some 1%nat
    else if (c =? 13) && match s with c' :: _ => c' =? 10 | [] => false end
         then Some 2%nat else None.
Proof.
  unfold exec, lineBreak. cbn [rmatch orelse].
  rewrite (Z.eqb_sym 13 c), (Z.eqb_sym 10 c).
  destruct (Z.eqb_spec c 13) as [->|H13].
  - change (13 =? 10) with false. cbn [andb].
    destruct s as [|c' s']; [done|]. rewrite (Z.eqb_sym 10 c').
    destruct (c' =? 10); cbn [orelse]; [|done].
    f_equal. cbn [length]. lia.
  - cbn [andb orelse]. destruct (c =? 10); [|done].
    f_equal. cbn [length]. lia.
Qed.

(** The cleaned lines of two texts joined by a line feed are those of the
    first followed by those of the second. *)
Lemma lines_app t1 t2 skip acc :
  (skip ≤ length t1)%nat →
  clean (split_loop (exec lineBreak) skip acc (t1 ++ 10 :: t2))
  = clean (split_loop (exec lineBreak) skip acc t1)
    ++ clean (split_loop (exec lineBreak) O [] t2).
Proof.
  revert skip acc. induction t1 as [|c t1 IH]; intros skip acc Hskip.
  - replace skip with O by (simpl in Hskip; lia).
    cbn [app split_loop]. rewrite exec_lineBreak.
    change (10 =? 10) with true. cbv iota.
    rewrite !clean_cons. change (clean []) with (@nil jsstring).
    by rewrite app_nil_r.
  - cbn [app split_loop]. destruct skip as [|n].
    2:{ apply IH. simpl in Hskip. lia. }
    rewrite !exec_lineBreak.
    destruct (c =? 10) eqn:H10.
    { rewrite !clean_cons, <- app_assoc. f_equal. apply IH. lia. }
    destruct (c =? 13) eqn:H13; cbn [andb]; [|apply IH; lia].
    destruct t1 as [|c' t1'].
    + cbn [app]. change (10 =? 10) with true. cbv iota.
      cbn [split_loop]. rewrite !clean_cons. cbn [rev].
      rewrite trim_app_blank.
      2:{ apply Z.eqb_eq in H13. subst c. reflexivity. }
      change (clean []) with (@nil jsstring).
      by rewrite app_nil_r.
    + cbn [app]. destruct (c' =? 10).
      * rewrite !clean_cons, <- app_assoc. f_equal. apply IH. cbn. lia.
      * apply IH. lia.
Qed.
(** ** The template parser *)

Lemma parseGroupTemplate_stages isUrl input u :
  parseGroupTemplate isUrl input u
  = templateOfVars (fold_left (parserStep isUrl) (templateLines input u) parserInit).
Proof. reflexivity. Qed.

Lemma split_lineBreak s :
  split (exec lineBreak) s = split_loop (exec lineBreak) O [] s.
Proof. by destruct s. Qed.

Lemma templateLines_clean input u :
  templateLines input u
  = clean (split_loop (exec lineBreak) O [] (mentionStripped input u)).
Proof. unfold templateLines. by rewrite split_lineBreak. Qed.

(** Every line the loop sees is non-empty and begins with a unit that is
    no white space. *)
Lemma clean_solid pieces : Forall startsSolid (clean pieces).
Proof.
  apply Forall_forall. intros l Hl.
  apply list_elem_of_In, filter_In in Hl as [Hl Hne].
  apply in_map_iff in Hl as (piece & <- & _).
  destruct (trim piece) as [|c r] eqn:Ht; [discriminate Hne|].
  by apply (trim_head piece c r).
Qed.

Lemma templateLines_solid input u : Forall startsSolid (templateLines input u).
Proof. apply clean_solid. Qed.

(** Pieces made of white space leave no line. *)
Lemma lines_blank (m : jsstring → option nat) s skip acc :
  forallb isWhiteSpace acc = true →
  forallb isWhiteSpace s = true →
  clean (split_loop m skip acc s) = [].
Proof.
  revert skip acc. induction s as [|c r IH]; intros skip acc Hacc Hs.
  - cbn [split_loop]. rewrite clean_cons, trim_blank; [done|].
    by rewrite forallb_rev.
  - apply andb_true_iff in Hs as [Hc Hr]. cbn [split_loop].
    assert (clean [rev acc] = []) as Hpiece.
    { rewrite clean_cons, trim_blank; [done|]. by rewrite forallb_rev. }
    assert (forallb isWhiteSpace (c :: acc) = true) as Hacc'
      by (cbn; by rewrite Hc, Hacc).
    destruct skip as [|n]; [|by apply IH].
    destruct (m (c :: r)) as [[|n]|].
    + destruct acc.
      * apply IH; [|done]. cbn. by rewrite Hc.
      * rewrite clean_cons, trim_blank by (by rewrite forallb_rev).
        apply IH; [|done]. cbn. by rewrite Hc.
    + rewrite clean_cons, trim_blank by (by rewrite forallb_rev).
      by apply IH.
    + by apply IH.
Qed.

Lemma eq_ci_10 a : a ≠ 10 → eq_ci a 10 = false.
Proof.
  intros Ha. unfold eq_ci, lowerUnit. change ((65 <=? 10) && (10 <=? 90)) with false.
  cbv iota. destruct ((65 <=? a) && (a <=? 90)) eqn:E; lia.
Qed.

Lemma startsWith_ci_app_lf p x y :
  10 ∉ p → startsWith_ci p (x ++ 10 :: y) = startsWith_ci p x.
Proof.
  revert x. induction p as [|a p IH]; intros x Hp; [by destruct x|].
  assert (a ≠ 10) by (intros ->; apply Hp; by left).
  assert (10 ∉ p) by (intros ?; apply Hp; by right).
  destruct x as [|b x]; cbn [app startsWith_ci].
  - by rewrite eq_ci_10.
  - by rewrite IH.
Qed.

Lemma startsWith_ci_length p x :
  startsWith_ci p x = true → (length p ≤ length x)%nat.
Proof.
  revert x. induction p as [|a p IH]; intros [|b x]; simpl; try done; [lia|].
  intros [_ H%IH]%andb_true_iff. lia.
Qed.

(** Removing the mention works line by line when the handle holds no
    line feed. *)
Lemma removeAll_ci_app_lf p t1 t2 skip :
  p ≠ [] → 10 ∉ p → (skip ≤ length t1)%nat →
  removeAll_ci p skip (t1 ++ 10 :: t2)
  = removeAll_ci p skip t1 ++ 10 :: removeAll_ci p O t2.
Proof.
  intros Hne Hp. revert skip. induction t1 as [|c t1 IH]; intros skip Hskip.
  - replace skip with O by (simpl in Hskip; lia).
    cbn [app removeAll_ci].
    pose proof (startsWith_ci_app_lf p [] t2 Hp) as Hsw. cbn [app] in Hsw.
    rewrite Hsw. destruct p; [done|]. reflexivity.
  - cbn [app removeAll_ci]. destruct skip as [|n].
    2:{ apply IH. simpl in Hskip. lia. }
    change (c :: t1 ++ 10 :: t2) with ((c :: t1) ++ 10 :: t2).
    rewrite (startsWith_ci_app_lf p (c :: t1) t2 Hp).
    destruct (startsWith_ci p (c :: t1)) eqn:Hm.
    + apply IH. apply startsWith_ci_length in Hm. simpl in Hm. lia.
    + cbn [app]. f_equal. apply IH. lia.
Qed.

Lemma removeAll_ci_blank u ws :
  forallb isWhiteSpace ws = true → removeAll_ci (utf16 "@" ++ u) O ws = ws.
Proof.
  change (utf16 "@" ++ u) with (64 :: u).
  induction ws as [|c ws IH]; [done|]. intros [Hc Hws]%andb_true_iff.
  cbn [removeAll_ci startsWith_ci].
  assert (eq_ci 64 c = false) as ->.
  { unfold eq_ci, lowerUnit. change ((65 <=? 64) && (64 <=? 90)) with false.
    cbv iota. destruct ((65 <=? c) && (c <=? 90)) eqn:E; [lia|].
    destruct (Z.eqb_spec 64 c) as [<-|]; [|done]. vm_compute in Hc. discriminate Hc. }
  cbn [andb]. f_equal. by apply IH.
Qed.

Lemma mentionStripped_blank_line t1 ws t2 u :
  (∀ h, u = Some h → 10 ∉ h) →
  forallb isWhiteSpace ws = true →
  mentionStripped (t1 ++ 10 :: ws ++ 10 :: t2) u
  = mentionStripped t1 u ++ 10 :: ws ++ 10 :: mentionStripped t2 u
  ∧ mentionStripped (t1 ++ 10 :: t2) u
    = mentionStripped t1 u ++ 10 :: mentionStripped t2 u.
Proof.
  intros Hu Hws. unfold mentionStripped.
  destruct u as [h|]; [|done]. destruct (truthy_str h); [|done].
  assert (10 ∉ utf16 "@" ++ h) as Hp.
  { change (utf16 "@" ++ h) with (64 :: h).
    intros H. apply elem_of_cons in H as [H|H]; [discriminate H|].
    by apply (Hu h). }
  assert (utf16 "@" ++ h ≠ []) as Hne
    by (change (utf16 "@" ++ h) with (64 :: h); discriminate).
  split.
  - rewrite removeAll_ci_app_lf by (done || lia).
    rewrite removeAll_ci_app_lf by (done || lia).
    by rewrite (removeAll_ci_blank h ws Hws).
  - by rewrite removeAll_ci_app_lf by (done || lia).
Qed.

(** X3. Blank lines do not matter: a line of white space inserted
    between two lines of the text leaves the parse result as it was (for a
    handle without a line feed). *)
Theorem parseGroupTemplate_ignores_blank_lines isUrl t1 ws t2 u :
  (∀ h, u = Some h → 10 ∉ h) →
  forallb isWhiteSpace ws = true →
  parseGroupTemplate isUrl (t1 ++ [10] ++ ws ++ [10] ++ t2) u
  = parseGroupTemplate isUrl (t1 ++ [10] ++ t2) u.
Proof.
  intros Hu Hws. rewrite !parseGroupTemplate_stages. f_equal. f_equal.
  rewrite !templateLines_clean. cbn [app].
  destruct (mentionStripped_blank_line t1 ws t2 u Hu Hws) as [-> ->].
  rewrite !lines_app by lia.
  rewrite (lines_blank _ ws O []) by done. reflexivity.
Qed.

Lemma parseGroupTemplate_ignores_blank_lines_witness :
  parseGroupTemplate (startsWith (utf16 "https://"))
    (utf16 "@MyBot عنوان:" ++ [10] ++ utf16 "  " ++ [10] ++ utf16 "سلام")
    (Some (utf16 "MyBot"))
  = parseGroupTemplate (startsWith (utf16 "https://"))
      (utf16 "@MyBot عنوان:" ++ [10] ++ utf16 "سلام") (Some (utf16 "MyBot")).
Proof.
  apply (parseGroupTemplate_ignores_blank_lines (startsWith (utf16 "https://"))
           (utf16 "@MyBot عنوان:") (utf16 "  ") (utf16 "سلام")
           (Some (utf16 "MyBot"))).
  - intros h [= <-]. by_decision.
  - vm_compute. reflexivity.
Defined.
Lemma fold_without_header isUrl lines :
  Forall (λ l, isHeader l = None) lines →
  fold_left (parserStep isUrl) lines parserInit = parserInit.
Proof.
  induction 1 as [|l lines Hl _ IH]; [done|].
  cbn [fold_left]. unfold parserStep at 2. rewrite Hl. exact IH.
Qed.

(** X4. A text none of whose lines is a header parses to nothing,
    whatever it contains: lines before the first header are dropped. *)
Theorem parseGroupTemplate_needs_a_header isUrl input u :
  Forall (λ l, isHeader l = None) (templateLines input u) →
  parseGroupTemplate isUrl input u = None.
Proof.
  intros H. rewrite parseGroupTemplate_stages, (fold_without_header _ _ H).
  vm_compute. reflexivity.
Qed.

Lemma parseGroupTemplate_needs_a_header_witness :
  parseGroupTemplate (startsWith (utf16 "https://"))
    (utf16 "@MyBot سلام" ++ [10] ++ utf16 "https://t.me/c/1")
    (Some (utf16 "MyBot"))
  = None.
Proof.
  apply parseGroupTemplate_needs_a_header.
  apply Forall_forall. intros l Hl.
  vm_compute in Hl.
  apply elem_of_cons in Hl as [->|Hl]; [vm_compute; reflexivity|].
  apply elem_of_cons in Hl as [->|Hl]; [vm_compute; reflexivity|].
  by apply elem_of_nil in Hl.
Defined.

Lemma parserStep_ok isUrl v l :
  varsOk isUrl v → startsSolid l → varsOk isUrl (parserStep isUrl v l).
Proof.
  intros (Hlink & Htitle & Hdesc & Htags) Hl. unfold parserStep.
  destruct (isHeader l); [done|].
  destruct (section v); try done.
  - destruct (negb (truthy_ostr (v_source_link v)) && isUrl l) eqn:Hc; [|done].
    apply andb_true_iff in Hc as [_ Hurl].
    repeat split; try done. cbn. by intros ? [= <-].
  - destruct (negb (truthy_ostr (v_title v))); [|done].
    repeat split; try done. cbn. by intros ? [= <-].
  - repeat split; try done. cbn. apply Forall_app. split; [done|by constructor].
  - repeat split; try done. cbn. apply Forall_app. split; [done|by constructor].
Qed.

Lemma fold_ok isUrl lines v :
  Forall startsSolid lines → varsOk isUrl v →
  varsOk isUrl (fold_left (parserStep isUrl) lines v).
Proof.
  intros H. revert v. induction H as [|l lines Hl _ IH]; intros v Hv; [done|].
  cbn [fold_left]. apply IH. by apply parserStep_ok.
Qed.

Lemma startsSolid_trim s : startsSolid s → trim s ≠ [].
Proof.
  destruct s as [|c r]; [done|]. intros Hc.
  destruct (trim_solid c r Hc) as [z ->]. discriminate.
Qed.

Lemma startsSolid_take n s : startsSolid s → startsSolid (take (S n) s).
Proof. by destruct s. Qed.

Lemma startsSolid_join sep x r : startsSolid x → startsSolid (join sep (x :: r)).
Proof. destruct x as [|c x]; [done|]. intros H. by destruct r. Qed.

Lemma templateOfVars_Some v p :
  templateOfVars v = Some p →
  source_link p = v_source_link v
  ∧ title p = option_map (slice0 100) (v_title v)
  ∧ description p = orUndefined (slice0 5000 (join [10] (v_desc v)))
  ∧ tags p = (if (0 <? length (splitTags (join (utf16 " ") (v_tagsRaw v))))%nat
              then Some (slice0 30 (splitTags (join (utf16 " ") (v_tagsRaw v))))
              else None)
  ∧ (truthy_ostr (title p) = true ∨ truthy_ostr (description p) = true
     ∨ ∃ tl, tags p = Some tl ∧ tl ≠ []).
Proof.
  unfold templateOfVars.
  match goal with |- (if ?b then _ else _) = _ → _ => destruct b eqn:Hnull end;
    [discriminate|].
  intros Heq. apply (inj Some) in Heq. subst p.
  cbv beta iota zeta delta [source_link title description tags] in *.
  split; [reflexivity|]. split; [reflexivity|]. split; [reflexivity|].
  split; [reflexivity|].
  apply andb_false_iff in Hnull as [Hnull|Hnull];
    [apply andb_false_iff in Hnull as [Hnull|Hnull]|].
  - left. by apply negb_false_iff.
  - right. left. by apply negb_false_iff.
  - right. right.
    match type of Hnull with match ?o with _ => _ end = _ =>
      destruct o as [tl|] eqn:Ho; [|discriminate Hnull] end.
    exists tl. split; [reflexivity|]. intros ->. discriminate Hnull.
Qed.

Lemma parseGroupTemplate_bounds isUrl input u p :
  parseGroupTemplate isUrl input u = Some p →
  (∀ t, title p = Some t → (0 < length t ≤ 100)%nat ∧ trim t ≠ [])
  ∧ (∀ d, description p = Some d → (0 < length d ≤ 5000)%nat ∧ trim d ≠ [])
  ∧ (∀ tl, tags p = Some tl → (0 < length tl ≤ 30)%nat)
  ∧ (∀ l, source_link p = Some l → isUrl l = true)
  ∧ (is_Some (title p) ∨ is_Some (description p) ∨ is_Some (tags p)).
Proof.
  rewrite parseGroupTemplate_stages.
  pose proof (fold_ok isUrl (templateLines input u) parserInit
                (templateLines_solid input u)) as Hok.
  destruct Hok as (Hlink & Htitle & Hdesc & Htags).
  { repeat split; try done; constructor. }
  set (v := fold_left (parserStep isUrl) (templateLines input u) parserInit) in *.
  intros (-> & -> & -> & -> & Hsome)%templateOfVars_Some. clearbody v.
  split; [|split; [|split; [|split]]].
  - intros t Ht. destruct (v_title v) as [t0|] eqn:Ht0; [|discriminate Ht].
    assert (t = slice0 100 t0) as -> by (cbn [option_map] in Ht; congruence).
    clear Ht. specialize (Htitle t0 eq_refl).
    assert (startsSolid (slice0 100 t0)) as Hs
      by (by apply (startsSolid_take 99)).
    split; [|by apply startsSolid_trim].
    unfold slice0 in *. rewrite length_take. split; [|lia].
    destruct t0; [done|]. cbn [length]. lia.
  - intros d Hd. unfold orUndefined in Hd.
    match type of Hd with (if ?b then _ else _) = _ =>
      destruct b eqn:Htr; [|discriminate Hd] end.
    assert (d = slice0 5000 (join [10] (v_desc v))) as -> by congruence.
    clear Hd. unfold slice0 in *.
    destruct (v_desc v) as [|x r] eqn:Hv; [discriminate Htr|].
    apply Forall_cons in Hdesc as [Hx _].
    assert (startsSolid (take 5000 (join [10] (x :: r)))) as Hs.
    { apply (startsSolid_take 4999). by apply startsSolid_join. }
    split; [|by apply startsSolid_trim].
    rewrite length_take. split; [|lia].
    destruct (join [10] (x :: r)); [done|]. cbn [length]. lia.
  - intros tl Htl.
    match type of Htl with (if ?b then _ else _) = _ =>
      destruct b eqn:Hlen; [|discriminate Htl] end.
    match type of Hlen with (0 <? length ?l)%nat = _ =>
      assert (tl = slice0 30 l) as -> by congruence end.
    clear Htl. apply Nat.ltb_lt in Hlen.
    unfold slice0. rewrite length_take. lia.
  - exact Hlink.
  - destruct Hsome as [H|[H|(tl & H & _)]].
    + left. destruct (option_map _ _); [by eexists|discriminate H].
    + right. left. destruct (orUndefined _); [by eexists|discriminate H].
    + right. right. rewrite H. by eexists.
Qed.

(** X5. What [parseGroupTemplate] returns is within the caps and not
    blank: a title of 1 to 100 units, a description of 1 to 5000 units,
    both with more than white space in them, 1 to 30 tags, a source link
    that passed the URL test, and at least one of title, description and
    tags. *)
Theorem parseGroupTemplate_result_bounds isUrl input u p :
  parseGroupTemplate isUrl input u = Some p →
  (∀ t, title p = Some t → (0 < length t ≤ 100)%nat ∧ trim t ≠ [])
  ∧ (∀ d, description p = Some d → (0 < length d ≤ 5000)%nat ∧ trim d ≠ [])
  ∧ (∀ tl, tags p = Some tl → (0 < length tl ≤ 30)%nat)
  ∧ (∀ l, source_link p = Some l → isUrl l = true)
  ∧ (is_Some (title p) ∨ is_Some (description p) ∨ is_Some (tags p)).
Proof. apply parseGroupTemplate_bounds. Qed.

Lemma parseGroupTemplate_result_bounds_witness :
  let p := Sample.parsedTemplate true in
  let isUrl := startsWith (utf16 "https://") in
  (∀ t, title p = Some t → (0 < length t ≤ 100)%nat ∧ trim t ≠ [])
  ∧ (∀ d, description p = Some d → (0 < length d ≤ 5000)%nat ∧ trim d ≠ [])
  ∧ (∀ tl, tags p = Some tl → (0 < length tl ≤ 30)%nat)
  ∧ (∀ l, source_link p = Some l → isUrl l = true)
  ∧ (is_Some (title p) ∨ is_Some (description p) ∨ is_Some (tags p)).
Proof.
  intros p isUrl.
  apply (parseGroupTemplate_result_bounds isUrl (Sample.template true)
           (Some (utf16 "MyBot")) p).
  vm_compute. reflexivity.
Defined.

Lemma filter_pad_blank pad :
  forallb isPad pad = true →
  forallb isWhiteSpace
    (List.filter (λ c, negb ((c =? 58) || (c =? 65306))) pad) = true.
Proof.
  induction pad as [|c pad IH]; [done|]. cbn [forallb List.filter].
  intros [Hc Hpad]%andb_true_iff.
  destruct ((c =? 58) || (c =? 65306)) eqn:Hcolon; cbn [negb]; [by apply IH|].
  cbn [forallb]. rewrite (IH Hpad), andb_true_r.
  unfold isPad in Hc. rewrite <- orb_assoc, Hcolon, orb_false_r in Hc. exact Hc.
Qed.

(** X6. Header lines are recognised whatever surrounds the word: white
    space and colons (ASCII or full width) before and after a line do not
    change what [isHeader] answers. *)
Theorem isHeader_ignores_padding pre line post :
  forallb isPad pre = true →
  forallb isPad post = true →
  isHeader (pre ++ line ++ post) = isHeader line.
Proof.
  intros Hpre Hpost.
  assert (trim (List.filter (λ c, negb ((c =? 58) || (c =? 65306)))
                  (pre ++ line ++ post))
          = trim (List.filter (λ c, negb ((c =? 58) || (c =? 65306))) line))
    as Heq.
  { rewrite !List.filter_app, app_assoc.
    rewrite trim_app_blank by (by apply filter_pad_blank).
    unfold trim. by rewrite trimStart_blank_app by (by apply filter_pad_blank). }
  unfold isHeader. by rewrite Heq.
Qed.

Lemma isHeader_ignores_padding_witness :
  isHeader (utf16 " : " ++ utf16 "عنوان" ++ utf16 " ：")
  = isHeader (utf16 "عنوان").
Proof.
  apply isHeader_ignores_padding; vm_compute; reflexivity.
Defined.

(** The header words and their sections. *)
Example isHeader_table :
  map isHeader
    [utf16 "آپلود"; utf16 "کانال"; utf16 "عنوان"; utf16 "توضیح"; utf16 "تگ ها";
     utf16 "تگ‌ها"; utf16 "تگها"; utf16 "تگ"; utf16 "تگ  ها"; utf16 "عنوان ویدیو"]
  = [Some sec_upload; Some sec_channel; Some sec_title; Some sec_desc;
     Some sec_tags; Some sec_tags; Some sec_tags; Some sec_tags; Some sec_tags;
     None].
Proof. vm_compute. reflexivity. Qed.
(** ** More on the update processor *)

Ltac invert_wizard Hrun :=
  inversion Hrun; subst;
  repeat match goal with x := _ |- _ => subst x end.

Lemma notCommand_start txt : notCommand txt → txt ≠ utf16 "/start".
Proof. intros [H _] ->. vm_compute in H. discriminate H. Qed.

(** X7. [/start] in a private conversation always leaves a fresh state
    at [awaiting_video] with no field filled, whatever was stored before,
    and touches no other conversation. *)
Theorem start_resets_the_wizard env upd msg w :
  message upd = Some msg →
  isGroupChat msg = false →
  msgText msg = utf16 "/start" →
  let c := chat_id (chat msg) in
  newEvents env upd w
  = [RepoDelete c; RepoSave (freshState c awaiting_video None (env_now env));
     SendMessage c msgWelcome None]
  ∧ kv (handleUpdate env upd w).2 !! c
    = Some (freshState c awaiting_video None (env_now env))
  ∧ ∀ c', c' ≠ c → kv (handleUpdate env upd w).2 !! c' = kv w !! c'.
Proof.
  intros Hm Hg Htxt c.
  pose proof (handleUpdate_private_run env upd msg w Hm Hg) as Hrun.
  assert (str_eqb (msgText msg) (utf16 "/start") = true) as Hs
    by (rewrite Htxt; vm_compute; reflexivity).
  invert_wizard Hrun;
    try match goal with H : notCommand _ |- _ =>
      destruct H as [H _]; congruence end;
    try congruence.
  split; [reflexivity|]. split.
  - apply lookup_insert_eq.
  - intros c' Hc'. rewrite lookup_insert_ne by done. by apply lookup_delete_ne.
Qed.

Lemma start_resets_the_wizard_witness :
  kv (handleUpdate (Sample.env 200) (Sample.update (Sample.say "/start"))
        (Sample.world [Sample.state 5 awaiting_confirm])).2 !! 5
  = Some (freshState 5 awaiting_video None 1700000100).
Proof.
  destruct (start_resets_the_wizard (Sample.env 200)
              (Sample.update (Sample.say "/start")) (Sample.say "/start")
              (Sample.world [Sample.state 5 awaiting_confirm]))
    as (_ & H & _).
  - reflexivity.
  - vm_compute. reflexivity.
  - vm_compute. reflexivity.
  - exact H.
Defined.

Lemma unmentioned_group_message_is_ignored_aux env upd msg w :
  message upd = Some msg →
  isGroupChat msg = true →
  isMentioned msg (botUsername (resolved env w)) (botId (resolved env w)) = false →
  newEvents env upd w = identityEvents w
  ∧ kv (handleUpdate env upd w).2 = kv w.
Proof.
  intros Hm Hg Hment.
  destruct (group_newEvents env upd msg w [] Hm Hg) as [Hevs Hkv].
  - unfold handleMention. rewrite Hment. cbn [negb]. by rewrite extend_nil.
  - by rewrite Hevs, app_nil_r.
Qed.

(** X8. A group message that does not mention the bot is ignored: apart
    from the identity lookup there is no call at all, no reply, and the
    repository is unchanged. This is for an ASCII handle and a text and
    caption without the two units that lower-case into Basic Latin,
    where the mention test of the embedding is the program's. *)
Theorem unmentioned_group_message_is_ignored env upd msg w :
  message upd = Some msg →
  isGroupChat msg = true →
  mentionDomain msg (botUsername (resolved env w)) →
  isMentioned msg (botUsername (resolved env w)) (botId (resolved env w)) = false →
  newEvents env upd w = identityEvents w
  ∧ kv (handleUpdate env upd w).2 = kv w.
Proof.
  intros Hm Hg _ Hment.
  by apply (unmentioned_group_message_is_ignored_aux env upd msg w).
Qed.

Lemma unmentioned_group_message_is_ignored_witness :
  newEvents (Sample.env 200)
    (Sample.update (Sample.msg (-100) "group" 7 (Some (utf16 "سلام @MyBo"))))
    (Sample.world [])
  = identityEvents (Sample.world [])
  ∧ kv (handleUpdate (Sample.env 200)
          (Sample.update (Sample.msg (-100) "group" 7 (Some (utf16 "سلام @MyBo"))))
          (Sample.world [])).2
    = kv (Sample.world []).
Proof.
  apply (unmentioned_group_message_is_ignored (Sample.env 200) _
           (Sample.msg (-100) "group" 7 (Some (utf16 "سلام @MyBo")))).
  - reflexivity.
  - vm_compute. reflexivity.
  - repeat split; vm_compute; reflexivity.
  - vm_compute. reflexivity.
Defined.

(** X9. When the identity lookup yields neither a handle nor an id (an
    answer that is not JSON, or one without a result) and nothing is
    cached, no group message counts as a mention: the only call is the
    lookup, whatever the message says. *)
Theorem unresolved_identity_mutes_the_bot env upd msg w :
  message upd = Some msg →
  isGroupChat msg = true →
  botUsername w = None →
  botId w = None →
  env_getMe env = None ∨ env_getMe env = Some None →
  newEvents env upd w = [GetMe]
  ∧ kv (handleUpdate env upd w).2 = kv w.
Proof.
  intros Hm Hg Hu Hi Hme.
  assert (botUsername (resolved env w) = None
          ∧ botId (resolved env w) = None) as [Hu' Hi'].
  { unfold resolved, ensureBotIdentity, tg_getMe, getMeResult.
    cbv [mbind M_bind mret M_ret getIdentity emit setIdentity].
    rewrite Hu, Hi. cbn. by destruct Hme as [->| ->]. }
  destruct (unmentioned_group_message_is_ignored_aux env upd msg w Hm Hg)
    as [Hevs Hkv].
  { rewrite Hu', Hi'. reflexivity. }
  split; [|exact Hkv]. rewrite Hevs. unfold identityEvents. by rewrite Hu, Hi.
Qed.
Lemma unresolved_identity_mutes_the_bot_witness :
  newEvents Sample2.muteEnv (Sample.update Sample.linkedReply) (Sample.world [])
  = [GetMe]
  ∧ kv (handleUpdate Sample2.muteEnv (Sample.update Sample.linkedReply)
          (Sample.world [])).2
    = kv (Sample.world []).
Proof.
  apply (unresolved_identity_mutes_the_bot Sample2.muteEnv _ Sample.linkedReply).
  - reflexivity.
  - vm_compute. reflexivity.
  - reflexivity.
  - reflexivity.
  - left. reflexivity.
Defined.

(** X10. The group flow is stateless: whatever a group message holds,
    no call on the state repository is made and the repository is
    unchanged. *)
Theorem group_flow_is_stateless env upd msg w :
  message upd = Some msg →
  isGroupChat msg = true →
  kv (handleUpdate env upd w).2 = kv w
  ∧ ∀ e, e ∈ newEvents env upd w → isRepoCall e = false.
Proof. apply group_no_repo_call. Qed.

Lemma group_flow_is_stateless_witness :
  kv (handleUpdate (Sample.env 500) (Sample.update Sample.linkedReply)
        (Sample.world [Sample.state (-100) awaiting_confirm])).2
  = kv (Sample.world [Sample.state (-100) awaiting_confirm])
  ∧ ∀ e, e ∈ newEvents (Sample.env 500) (Sample.update Sample.linkedReply)
               (Sample.world [Sample.state (-100) awaiting_confirm]) →
         isRepoCall e = false.
Proof.
  apply (group_flow_is_stateless (Sample.env 500) _ Sample.linkedReply).
  - reflexivity.
  - vm_compute. reflexivity.
Defined.

(** X11. One reply per private update: every private message, whatever
    the state and the outcome, is answered with exactly one text message,
    sent to its own conversation and not as a reply to a message. *)
Theorem private_update_gets_one_reply env upd msg w :
  message upd = Some msg →
  isGroupChat msg = false →
  ∃ body, sentMessages (newEvents env upd w)
          = [(chat_id (chat msg), body, None)].
Proof.
  intros Hm Hg.
  pose proof (handleUpdate_private_run env upd msg w Hm Hg) as Hrun.
  invert_wizard Hrun; eexists; reflexivity.
Qed.

Lemma private_update_gets_one_reply_witness :
  ∃ body, sentMessages
            (newEvents (Sample.env 500) (Sample.update (Sample.say "Confirm"))
               (Sample.world [Sample.state 5 awaiting_confirm]))
          = [(chat_id (chat (Sample.say "Confirm")), body, None)].
Proof.
  apply (private_update_gets_one_reply (Sample.env 500) _ (Sample.say "Confirm")).
  - reflexivity.
  - vm_compute. reflexivity.
Defined.

(** X12. A mentioned or unmentioned group message gets at most one text
    message, and it is a reply to that message in its own chat. *)
Theorem group_update_gets_at_most_one_reply env upd msg w :
  message upd = Some msg →
  isGroupChat msg = true →
  sentMessages (newEvents env upd w) = []
  ∨ ∃ body, sentMessages (newEvents env upd w)
            = [(chat_id (chat msg), body, Some (message_id msg))].
Proof.
  intros Hm Hg.
  destruct (handleMention_cases env msg (msgContent msg)
              (botUsername (resolved env w)) (botId (resolved env w))
              (resolved env w)) as (evs & Hrun & Hcases).
  destruct (group_newEvents _ _ _ _ _ Hm Hg Hrun) as [-> _].
  assert (sentMessages (identityEvents w ++ evs) = sentMessages evs) as ->.
  { unfold identityEvents. by destruct (_ && _). }
  destruct Hcases as [->|[->|[->|(p & _ & _ & Hd)]]];
    [by left|right; by eexists|right; by eexists|].
  rewrite dispatchTemplate_run in Hd. injection Hd as Hevs.
  apply app_inv_head in Hevs. subst evs. right.
  repeat match goal with
  | |- context [if ?b then _ else _] => destruct b
  end; eexists; reflexivity.
Qed.

Lemma group_update_gets_at_most_one_reply_witness :
  sentMessages (newEvents (Sample.env 200) (Sample.update Sample.linkedReply)
                  (Sample.world [])) = []
  ∨ ∃ body, sentMessages
              (newEvents (Sample.env 200) (Sample.update Sample.linkedReply)
                 (Sample.world []))
            = [(chat_id (chat Sample.linkedReply), body,
                Some (message_id Sample.linkedReply))].
Proof.
  apply (group_update_gets_at_most_one_reply (Sample.env 200) _ Sample.linkedReply).
  - reflexivity.
  - vm_compute. reflexivity.
Defined.
(** X13. The wizard hands a video to n8n only on a confirm keyword, at
    the confirm step, with a stored state that has a video, a title, a
    description and tags; and then exactly once, with the payload built
    from that state. *)
Theorem wizard_dispatches_only_on_confirm env upd msg w p :
  message upd = Some msg →
  isGroupChat msg = false →
  p ∈ sentVideos (newEvents env upd w) →
  ∃ st, kv w !! chat_id (chat msg) = Some st
        ∧ step st = awaiting_confirm
        ∧ isConfirm (msgText msg) = true
        ∧ confirmReady st = true
        ∧ sentVideos (newEvents env upd w) = [wizardPayload msg st].
Proof.
  intros Hm Hg.
  pose proof (handleUpdate_private_run env upd msg w Hm Hg) as Hrun.
  invert_wizard Hrun; cbn [sentVideos omap option_bind mbind];
    try (intros Hin; by apply elem_of_nil in Hin);
    intros _; eexists; repeat split; eassumption.
Qed.

Lemma wizard_dispatches_only_on_confirm_witness :
  ∃ st, kv (Sample.world [Sample.state 5 awaiting_confirm])
          !! chat_id (chat (Sample.say "Confirm")) = Some st
        ∧ step st = awaiting_confirm
        ∧ isConfirm (msgText (Sample.say "Confirm")) = true
        ∧ confirmReady st = true
        ∧ sentVideos (newEvents (Sample.env 200)
                        (Sample.update (Sample.say "Confirm"))
                        (Sample.world [Sample.state 5 awaiting_confirm]))
          = [wizardPayload (Sample.say "Confirm") st].
Proof.
  apply (wizard_dispatches_only_on_confirm (Sample.env 200) _
           (Sample.say "Confirm") _
           (wizardPayload (Sample.say "Confirm") (Sample.state 5 awaiting_confirm))).
  - reflexivity.
  - vm_compute. reflexivity.
  - assert (sentVideos (newEvents (Sample.env 200)
                          (Sample.update (Sample.say "Confirm"))
                          (Sample.world [Sample.state 5 awaiting_confirm]))
            = [wizardPayload (Sample.say "Confirm")
                 (Sample.state 5 awaiting_confirm)]) as ->
      by (vm_compute; reflexivity).
    apply elem_of_cons. left. reflexivity.
Defined.

(** X14. A stored state the wizard cannot use is thrown away: with an
    unknown step, or at the confirm step with a field missing when the
    user confirms, the conversation's state is deleted, nothing is saved
    and nothing is handed to n8n. *)
Theorem unusable_state_is_purged env upd msg w st :
  message upd = Some msg →
  isGroupChat msg = false →
  notCommand (msgText msg) →
  kv w !! chat_id (chat msg) = Some st →
  stepIndex (step st) = None
  ∨ (step st = awaiting_confirm ∧ isConfirm (msgText msg) = true
     ∧ confirmReady st = false) →
  kv (handleUpdate env upd w).2 = delete (chat_id (chat msg)) (kv w)
  ∧ sentVideos (newEvents env upd w) = []
  ∧ ∀ s, RepoSave s ∉ newEvents env upd w.
Proof.
  intros Hm Hg Hcmd Hst Hbad.
  pose proof (handleUpdate_private_run env upd msg w Hm Hg) as Hrun.
  pose proof (notCommand_start _ Hcmd) as Hstart.
  destruct Hcmd as [Hc1 Hc2].
  invert_wizard Hrun;
    try congruence;
    repeat match goal with
    | H1 : kv w !! _ = Some ?a, H2 : kv w !! _ = Some ?b |- _ =>
      assert (a = b) by congruence; subst a; clear H1
    end;
    try (destruct Hbad as [Hbad|(Hb1 & Hb2 & Hb3)];
         [match goal with H : step _ = _ |- _ => rewrite H in Hbad end;
          discriminate Hbad
         |congruence]).
  - split; [reflexivity|]. split; [reflexivity|].
    intros s Hin. repeat (apply elem_of_cons in Hin as [Hin|Hin]; [discriminate Hin|]).
    by apply elem_of_nil in Hin.
  - split; [reflexivity|]. split; [reflexivity|].
    intros s Hin. repeat (apply elem_of_cons in Hin as [Hin|Hin]; [discriminate Hin|]).
    by apply elem_of_nil in Hin.
Qed.
Lemma unusable_state_is_purged_witness :
  let w := Sample.world [Sample2.strayState] in
  let upd := Sample.update (Sample.say "hello") in
  kv (handleUpdate (Sample.env 200) upd w).2
  = delete (chat_id (chat (Sample.say "hello"))) (kv w)
  ∧ sentVideos (newEvents (Sample.env 200) upd w) = []
  ∧ ∀ s, RepoSave s ∉ newEvents (Sample.env 200) upd w.
Proof.
  intros w upd.
  apply (unusable_state_is_purged (Sample.env 200) upd (Sample.say "hello") w
           Sample2.strayState).
  - reflexivity.
  - vm_compute. reflexivity.
  - split; vm_compute; reflexivity.
  - vm_compute. reflexivity.
  - left. reflexivity.
Defined.

(** ** The store across updates *)

Lemma storeWf_insert k c st : storeWf k → chatId st = c → storeWf (<[c := st]> k).
Proof.
  intros Hwf Hc c' st'. destruct (decide (c = c')) as [<-|Hne].
  - rewrite lookup_insert_eq. congruence.
  - rewrite lookup_insert_ne by done. apply Hwf.
Qed.

Lemma storeWf_delete k c : storeWf k → storeWf (delete c k).
Proof.
  intros Hwf c' st'. destruct (decide (c = c')) as [<-|Hne].
  - by rewrite lookup_delete_eq.
  - rewrite lookup_delete_ne by done. apply Hwf.
Qed.

Ltac other_key :=
  intros c' Hc';
  rewrite ?lookup_insert_ne by done;
  rewrite ?lookup_delete_ne by done;
  reflexivity.

(** X15. Conversations do not interfere: if every stored state sits
    under its own chat id, one update keeps it so and leaves the state
    of every other conversation as it was. *)
Theorem conversations_are_isolated env upd msg w :
  message upd = Some msg →
  storeWf (kv w) →
  storeWf (kv (handleUpdate env upd w).2)
  ∧ ∀ c', c' ≠ chat_id (chat msg) →
          kv (handleUpdate env upd w).2 !! c' = kv w !! c'.
Proof.
  intros Hm Hwf. destruct (isGroupChat msg) eqn:Hg.
  { destruct (group_no_repo_call env upd msg w Hm Hg) as [-> _]. by split. }
  pose proof (handleUpdate_private_run env upd msg w Hm Hg) as Hrun.
  invert_wizard Hrun;
    repeat match goal with
    | H : kv w !! _ = Some ?a |- _ =>
      pose proof (Hwf _ _ H); clear H
    end;
    cbn [chatId setStep withVideo withTitle withDescription withTags freshState];
    repeat match goal with H : chatId _ = _ |- _ => rewrite H end;
    (split; [|other_key]);
    repeat first [assumption | apply storeWf_insert | apply storeWf_delete
                 | reflexivity].
Qed.

Lemma conversations_are_isolated_witness :
  let w := Sample.world [Sample.state 5 awaiting_title; Sample.state 6 awaiting_tags] in
  let upd := Sample.update (Sample.say "My title") in
  storeWf (kv (handleUpdate (Sample.env 200) upd w).2)
  ∧ ∀ c', c' ≠ chat_id (chat (Sample.say "My title")) →
          kv (handleUpdate (Sample.env 200) upd w).2 !! c' = kv w !! c'.
Proof.
  intros w upd.
  apply (conversations_are_isolated (Sample.env 200) upd (Sample.say "My title") w).
  - reflexivity.
  - intros c st. subst w. cbn [Sample.world kv map list_to_map foldr Sample.state
                                 chatId fst snd uncurry].
    destruct (decide (c = 5)) as [->|H5].
    { rewrite lookup_insert_eq. intros [= <-]. reflexivity. }
    rewrite lookup_insert_ne by done.
    destruct (decide (c = 6)) as [->|H6].
    { rewrite lookup_insert_eq. intros [= <-]. reflexivity. }
    rewrite lookup_insert_ne by done. rewrite lookup_empty. discriminate.
Defined.
Lemma storeOk_insert k c st : storeOk k → stateOk st → storeOk (<[c := st]> k).
Proof.
  intros Hok Hst c' st'. destruct (decide (c = c')) as [<-|Hne].
  - rewrite lookup_insert_eq. congruence.
  - rewrite lookup_insert_ne by done. apply Hok.
Qed.

Lemma storeOk_delete k c : storeOk k → storeOk (delete c k).
Proof.
  intros Hok c' st'. destruct (decide (c = c')) as [<-|Hne].
  - by rewrite lookup_delete_eq.
  - rewrite lookup_delete_ne by done. apply Hok.
Qed.

Lemma limit_length s n : (length (limit s n) ≤ n)%nat.
Proof.
  unfold limit, slice0. destruct (Nat.ltb_spec n (length s)).
  - rewrite length_take. lia.
  - lia.
Qed.

Lemma limit_solid s n : startsSolid s → startsSolid (limit s (S n)).
Proof.
  intros Hs. unfold limit, slice0. destruct (_ <? _)%nat; [|exact Hs].
  by apply startsSolid_take.
Qed.

Lemma msgText_solid msg : truthy_str (msgText msg) = true → startsSolid (msgText msg).
Proof.
  unfold msgText. destruct (trim _) as [|c r] eqn:Ht; [discriminate|].
  intros _. cbn [startsSolid]. by apply trim_head in Ht.
Qed.

Lemma parseTags_length s : (length (parseTags s) ≤ 30)%nat.
Proof. unfold parseTags, slice0. rewrite length_take. lia. Qed.

Lemma stateOk_fresh c s v now : stateOk (freshState c s v now).
Proof. repeat split; discriminate. Qed.

(** X16. The caps are an invariant of the store: if every stored title
    is at most 100 units and every stored description at most 5000,
    neither starting with white space, and every stored tag list has 1
    to 30 tags, the same holds after any update. *)
Theorem stored_fields_stay_within_caps env upd w :
  storeOk (kv w) → storeOk (kv (handleUpdate env upd w).2).
Proof.
  intros Hok. destruct (message upd) as [msg|] eqn:Hm.
  2:{ unfold handleUpdate. by rewrite Hm. }
  destruct (isGroupChat msg) eqn:Hg.
  { by destruct (group_no_repo_call env upd msg w Hm Hg) as [-> _]. }
  pose proof (handleUpdate_private_run env upd msg w Hm Hg) as Hrun.
  invert_wizard Hrun;
    repeat match goal with
    | H : kv w !! _ = Some ?a |- _ =>
      pose proof (Hok _ _ H) as (Htitle & Hdesc & Htags); clear H
    end;
    repeat first [assumption | apply storeOk_delete | apply storeOk_insert
                 | apply stateOk_fresh];
    (split; [|split]);
    cbn [st_title st_description st_tags setStep withVideo withTitle
         withDescription withTags];
    try assumption.
  - intros t [= <-]. split; [|apply limit_length].
    apply limit_solid. by apply msgText_solid.
  - intros d [= <-]. split; [|apply limit_length].
    apply limit_solid. by apply msgText_solid.
  - intros ts [= <-]. split; [|apply parseTags_length].
    destruct (parseTags (msgText msg)); [done|cbn [length]; lia].
Qed.

Lemma stateOk_sample c s : stateOk (Sample.state c s).
Proof.
  split; [|split]; intros x [= <-]; [split; [reflexivity|]..|];
    vm_compute; lia.
Qed.

Lemma stored_fields_stay_within_caps_witness :
  storeOk (kv (handleUpdate (Sample.env 200) (Sample.update (Sample.say "My title"))
                 (Sample.world [Sample.state 5 awaiting_title])).2).
Proof.
  apply (stored_fields_stay_within_caps (Sample.env 200)
           (Sample.update (Sample.say "My title"))
           (Sample.world [Sample.state 5 awaiting_title])).
  intros c st. cbn [Sample.world kv map list_to_map foldr fst snd uncurry].
  destruct (decide (c = chatId (Sample.state 5 awaiting_title))) as [->|Hne].
  - rewrite lookup_insert_eq. intros [= <-]. apply stateOk_sample.
  - rewrite lookup_insert_ne by done. rewrite lookup_empty. discriminate.
Defined.
(** ** The metadata validator *)

Lemma pushIf_empty cond e errors :
  (length (pushIf cond e errors) =? 0)%nat
  = negb cond && (length errors =? 0)%nat.
Proof.
  unfold pushIf. destruct cond; [|reflexivity].
  rewrite length_app. cbn [length negb andb].
  apply Nat.eqb_neq. lia.
Qed.

Lemma val_ok_conditions meta :
  val_ok (validateYouTubeMetadata meta)
  = negb (30 <? length (default [] (meta_tags meta)))%nat
    && (negb (5000 <? length (or_empty (meta_description meta)))%nat
    && (negb (100 <? length (or_empty (meta_title meta)))%nat
    && (negb (match meta_tags meta with
              | None => true
              | Some t => (length t =? 0)%nat
              end)
    && (negb (negb (truthy_ostr (meta_description meta))
              || (length (trim (or_empty (meta_description meta))) =? 0)%nat)
    && (negb (negb (truthy_ostr (meta_title meta))
              || (length (trim (or_empty (meta_title meta))) =? 0)%nat)
    && true))))).
Proof.
  unfold validateYouTubeMetadata. cbv zeta. cbn [val_ok].
  by rewrite !pushIf_empty.
Qed.

Lemma required_text o :
  negb (negb (truthy_ostr o) || (length (trim (or_empty o)) =? 0)%nat) = true
  ↔ ∃ t, o = Some t ∧ trim t ≠ [].
Proof.
  rewrite negb_true_iff, orb_false_iff, negb_false_iff, Nat.eqb_neq.
  split.
  - intros [_ Hlen]. destruct o as [t|]; [|by vm_compute in Hlen].
    exists t. split; [reflexivity|]. intros Ht. apply Hlen.
    change (or_empty (Some t)) with t. by rewrite Ht.
  - intros (t & -> & Ht). unfold truthy_ostr.
    change (or_empty (Some t)) with t. split.
    + destruct t; [by vm_compute in Ht|reflexivity].
    + destruct (trim t); [done|cbn [length]; lia].
Qed.

Lemma validateYouTubeMetadata_ok_iff_aux meta :
  val_ok (validateYouTubeMetadata meta) = true
  ↔ (∃ t, meta_title meta = Some t ∧ trim t ≠ [] ∧ (length t ≤ 100)%nat)
    ∧ (∃ d, meta_description meta = Some d ∧ trim d ≠ []
            ∧ (length d ≤ 5000)%nat)
    ∧ (∃ ts, meta_tags meta = Some ts ∧ (0 < length ts ≤ 30)%nat).
Proof.
  rewrite val_ok_conditions, !andb_true_iff, !required_text,
    !negb_true_iff, !Nat.ltb_ge.
  split.
  - intros (Hn & Hd & Ht & Htags & (d & Hde & Hdt) & (t & Hte & Htt) & _).
    rewrite Hte, Hde in *. change (or_empty (Some t)) with t in *.
    change (or_empty (Some d)) with d in *.
    split; [by exists t|]. split; [by exists d|].
    destruct (meta_tags meta) as [ts|]; [|discriminate Htags].
    exists ts. split; [reflexivity|]. change (default [] (Some ts)) with ts in Hn.
    apply Nat.eqb_neq in Htags. lia.
  - intros ((t & Hte & Htt & Htl) & (d & Hde & Hdt & Hdl) & (ts & Htse & Hts)).
    rewrite Hte, Hde, Htse. change (or_empty (Some t)) with t.
    change (or_empty (Some d)) with d. change (default [] (Some ts)) with ts.
    repeat split; try lia; try (eexists; split; [reflexivity|assumption]).
    apply Nat.eqb_neq. lia.
Qed.

(** X17. [validateYouTubeMetadata] accepts exactly the metadata with a
    title of at most 100 units and a description of at most 5000 units,
    both with more than white space in them, and 1 to 30 tags. *)
Theorem validateYouTubeMetadata_ok_iff meta :
  val_ok (validateYouTubeMetadata meta) = true
  ↔ (∃ t, meta_title meta = Some t ∧ trim t ≠ [] ∧ (length t ≤ 100)%nat)
    ∧ (∃ d, meta_description meta = Some d ∧ trim d ≠ []
            ∧ (length d ≤ 5000)%nat)
    ∧ (∃ ts, meta_tags meta = Some ts ∧ (0 < length ts ≤ 30)%nat).
Proof. apply validateYouTubeMetadata_ok_iff_aux. Qed.

(** X18. The length checks of [validateYouTubeMetadata] count what is
    there: a missing or empty field is reported as required and never as
    too long, so an empty record gets exactly the three "required"
    errors. *)
Theorem validateYouTubeMetadata_missing_fields meta :
  or_empty (meta_title meta) = [] →
  or_empty (meta_description meta) = [] →
  default [] (meta_tags meta) = [] →
  val_errors (validateYouTubeMetadata meta)
  = [utf16 "عنوان الزامی است"; utf16 "توضیحات الزامی است";
     utf16 "حداقل یک تگ لازم است"].
Proof.
  intros Ht Hd Hts. unfold validateYouTubeMetadata, truthy_ostr. cbv zeta.
  cbn [val_errors]. rewrite Ht, Hd, Hts.
  assert ((match meta_tags meta with
           | None => true
           | Some t => (length t =? 0)%nat
           end) = true) as ->.
  { destruct (meta_tags meta) as [ts|]; [|reflexivity].
    change (default [] (Some ts)) with ts in Hts. by rewrite Hts. }
  reflexivity.
Qed.

Lemma validateYouTubeMetadata_missing_fields_witness :
  val_errors (validateYouTubeMetadata
                {| meta_title := None; meta_description := Some [];
                   meta_tags := Some [] |})
  = [utf16 "عنوان الزامی است"; utf16 "توضیحات الزامی است";
     utf16 "حداقل یک تگ لازم است"].
Proof.
  apply (validateYouTubeMetadata_missing_fields
           {| meta_title := None; meta_description := Some [];
              meta_tags := Some [] |}); reflexivity.
Defined.
(** ** What is handed to n8n *)

Lemma sentVideos_identity w evs :
  sentVideos (identityEvents w ++ evs) = sentVideos evs.
Proof. unfold identityEvents. by destruct (_ && _). Qed.

Lemma sentVideos_action c a evs :
  sentVideos (SendChatAction c a :: evs) = sentVideos evs.
Proof. reflexivity. Qed.

Lemma sentVideos_getFile f evs : sentVideos (GetFile f :: evs) = sentVideos evs.
Proof. reflexivity. Qed.

Lemma sentVideos_video p evs : sentVideos (SendVideo p :: evs) = p :: sentVideos evs.
Proof. reflexivity. Qed.

(** The one way a group message reaches n8n. *)
Lemma group_dispatch env upd msg w p :
  message upd = Some msg →
  isGroupChat msg = true →
  p ∈ sentVideos (newEvents env upd w) →
  let u := botUsername (resolved env w) in
  ∃ parsed,
    isMentioned msg u (botId (resolved env w)) = true
    ∧ parseGroupTemplate (env_isUrl env) (msgContent msg) u = Some parsed
    ∧ templateComplete (Some parsed) = true
    ∧ let vid := or_empty (videoFileId parsed msg) in
      let fc := getFileResult env vid in
      trim vid ≠ []
      ∧ fc_ok fc = true
      ∧ p = groupPayload msg parsed vid fc
      ∧ newEvents env upd w
        = identityEvents w
          ++ [SendChatAction (chat_id (chat msg)) (utf16 "typing");
              GetFile vid; SendVideo p;
              SendMessage (chat_id (chat msg))
                (if resp_ok (env_sendVideo env p) then msgGroupOk
                 else msgN8nError (env_sendVideo env p))
                (Some (message_id msg))].
Proof.
  intros Hm Hg Hin u.
  set (w1 := resolved env w). set (i := botId w1).
  assert (∃ evs, handleMention env msg (msgContent msg) u i w1
                 = (tt, extend w1 evs)) as (evs & Hrun).
  { destruct (handleMention_cases env msg (msgContent msg) u i w1)
      as (evs & Hrun & _). by exists evs. }
  destruct (group_newEvents _ _ _ _ _ Hm Hg Hrun) as [Hevs _].
  rewrite Hevs, sentVideos_identity in Hin. rewrite Hevs. clear Hevs.
  assert (∀ x y z, ¬ p ∈ sentVideos [SendMessage x y z]) as Hno.
  { intros x y z H. by apply elem_of_nil in H. }
  unfold handleMention in Hrun.
  destruct (isMentioned msg u i) eqn:Hment; cbn [negb] in Hrun.
  2:{ rewrite <- (extend_nil w1) in Hrun at 1.
      injection Hrun as Hrun. apply app_inv_head in Hrun. subst evs.
      by apply elem_of_nil in Hin. }
  assert (∀ x y z, tg_sendMessage x y z w1 = (tt, extend w1 evs) →
                   evs = [SendMessage x y z]) as Hmsg.
  { intros x y z H. injection H as H. by apply app_inv_head in H. }
  destruct (truthy_str (msgContent msg)).
  2:{ apply Hmsg in Hrun. subst evs. by apply Hno in Hin. }
  destruct (parseGroupTemplate (env_isUrl env) (msgContent msg) u)
    as [parsed|] eqn:Hp.
  2:{ apply Hmsg in Hrun. subst evs. by apply Hno in Hin. }
  destruct (templateComplete (Some parsed)) eqn:Hc.
  2:{ apply Hmsg in Hrun. subst evs. by apply Hno in Hin. }
  exists parsed. split; [reflexivity|]. split; [reflexivity|].
  split; [exact Hc|].
  rewrite dispatchTemplate_run in Hrun. injection Hrun as Hrun.
  apply app_inv_head in Hrun. subst evs.
  rewrite sentVideos_action in Hin.
  destruct (truthy_ostr (videoFileId parsed msg)); cbn [negb] in *.
  2:{ by apply Hno in Hin. }
  rewrite sentVideos_getFile in Hin.
  destruct (fc_ok (getFileResult env (or_empty (videoFileId parsed msg))));
    cbn [negb] in *.
  2:{ by apply Hno in Hin. }
  destruct (Nat.eqb_spec (length (trim (or_empty (videoFileId parsed msg)))) 0)
    as [Hz|Hz].
  { by apply Hno in Hin. }
  rewrite sentVideos_video in Hin.
  apply elem_of_cons in Hin as [->|Hin].
  2:{ by apply elem_of_nil in Hin. }
  split; [|split; [reflexivity|split; reflexivity]].
  intros Ht. apply Hz. by rewrite Ht.
Qed.

(** X19. A group message reaches n8n only through a checked file: the
    template parsed and was complete, [getFile] accepted a video
    reference that is not blank, and the call to n8n is the third of
    exactly four calls, after the typing action and the file check and
    before the one reply. And the bot was mentioned: this last for an
    ASCII handle and a text and caption without the two units that
    lower-case into Basic Latin, where the mention test of the embedding
    is the program's. *)
Theorem group_dispatch_follows_file_check env upd msg w p :
  message upd = Some msg →
  isGroupChat msg = true →
  p ∈ sentVideos (newEvents env upd w) →
  let u := botUsername (resolved env w) in
  (mentionDomain msg u → isMentioned msg u (botId (resolved env w)) = true)
  ∧ ∃ parsed,
      parseGroupTemplate (env_isUrl env) (msgContent msg) u = Some parsed
      ∧ templateComplete (Some parsed) = true
      ∧ let vid := or_empty (videoFileId parsed msg) in
        let fc := getFileResult env vid in
        trim vid ≠ []
        ∧ fc_ok fc = true
        ∧ p = groupPayload msg parsed vid fc
        ∧ newEvents env upd w
          = identityEvents w
            ++ [SendChatAction (chat_id (chat msg)) (utf16 "typing");
                GetFile vid; SendVideo p;
                SendMessage (chat_id (chat msg))
                  (if resp_ok (env_sendVideo env p) then msgGroupOk
                   else msgN8nError (env_sendVideo env p))
                  (Some (message_id msg))].
Proof.
  intros Hm Hg Hin u.
  destruct (group_dispatch env upd msg w p Hm Hg Hin)
    as (parsed & Hment & Hrest).
  split; [by intros _|]. by exists parsed.
Qed.

Lemma group_dispatch_follows_file_check_witness :
  let env := Sample.env 200 in
  let msg := Sample.linkedReply in
  let w := Sample.world [] in
  let upd := Sample.update msg in
  let p := groupPayload msg (Sample.parsedTemplate true)
             (or_empty (videoFileId (Sample.parsedTemplate true) msg))
             (getFileResult env
                (or_empty (videoFileId (Sample.parsedTemplate true) msg))) in
  let u := botUsername (resolved env w) in
  (mentionDomain msg u → isMentioned msg u (botId (resolved env w)) = true)
  ∧ ∃ parsed,
      parseGroupTemplate (env_isUrl env) (msgContent msg) u = Some parsed
      ∧ templateComplete (Some parsed) = true
      ∧ let vid := or_empty (videoFileId parsed msg) in
        let fc := getFileResult env vid in
        trim vid ≠ []
        ∧ fc_ok fc = true
        ∧ p = groupPayload msg parsed vid fc
        ∧ newEvents env upd w
          = identityEvents w
            ++ [SendChatAction (chat_id (chat msg)) (utf16 "typing");
                GetFile vid; SendVideo p;
                SendMessage (chat_id (chat msg))
                  (if resp_ok (env_sendVideo env p) then msgGroupOk
                   else msgN8nError (env_sendVideo env p))
                  (Some (message_id msg))].
Proof.
  intros env msg w upd p.
  apply (group_dispatch_follows_file_check env upd msg w p).
  - reflexivity.
  - vm_compute. reflexivity.
  - assert (sentVideos (newEvents env upd w) = [p]) as ->
      by (vm_compute; reflexivity).
    apply elem_of_cons. left. reflexivity.
Defined.

(** The sample message is within the domain of the mention test. *)
Example linkedReply_in_mention_domain :
  mentionDomain Sample.linkedReply
    (botUsername (resolved (Sample.env 200) (Sample.world []))).
Proof. repeat split; vm_compute; reflexivity. Qed.

Lemma complete_text o : truthy_ostr o = true → ∃ t, o = Some t.
Proof. destruct o as [t|]; [by exists t|discriminate]. Qed.

(** X20. Whatever a group message makes the bot hand to n8n passes
    [validateYouTubeMetadata]: the caps of the template parser and the
    completeness test before the dispatch are at least as strict as the
    validator. *)
Theorem group_dispatch_is_valid env upd msg w p :
  message upd = Some msg →
  isGroupChat msg = true →
  p ∈ sentVideos (newEvents env upd w) →
  val_ok (validateYouTubeMetadata (payloadMeta p)) = true.
Proof.
  intros Hm Hg Hin.
  destruct (group_dispatch env upd msg w p Hm Hg Hin)
    as (parsed & _ & Hp & Hc & _ & _ & -> & _).
  apply parseGroupTemplate_bounds in Hp as (Ht & Hd & Htags & _).
  unfold templateComplete in Hc.
  apply andb_true_iff in Hc as [[(t & Hte)%complete_text (d & Hde)%complete_text]%andb_true_iff Hc].
  destruct (tags parsed) as [ts|] eqn:Htse; [|discriminate Hc].
  apply validateYouTubeMetadata_ok_iff_aux.
  unfold payloadMeta, groupPayload.
  cbv beta iota delta [meta_title meta_description meta_tags p_title
                       p_description p_tags].
  rewrite Hte, Hde, Htse.
  change (or_empty (Some t)) with t. change (or_empty (Some d)) with d.
  change (default [] (Some ts)) with ts.
  destruct (Ht t Hte) as [Htl Htt]. destruct (Hd d Hde) as [Hdl Hdt].
  specialize (Htags ts eq_refl).
  split; [exists t; repeat split; [assumption|lia]|].
  split; [exists d; repeat split; [assumption|lia]|].
  exists ts. split; [reflexivity|lia].
Qed.

Lemma group_dispatch_is_valid_witness :
  let env := Sample.env 200 in
  let msg := Sample.linkedReply in
  let p := groupPayload msg (Sample.parsedTemplate true)
             (or_empty (videoFileId (Sample.parsedTemplate true) msg))
             (getFileResult env
                (or_empty (videoFileId (Sample.parsedTemplate true) msg))) in
  val_ok (validateYouTubeMetadata (payloadMeta p)) = true.
Proof.
  intros env msg p.
  apply (group_dispatch_is_valid env (Sample.update msg) msg (Sample.world []) p).
  - reflexivity.
  - vm_compute. reflexivity.
  - assert (sentVideos (newEvents env (Sample.update msg) (Sample.world [])) = [p])
      as -> by (vm_compute; reflexivity).
    apply elem_of_cons. left. reflexivity.
Defined.

(** X21. Under the caps invariant of the store, whatever the wizard
    hands to n8n passes [validateYouTubeMetadata]. *)
Theorem wizard_dispatch_is_valid env upd msg w p :
  message upd = Some msg →
  isGroupChat msg = false →
  storeOk (kv w) →
  p ∈ sentVideos (newEvents env upd w) →
  val_ok (validateYouTubeMetadata (payloadMeta p)) = true.
Proof.
  intros Hm Hg Hok.
  pose proof (handleUpdate_private_run env upd msg w Hm Hg) as Hrun.
  assert (∀ st, kv w !! chat_id (chat msg) = Some st →
                confirmReady st = true →
                val_ok (validateYouTubeMetadata
                          (payloadMeta (wizardPayload msg st))) = true) as Hvalid.
  { intros st Hst Hready. destruct (Hok _ _ Hst) as (Ht & Hd & Htags).
    unfold confirmReady in Hready.
    apply andb_true_iff in Hready as [[[_ (t & Hte)%complete_text]%andb_true_iff
                                         (d & Hde)%complete_text]%andb_true_iff
                                        Hts%bool_decide_eq_true].
    destruct Hts as [ts Htse].
    apply validateYouTubeMetadata_ok_iff_aux.
    unfold payloadMeta, wizardPayload.
    cbv beta iota delta [meta_title meta_description meta_tags p_title
                         p_description p_tags].
    rewrite Hte, Hde, Htse.
    change (or_empty (Some t)) with t. change (or_empty (Some d)) with d.
    change (default [] (Some ts)) with ts.
    destruct (Ht t Hte) as [Htt Htl]. destruct (Hd d Hde) as [Hdt Hdl].
    specialize (Htags ts Htse).
    split; [exists t; repeat split; [by apply startsSolid_trim|lia]|].
    split; [exists d; repeat split; [by apply startsSolid_trim|lia]|].
    exists ts. split; [reflexivity|lia]. }
  invert_wizard Hrun; cbn [sentVideos omap option_bind mbind];
    try (intros Hin; by apply elem_of_nil in Hin);
    intros Hin; apply elem_of_cons in Hin as [->|Hin];
    try (by apply elem_of_nil in Hin); by apply Hvalid.
Qed.

Lemma wizard_dispatch_is_valid_witness :
  val_ok (validateYouTubeMetadata
            (payloadMeta (wizardPayload (Sample.say "Confirm")
                            (Sample.state 5 awaiting_confirm)))) = true.
Proof.
  apply (wizard_dispatch_is_valid (Sample.env 200)
           (Sample.update (Sample.say "Confirm")) (Sample.say "Confirm")
           (Sample.world [Sample.state 5 awaiting_confirm])).
  - reflexivity.
  - vm_compute. reflexivity.
  - intros c st. cbn [Sample.world kv map list_to_map foldr fst snd uncurry].
    destruct (decide (c = chatId (Sample.state 5 awaiting_confirm))) as [->|Hne].
    + rewrite lookup_insert_eq. intros [= <-]. apply stateOk_sample.
    + rewrite lookup_insert_ne by done. rewrite lookup_empty. discriminate.
  - assert (sentVideos (newEvents (Sample.env 200)
                          (Sample.update (Sample.say "Confirm"))
                          (Sample.world [Sample.state 5 awaiting_confirm]))
            = [wizardPayload (Sample.say "Confirm")
                 (Sample.state 5 awaiting_confirm)]) as ->
      by (vm_compute; reflexivity).
    apply elem_of_cons. left. reflexivity.
Defined.
(** ** The wizard from the first video to the dispatch *)

Ltac wizard_path Hrun Hcmd :=
  let Hstart := fresh "Hstart" in
  pose proof (notCommand_start _ Hcmd) as Hstart;
  destruct Hcmd as [? ?];
  invert_wizard Hrun; try congruence;
  repeat match goal with
  | H1 : ?m !! ?i = Some ?a, H2 : ?m !! ?i = Some ?b |- _ =>
    rewrite H1 in H2; injection H2 as ->
  end; try congruence.

Lemma implicit_start env upd msg w c v :
  privateInput c upd msg →
  kv w !! c = None →
  video msg = Some v →
  kv (after env upd w)
  = <[c := freshState c awaiting_title (Some (video_file_id v)) (env_now env)]>
      (kv w).
Proof.
  intros (Hm & Hg & <- & Hcmd) Hst Hv. unfold after.
  pose proof (handleUpdate_private_run env upd msg w Hm Hg) as Hrun.
  wizard_path Hrun Hcmd.
Qed.

Lemma title_accepted env upd msg w c st :
  privateInput c upd msg →
  kv w !! c = Some st →
  step st = awaiting_title →
  truthy_str (msgText msg) = true →
  kv (after env upd w)
  = <[chatId st := setStep (withTitle st (limit (msgText msg) 100))
                     awaiting_description (env_now env)]> (kv w).
Proof.
  intros (Hm & Hg & <- & Hcmd) Hst Hstep Htxt. unfold after.
  pose proof (handleUpdate_private_run env upd msg w Hm Hg) as Hrun.
  wizard_path Hrun Hcmd.
  match goal with H : msgText msg = [] |- _ => rewrite H in Htxt end.
  discriminate Htxt.
Qed.

Lemma description_accepted env upd msg w c st :
  privateInput c upd msg →
  kv w !! c = Some st →
  step st = awaiting_description →
  truthy_str (msgText msg) = true →
  kv (after env upd w)
  = <[chatId st := setStep (withDescription st (limit (msgText msg) 5000))
                     awaiting_tags (env_now env)]> (kv w).
Proof.
  intros (Hm & Hg & <- & Hcmd) Hst Hstep Htxt. unfold after.
  pose proof (handleUpdate_private_run env upd msg w Hm Hg) as Hrun.
  wizard_path Hrun Hcmd.
  match goal with H : msgText msg = [] |- _ => rewrite H in Htxt end.
  discriminate Htxt.
Qed.

Lemma tags_accepted env upd msg w c st :
  privateInput c upd msg →
  kv w !! c = Some st →
  step st = awaiting_tags →
  parseTags (msgText msg) ≠ [] →
  kv (after env upd w)
  = <[chatId st := setStep (withTags st (parseTags (msgText msg)))
                     awaiting_confirm (env_now env)]> (kv w).
Proof.
  intros (Hm & Hg & <- & Hcmd) Hst Hstep Htags. unfold after.
  pose proof (handleUpdate_private_run env upd msg w Hm Hg) as Hrun.
  wizard_path Hrun Hcmd.
  match goal with H : msgText msg = [] |- _ => rewrite H in Htags end.
  by vm_compute in Htags.
Qed.

Lemma limit_truthy s n : truthy_str s = true → truthy_str (limit s (S n)) = true.
Proof.
  unfold limit, slice0. destruct (_ <? _)%nat; [|done]. by destruct s.
Qed.

(** X22. The wizard end to end: in a conversation without state, a video
    with a file id, then a title, a description and tags, then a confirm
    keyword, hand exactly one payload to n8n; it holds that file id, the
    title cut to 100 units, the description cut to 5000 units and the
    parsed tags; and when n8n accepts it the conversation is without
    state again and the store is what it was before the video. *)
Theorem wizard_walkthrough c v e1 e2 e3 e4 e5 u1 u2 u3 u4 u5 m1 m2 m3 m4 m5 w :
  kv w !! c = None →
  privateInput c u1 m1 → video m1 = Some v →
  truthy_str (video_file_id v) = true →
  privateInput c u2 m2 → truthy_str (msgText m2) = true →
  privateInput c u3 m3 → truthy_str (msgText m3) = true →
  privateInput c u4 m4 → parseTags (msgText m4) ≠ [] →
  message u5 = Some m5 → isGroupChat m5 = false → chat_id (chat m5) = c →
  isConfirm (msgText m5) = true →
  let w4 := after e4 u4 (after e3 u3 (after e2 u2 (after e1 u1 w))) in
  ∃ p, sentVideos (newEvents e5 u5 w4) = [p]
       ∧ pv_file_id (p_video p) = video_file_id v
       ∧ p_title p = limit (msgText m2) 100
       ∧ p_description p = limit (msgText m3) 5000
       ∧ p_tags p = parseTags (msgText m4)
       ∧ (resp_ok (env_sendVideo e5 p) = true → kv (after e5 u5 w4) = kv w).
Proof.
  intros Hnone H1 Hv Hvid H2 Ht2 H3 Ht3 H4 Ht4 Hm5 Hg5 Hc5 Hconf w4.
  pose proof (implicit_start e1 u1 m1 w c v H1 Hnone Hv) as Hk1.
  set (w1 := after e1 u1 w) in *.
  set (s1 := freshState c awaiting_title (Some (video_file_id v)) (env_now e1)) in *.
  assert (kv w1 !! c = Some s1) as Hs1 by (rewrite Hk1; apply lookup_insert_eq).
  pose proof (title_accepted e2 u2 m2 w1 c s1 H2 Hs1 eq_refl Ht2) as Hk2.
  set (w2 := after e2 u2 w1) in *.
  set (s2 := setStep (withTitle s1 (limit (msgText m2) 100))
               awaiting_description (env_now e2)) in *.
  change (chatId s1) with c in Hk2.
  assert (kv w2 !! c = Some s2) as Hs2 by (rewrite Hk2; apply lookup_insert_eq).
  pose proof (description_accepted e3 u3 m3 w2 c s2 H3 Hs2 eq_refl Ht3) as Hk3.
  set (w3 := after e3 u3 w2) in *.
  set (s3 := setStep (withDescription s2 (limit (msgText m3) 5000))
               awaiting_tags (env_now e3)) in *.
  change (chatId s2) with c in Hk3.
  assert (kv w3 !! c = Some s3) as Hs3 by (rewrite Hk3; apply lookup_insert_eq).
  pose proof (tags_accepted e4 u4 m4 w3 c s3 H4 Hs3 eq_refl Ht4) as Hk4.
  set (s4 := setStep (withTags s3 (parseTags (msgText m4)))
               awaiting_confirm (env_now e4)) in *.
  change (chatId s3) with c in Hk4. fold w4 in Hk4.
  assert (kv w4 !! chat_id (chat m5) = Some s4) as Hs4
    by (rewrite Hc5, Hk4; apply lookup_insert_eq).
  assert (confirmReady s4 = true) as Hready.
  { unfold confirmReady, truthy_ostr.
    change (or_empty (st_video_file_id s4)) with (video_file_id v).
    change (or_empty (st_title s4)) with (limit (msgText m2) 100).
    change (or_empty (st_description s4)) with (limit (msgText m3) 5000).
    rewrite Hvid, !limit_truthy by assumption. reflexivity. }
  destruct (confirm_run e5 u5 m5 w4 s4 Hm5 Hg5 Hs4 eq_refl Hready Hconf)
    as [Hyes Hno].
  exists (wizardPayload m5 s4).
  split.
  { destruct (resp_ok (env_sendVideo e5 (wizardPayload m5 s4))).
    - destruct (Hyes eq_refl) as [-> _]. reflexivity.
    - destruct (Hno eq_refl) as [-> _]. reflexivity. }
  split; [reflexivity|]. split; [reflexivity|]. split; [reflexivity|].
  split; [reflexivity|].
  intros Hok. destruct (Hyes Hok) as [_ Hk5]. unfold after. rewrite Hk5, Hc5, Hk4.
  rewrite Hk3, Hk2, Hk1.
  apply map_eq. intros k. destruct (decide (k = c)) as [->|Hne].
  - by rewrite lookup_delete_eq, Hnone.
  - rewrite lookup_delete_ne by done. by rewrite !lookup_insert_ne.
Qed.
Lemma wizard_walkthrough_witness :
  let e := Sample.env 200 in
  let u1 := Sample.update (Sample2.video "VID-9") in
  let u2 := Sample.update (Sample.say "My title") in
  let u3 := Sample.update (Sample.say "About it") in
  let u4 := Sample.update (Sample.say "a, b") in
  let u5 := Sample.update (Sample.say "confirm") in
  let w := Sample.world [] in
  let w4 := after e u4 (after e u3 (after e u2 (after e u1 w))) in
  ∃ p, sentVideos (newEvents e u5 w4) = [p]
       ∧ pv_file_id (p_video p) = video_file_id (Sample.videoOf (utf16 "VID-9"))
       ∧ p_title p = limit (msgText (Sample.say "My title")) 100
       ∧ p_description p = limit (msgText (Sample.say "About it")) 5000
       ∧ p_tags p = parseTags (msgText (Sample.say "a, b"))
       ∧ (resp_ok (env_sendVideo e p) = true → kv (after e u5 w4) = kv w).
Proof.
  intros e u1 u2 u3 u4 u5 w w4.
  apply (wizard_walkthrough 5 (Sample.videoOf (utf16 "VID-9")) e e e e e
           u1 u2 u3 u4 u5 (Sample2.video "VID-9") (Sample.say "My title")
           (Sample.say "About it") (Sample.say "a, b") (Sample.say "confirm") w).
  - reflexivity.
  - repeat split; vm_compute; reflexivity.
  - reflexivity.
  - reflexivity.
  - repeat split; vm_compute; reflexivity.
  - reflexivity.
  - repeat split; vm_compute; reflexivity.
  - reflexivity.
  - repeat split; vm_compute; reflexivity.
  - vm_compute. discriminate.
  - reflexivity.
  - vm_compute. reflexivity.
  - reflexivity.
  - vm_compute. reflexivity.
Defined.
(** ** The cached identity *)

Lemma resolved_identity env w :
  truthy_ostr (botUsername w) && truthy_onum (botId w) = true →
  resolved env w = extend w [].
Proof.
  intros H. unfold resolved, ensureBotIdentity.
  cbv [mbind M_bind mret M_ret getIdentity]. rewrite H.
  by rewrite extend_nil.
Qed.

Lemma resolved_lookup env w me :
  env_getMe env = Some (Some me) →
  truthy_ostr (me_username me) = true →
  truthy_onum (me_id me) = true →
  truthy_ostr (botUsername (resolved env w))
  && truthy_onum (botId (resolved env w)) = true.
Proof.
  intros Hme Hu Hi. unfold resolved, ensureBotIdentity.
  cbv [mbind M_bind mret M_ret getIdentity tg_getMe emit setIdentity].
  destruct (truthy_ostr (botUsername w) && truthy_onum (botId w)) eqn:Hc;
    cbn [snd botUsername botId]; [exact Hc|].
  unfold getMeResult, keepTruthy_str, keepTruthy_num. rewrite Hme, Hu, Hi.
  by rewrite Hu, Hi.
Qed.

Lemma group_keeps_identity env upd msg w :
  message upd = Some msg →
  isGroupChat msg = true →
  botUsername (after env upd w) = botUsername (resolved env w)
  ∧ botId (after env upd w) = botId (resolved env w).
Proof.
  intros Hm Hg. unfold after.
  rewrite (handleUpdate_group _ _ _ _ Hm Hg).
  destruct (handleMention_cases env msg (msgContent msg)
              (botUsername (resolved env w)) (botId (resolved env w))
              (resolved env w)) as (evs & -> & _).
  by split.
Qed.

Lemma group_events env upd msg w e :
  message upd = Some msg →
  isGroupChat msg = true →
  e ∈ newEvents env upd w →
  e ∈ identityEvents w ∨ e ≠ GetMe.
Proof.
  intros Hm Hg.
  destruct (handleMention_cases env msg (msgContent msg)
              (botUsername (resolved env w)) (botId (resolved env w))
              (resolved env w)) as (evs & Hrun & Hcases).
  destruct (group_newEvents _ _ _ _ _ Hm Hg Hrun) as [-> _].
  intros [Hin|Hin]%elem_of_app; [by left|right].
  destruct Hcases as [->|[->|[->|(p & _ & _ & Hd)]]].
  - by apply elem_of_nil in Hin.
  - apply elem_of_cons in Hin as [->|Hin]; [discriminate|by apply elem_of_nil in Hin].
  - apply elem_of_cons in Hin as [->|Hin]; [discriminate|by apply elem_of_nil in Hin].
  - rewrite dispatchTemplate_run in Hd. injection Hd as Hevs.
    apply app_inv_head in Hevs. subst evs.
    repeat match goal with
    | H : _ ∈ (if ?b then _ else _) |- _ => destruct b
    | H : _ ∈ _ :: _ |- _ => apply elem_of_cons in H as [->|H]; [discriminate|]
    | H : _ ∈ [] |- _ => by apply elem_of_nil in H
    end.
Qed.

(** X23. The identity is looked up once per processor: after a group
    update for which [getMe] gave a handle and an id (or which found
    them cached), a later group update makes no [getMe] call. *)
Theorem identity_is_looked_up_once env1 env2 upd1 upd2 m1 m2 me w :
  message upd1 = Some m1 → isGroupChat m1 = true →
  message upd2 = Some m2 → isGroupChat m2 = true →
  env_getMe env1 = Some (Some me) →
  truthy_ostr (me_username me) = true →
  truthy_onum (me_id me) = true →
  GetMe ∉ newEvents env2 upd2 (after env1 upd1 w).
Proof.
  intros Hm1 Hg1 Hm2 Hg2 Hme Hu Hi Hin.
  destruct (group_keeps_identity env1 upd1 m1 w Hm1 Hg1) as [Hku Hki].
  pose proof (resolved_lookup env1 w me Hme Hu Hi) as Hres.
  rewrite <- Hku, <- Hki in Hres.
  destruct (group_events env2 upd2 m2 _ _ Hm2 Hg2 Hin) as [Hid|Hne]; [|done].
  unfold identityEvents in Hid. rewrite Hres in Hid.
  by apply elem_of_nil in Hid.
Qed.

Lemma identity_is_looked_up_once_witness :
  GetMe ∉ newEvents (Sample.env 200) (Sample.update Sample.linkedReply)
            (after (Sample.env 200) (Sample.update Sample.fan) (Sample.world [])).
Proof.
  apply (identity_is_looked_up_once (Sample.env 200) (Sample.env 200)
           (Sample.update Sample.fan) (Sample.update Sample.linkedReply)
           Sample.fan Sample.linkedReply
           (default {| me_id := None; me_username := None |}
              (default None (env_getMe (Sample.env 200))))
           (Sample.world [])).
  - reflexivity.
  - vm_compute. reflexivity.
  - reflexivity.
  - vm_compute. reflexivity.
  - reflexivity.
  - vm_compute. reflexivity.
  - vm_compute. reflexivity.
Defined.
(** ** The KV repository *)

Lemma digits_head f n acc :
  0 ≤ n → ∃ d r, digits (S f) n acc = d :: r ∧ 48 ≤ d ≤ 57.
Proof.
  revert n acc. induction f as [|f IH]; intros n acc Hn.
  - exists (48 + n mod 10), acc. split.
    + cbn [digits]. by destruct (n <? 10).
    + pose proof (Z.mod_pos_bound n 10). lia.
  - change (digits (S (S f)) n acc)
      with (if n <? 10 then (48 + n mod 10) :: acc
            else digits (S f) (n / 10) ((48 + n mod 10) :: acc)).
    destruct (Z.ltb_spec n 10).
    + exists (48 + n mod 10), acc. split; [reflexivity|].
      pose proof (Z.mod_pos_bound n 10). lia.
    + apply IH. apply Z.div_pos; lia.
Qed.

Lemma numberToString_head n :
  0 ≤ n → ∃ d r, numberToString n = d :: r ∧ 48 ≤ d ≤ 57.
Proof.
  intros Hn. unfold numberToString. destruct (Z.ltb_spec n 0); [lia|].
  rewrite Nat.add_1_r. by apply digits_head.
Qed.

Lemma numberToString_negative n :
  n < 0 → numberToString n = 45 :: numberToString (- n).
Proof.
  intros Hn. unfold numberToString.
  destruct (Z.ltb_spec n 0); [|lia]. destruct (Z.ltb_spec (- n) 0); [lia|].
  reflexivity.
Qed.

Lemma numberToString_inj a b : numberToString a = numberToString b → a = b.
Proof.
  intros H.
  destruct (Z.lt_ge_cases a 0) as [Ha|Ha], (Z.lt_ge_cases b 0) as [Hb|Hb].
  - rewrite (numberToString_negative a), (numberToString_negative b) in H by done.
    injection H as H.
    apply (f_equal decimalValue) in H.
    rewrite !numberToString_value in H by lia. lia.
  - rewrite (numberToString_negative a) in H by done.
    destruct (numberToString_head b Hb) as (d & r & Hd & Hr).
    rewrite Hd in H. injection H as H _. lia.
  - rewrite (numberToString_negative b) in H by done.
    destruct (numberToString_head a Ha) as (d & r & Hd & Hr).
    rewrite Hd in H. injection H as H _. lia.
  - apply (f_equal decimalValue) in H.
    by rewrite !numberToString_value in H by lia.
Qed.

Lemma key_inj a b : Kv.key a = Kv.key b → a = b.
Proof.
  unfold Kv.key. intros H%app_inv_head. by apply numberToString_inj.
Qed.

(** X24. Conversations never share a key of the KV namespace: two
    different chat ids, negative ones included, get different keys. The
    ids are safe integers, the numbers a double holds exactly and the
    template literal prints in plain decimal. *)
Theorem kv_keys_do_not_collide (a b : Z) :
  safeInteger a → safeInteger b → a ≠ b → Kv.key a ≠ Kv.key b.
Proof. intros _ _ Hne H. by apply Hne, key_inj. Qed.

Lemma kv_keys_do_not_collide_witness :
  Kv.key 1001234567890 ≠ Kv.key (-1001234567890).
Proof.
  apply (kv_keys_do_not_collide 1001234567890 (-1001234567890));
    unfold safeInteger, MAX_SAFE_INTEGER; lia.
Defined.

Example kv_key_of_a_supergroup :
  Kv.key (-1001234567890) = utf16 "chatstate:-1001234567890".
Proof. vm_compute. reflexivity. Qed.

(** The sample rendering of a state is read back as the state, escapes
    included. *)
Example codec_round_trip :
  Sample2.decodeState (Sample2.encodeState Sample2.quotedState)
  = Some Sample2.quotedState
  ∧ Sample2.decodeState (Sample2.encodeState (Sample.state 6 awaiting_confirm))
    = Some (Sample.state 6 awaiting_confirm)
  ∧ Sample2.encodeState (Sample.state 6 awaiting_confirm)
    = [123; 34] ++ utf16 "chatId" ++ [34; 58; 54; 44; 34] ++ utf16 "step"
      ++ [34; 58; 34] ++ utf16 "awaiting_confirm" ++ [34; 44; 34]
      ++ utf16 "video_file_id" ++ [34; 58; 34] ++ utf16 "VID-1" ++ [34; 44; 34]
      ++ utf16 "title" ++ [34; 58; 34] ++ utf16 "title" ++ [34; 44; 34]
      ++ utf16 "description" ++ [34; 58; 34] ++ utf16 "about" ++ [34; 44; 34]
      ++ utf16 "tags" ++ [34; 58; 91; 34; 97; 34; 44; 34; 98; 34; 93; 44; 34]
      ++ utf16 "updatedAt" ++ [34; 58] ++ utf16 "1699999999" ++ [125].
Proof. vm_compute. repeat split; reflexivity. Qed.

Lemma represents_save stringify parse ns k st :
  Kv.represents parse ns k →
  parse (stringify st) = Some st →
  stringify st ≠ [] →
  Kv.represents parse (Kv.save stringify ns st) (<[chatId st := st]> k).
Proof.
  intros Hrep Hround Hne c' Hsafe. unfold Kv.get, Kv.save.
  destruct (decide (chatId st = c')) as [<-|Hc].
  - rewrite (lookup_insert_eq k), (lookup_insert_eq ns).
    destruct (stringify st) as [|c0 r] eqn:Hs; [done|]. exact Hround.
  - rewrite (lookup_insert_ne k) by done.
    rewrite (lookup_insert_ne ns); [by apply Hrep|].
    intros H. by apply Hc, key_inj.
Qed.

Lemma represents_empty parse : Kv.represents parse ∅ ∅.
Proof. intros c _. unfold Kv.get. by rewrite !lookup_empty. Qed.

(** X25. [KvChatStateRepository] implements the finite map of the
    processor model, for chat ids that are safe integers: if the
    namespace holds the states of a map, then after [save] it holds those
    of the map with the state inserted under its chat id (JSON being a
    round trip on that state), and after [delete] those of the map with
    the chat id deleted. *)
Theorem kv_repository_implements_the_map stringify parse ns k st c :
  Kv.represents parse ns k →
  safeInteger (chatId st) →
  safeInteger c →
  parse (stringify st) = Some st →
  stringify st ≠ [] →
  Kv.represents parse (Kv.save stringify ns st) (<[chatId st := st]> k)
  ∧ Kv.represents parse (Kv.delete ns c) (delete c k).
Proof.
  intros Hrep _ _ Hround Hne. split; [by apply represents_save|].
  intros c' Hsafe. unfold Kv.get, Kv.delete.
  destruct (decide (c = c')) as [<-|Hc].
  - by rewrite (lookup_delete_eq k), (lookup_delete_eq ns).
  - rewrite (lookup_delete_ne k) by done.
    rewrite (lookup_delete_ne ns); [by apply Hrep|].
    intros H. by apply Hc, key_inj.
Qed.

Lemma kv_repository_implements_the_map_witness :
  Kv.represents Sample2.decodeState
    (Kv.save Sample2.encodeState Sample2.namespace Sample2.quotedState)
    (<[chatId Sample2.quotedState := Sample2.quotedState]>
       (<[chatId (Sample.state 6 awaiting_confirm)
          := Sample.state 6 awaiting_confirm]> ∅))
  ∧ Kv.represents Sample2.decodeState (Kv.delete Sample2.namespace 6)
      (delete 6 (<[chatId (Sample.state 6 awaiting_confirm)
                   := Sample.state 6 awaiting_confirm]> ∅)).
Proof.
  apply (kv_repository_implements_the_map Sample2.encodeState
           Sample2.decodeState Sample2.namespace _ Sample2.quotedState 6).
  - apply represents_save.
    + apply represents_empty.
    + vm_compute. reflexivity.
    + vm_compute. discriminate.
  - unfold safeInteger, MAX_SAFE_INTEGER. cbn [chatId Sample2.quotedState]. lia.
  - unfold safeInteger, MAX_SAFE_INTEGER. lia.
  - vm_compute. reflexivity.
  - vm_compute. discriminate.
Defined.

(** What the sample namespace answers after the [save]: the state saved,
    and the state of the other conversation as before; after the
    [delete], nothing. *)
Example kv_get_after_save :
  Kv.get Sample2.decodeState
    (Kv.save Sample2.encodeState Sample2.namespace Sample2.quotedState)
    (-1001234567890) = Some Sample2.quotedState
  ∧ Kv.get Sample2.decodeState
      (Kv.save Sample2.encodeState Sample2.namespace Sample2.quotedState) 6
    = Some (Sample.state 6 awaiting_confirm)
  ∧ Kv.get Sample2.decodeState (Kv.delete Sample2.namespace 6) 6 = None.
Proof. vm_compute. repeat split; reflexivity. Qed.

(** ** The worker *)

Lemma differs_false header secret :
  Worker.differs header secret = false → header = Some secret.
Proof.
  destruct header as [h|]; [|discriminate]. cbn [Worker.differs].
  rewrite negb_false_iff. intros H%str_eqb_eq. by subst.
Qed.

(** X26. With a secret configured, a request has an effect only if it is
    a POST to /webhook whose secret header equals the secret: every other
    request leaves the store and the trace of calls as they were. *)
Theorem effects_need_the_secret cfg env req w secret :
  Worker.TELEGRAM_SECRET_TOKEN cfg = Some secret →
  secret ≠ [] →
  (Worker.fetch cfg env req w).2 ≠ w →
  Worker.method req = utf16 "POST"
  ∧ Worker.pathname req = utf16 "/webhook"
  ∧ Worker.secretHeader req = Some secret.
Proof.
  intros Hs Hne. unfold Worker.fetch. rewrite Hs.
  change (or_empty (Some secret)) with secret.
  destruct (str_eqb (Worker.method req) (utf16 "GET") && _); [done|].
  destruct (str_eqb (Worker.method req) (utf16 "POST")) eqn:Hpost;
    cbn [andb]; [|done].
  destruct (str_eqb (Worker.pathname req) (utf16 "/webhook")) eqn:Hpath; [|done].
  destruct secret as [|c0 r]; [done|]. cbn [truthy_str andb].
  destruct (Worker.differs _ _) eqn:Hd; [done|].
  intros _. apply str_eqb_eq in Hpost, Hpath. by apply differs_false in Hd.
Qed.

Lemma effects_need_the_secret_witness :
  Worker.method (Sample2.webhook (Some "s3cret"%string) (Sample.update (Sample.say "/start")))
  = utf16 "POST"
  ∧ Worker.pathname (Sample2.webhook (Some "s3cret"%string) (Sample.update (Sample.say "/start")))
    = utf16 "/webhook"
  ∧ Worker.secretHeader (Sample2.webhook (Some "s3cret"%string)
                           (Sample.update (Sample.say "/start")))
    = Some (utf16 "s3cret").
Proof.
  apply (effects_need_the_secret Sample2.config (Sample.env 200) _
           (Sample.world []) (utf16 "s3cret")).
  - reflexivity.
  - vm_compute. discriminate.
  - intros H. apply (f_equal (λ w, length (trace w))) in H.
    vm_compute in H. discriminate H.
Defined.

(** X27. A worker without the bot token or without the n8n URL never
    handles an update: whatever the request, the store and the trace of
    calls stay as they were, and the reply is not the acknowledgement of
    an update. *)
Theorem misconfigured_worker_handles_nothing cfg env req w :
  truthy_ostr (Worker.TELEGRAM_BOT_TOKEN cfg) = false
  ∨ truthy_ostr (Worker.N8N_WEBHOOK_URL cfg) = false →
  (Worker.fetch cfg env req w).2 = w
  ∧ Worker.content (Worker.fetch cfg env req w).1 ≠ Worker.Done.
Proof.
  intros Hcfg. unfold Worker.fetch. cbv [mret M_ret].
  assert (∀ (r : Worker.Reply), Worker.content r ≠ Worker.Done →
            (r, w).2 = w ∧ Worker.content (r, w).1 ≠ Worker.Done) as Hleaf
    by (intros r Hr; by split).
  destruct (str_eqb (Worker.method req) (utf16 "GET") && _);
    [by apply Hleaf|].
  destruct (str_eqb (Worker.method req) (utf16 "POST") && _);
    [|by apply Hleaf].
  destruct (truthy_str _ && _); [by apply Hleaf|].
  destruct (Worker.body req) as [upd|]; [|by apply Hleaf].
  destruct (truthy_ostr (Worker.TELEGRAM_BOT_TOKEN cfg)); cbn [negb];
    [|by apply Hleaf].
  destruct (truthy_ostr (Worker.N8N_WEBHOOK_URL cfg)); cbn [negb];
    [|by apply Hleaf].
  by destruct Hcfg.
Qed.

Lemma misconfigured_worker_handles_nothing_witness :
  let cfg := {| Worker.TELEGRAM_SECRET_TOKEN := None;
                Worker.TELEGRAM_BOT_TOKEN := Some (utf16 "123:abc");
                Worker.N8N_WEBHOOK_URL := None |} in
  let req := Sample2.webhook None (Sample.update (Sample.say "/start")) in
  (Worker.fetch cfg (Sample.env 200) req (Sample.world [])).2 = Sample.world []
  ∧ Worker.content (Worker.fetch cfg (Sample.env 200) req (Sample.world [])).1
    ≠ Worker.Done.
Proof.
  intros cfg req.
  apply (misconfigured_worker_handles_nothing cfg (Sample.env 200) req
           (Sample.world [])).
  right. reflexivity.
Defined.

(** X28. The worker builds a processor for every request, so nothing is
    cached between requests: every group update it handles (the reply
    is the acknowledgement) starts with a [getMe] call, and is
    acknowledged with status 200 whatever came of it. *)
Theorem every_group_webhook_looks_up_identity cfg env req upd msg w :
  Worker.content (Worker.fetch cfg env req w).1 = Worker.Done →
  Worker.body req = Some upd →
  message upd = Some msg →
  isGroupChat msg = true →
  Worker.status (Worker.fetch cfg env req w).1 = 200
  ∧ ∃ evs, trace (Worker.fetch cfg env req w).2 = trace w ++ GetMe :: evs.
Proof.
  intros Hdone Hbody Hm Hg. revert Hdone. unfold Worker.fetch.
  cbv [mret M_ret]. rewrite Hbody.
  destruct (str_eqb (Worker.method req) (utf16 "GET") && _);
    [intros [=]|].
  destruct (str_eqb (Worker.method req) (utf16 "POST") && _);
    [|intros [=]].
  destruct (truthy_str _ && _); [intros [=]|].
  destruct (truthy_ostr (Worker.TELEGRAM_BOT_TOKEN cfg)); cbn [negb];
    [|intros [=]].
  destruct (truthy_ostr (Worker.N8N_WEBHOOK_URL cfg)); cbn [negb];
    [|intros [=]].
  intros _.
  destruct (handleUpdate env upd (Worker.newProcessor w)) as [[] w'] eqn:Hrun.
  split; [reflexivity|]. cbn [snd].
  destruct (handleMention_cases env msg (msgContent msg)
              (botUsername (resolved env (Worker.newProcessor w)))
              (botId (resolved env (Worker.newProcessor w)))
              (resolved env (Worker.newProcessor w))) as (evs & Hmention & _).
  rewrite (handleUpdate_group _ _ _ _ Hm Hg), Hmention in Hrun.
  injection Hrun as <-. exists evs. cbn [extend trace].
  destruct (resolved_frame env (Worker.newProcessor w)) as [_ ->].
  by rewrite <- app_assoc.
Qed.

Lemma every_group_webhook_looks_up_identity_witness :
  let cfg := {| Worker.TELEGRAM_SECRET_TOKEN := None;
                Worker.TELEGRAM_BOT_TOKEN := Some (utf16 "123:abc");
                Worker.N8N_WEBHOOK_URL := Some (utf16 "https://n8n.example/webhook") |} in
  let req := Sample2.webhook (Some "anything"%string)
               (Sample.update Sample.linkedReply) in
  Worker.status (Worker.fetch cfg (Sample.env 200) req (Sample.world [])).1 = 200
  ∧ ∃ evs, trace (Worker.fetch cfg (Sample.env 200) req (Sample.world [])).2
           = trace (Sample.world []) ++ GetMe :: evs.
Proof.
  intros cfg req.
  apply (every_group_webhook_looks_up_identity cfg (Sample.env 200)
           req (Sample.update Sample.linkedReply) Sample.linkedReply
           (Sample.world [])).
  - vm_compute. reflexivity.
  - reflexivity.
  - reflexivity.
  - vm_compute. reflexivity.
Defined.
